(** * CSVDataParser: a shallow embedding of ts/Data/Parsers/CSVDataParser.ts

    The development follows the source file top-down: the JavaScript
    values the parser manipulates (strings indexed by position, sparse
    arrays, optional numbers), the row tokenizer [parseCSVRow] with its
    closures [read] and [push], the delimiter sniffer [guessDelimiter],
    and the driver [parse] with the instance fields it mutates.

    Conventions of the embedding:
    - a JavaScript string is a [string] of 8-bit code units; [s[j]] is
      [charAt s j : option ascii], where [None] is [undefined];
    - a JavaScript number used as a row or column index is a [Z]; the
      column options are whole numbers, and the row options, which
      [parse] uses as indices without a check, are finite numbers, whole
      or not (rationals; NaN and the infinities are left out); an absent
      option, or one holding [undefined], is [None];
    - an array with holes is a [list (option A)]; writing past the end
      extends it with holes, as an assignment [a[r] = v] does;
    - loops whose counter is also advanced inside their body carry a fuel
      argument; running out of fuel is the failure [OutOfFuel], and the
      theorems below show that the fuel handed out by the callers is
      always enough. *)

From Stdlib Require Import ZArith Ascii String Bool Lia.
From Stdlib Require QArith.QArith_base QArith.Qround.
From stdpp Require Import list strings.

Local Open Scope Z_scope.
Local Open Scope nat_scope.

(** ** JavaScript values *)

Module JS.

(** Code units the parser names. *)
Definition CR : ascii := ascii_of_nat 13.
Definition LF : ascii := ascii_of_nat 10.
Definition TAB : ascii := ascii_of_nat 9.
Definition DQUOTE : ascii := ascii_of_nat 34.
Definition HASH : ascii := ascii_of_nat 35.

(** [s[j]] for a string [s]: the code unit at [j], or [undefined]. *)
Definition charAt (s : string) (j : nat) : option ascii := String.get j s.

(** [s[j - 1]]: index [-1] is not an element of the string. *)
Definition charBefore (s : string) (j : nat) : option ascii :=
  match j with
  | O => None
  | S k => String.get k s
  end.

(** [c === 'a'] for a value [c] read from a string. *)
Definition is_char (a : ascii) (c : option ascii) : bool :=
  match c with
  | Some b => Ascii.eqb b a
  | None => false
  end.

(** [c === d] where [d] is an optional string: true only when [d] is
    the one-unit string holding [c]. *)
Definition is_string (d : option string) (c : option ascii) : bool :=
  match c, d with
  | Some b, Some s => String.eqb (String b EmptyString) s
  | _, _ => false
  end.

(** The string a value read from a string converts to in [token += c]. *)
Definition to_string (c : option ascii) : string :=
  match c with
  | Some b => String b EmptyString
  | None => "undefined"
  end.

(** ['' + v] for an optional string value. *)
Definition string_of (v : option string) : string :=
  match v with
  | Some s => s
  | None => "undefined"
  end.

(** Truthiness of an optional string, number and boolean. *)
Definition truthy_string (v : option string) : bool :=
  match v with
  | Some EmptyString => false
  | Some _ => true
  | None => false
  end.

(** A finite number: a rational. [int z] is the whole number [z]. *)
Abbreviation number := QArith_base.Q.

Definition int (z : Z) : number := QArith_base.inject_Z z.

(** The index a number is: [a[q]] reads an element of the array [a]
    only when [q] is a whole number. *)
Definition index_of (q : number) : option Z :=
  let n := QArith_base.Qnum q in
  let d := Z.pos (QArith_base.Qden q) in
  if (n mod d =? 0)%Z then Some (n / d)%Z else None.

(** The largest whole number that is not above [q]. *)
Definition floor (q : number) : Z := Qround.Qfloor q.

(** [a <= b] on numbers. *)
Definition le (a b : number) : bool := QArith_base.Qle_bool a b.

Definition truthy_number (v : option number) : bool :=
  match v with
  | Some q => negb (QArith_base.Qeq_bool q (int 0))
  | None => false
  end.

Definition truthy_bool (v : option bool) : bool :=
  match v with
  | Some b => b
  | None => false
  end.

(** [a || b] on optional strings. *)
Definition or_string (a b : option string) : option string :=
  if truthy_string a then a else b.

(** [a > b] on optional whole numbers, and [a < b] and [a >= b] on
    optional numbers: a comparison with [undefined] is false. *)
Definition gt (a b : option Z) : bool :=
  match a, b with
  | Some x, Some y => (y <? x)%Z
  | _, _ => false
  end.

Definition lt (a b : option number) : bool :=
  match a, b with
  | Some x, Some y => negb (le y x)
  | _, _ => false
  end.

Definition ge (a b : option number) : bool :=
  match a, b with
  | Some x, Some y => le y x
  | _, _ => false
  end.

(** White space removed by [String.prototype.trim], among 8-bit code
    units: TAB, LF, VT, FF, CR, SPACE and NBSP. *)
Definition is_space (c : ascii) : bool :=
  match nat_of_ascii c with
  | 9 | 10 | 11 | 12 | 13 | 32 | 160 => true
  | _ => false
  end.

Fixpoint trimStart (s : string) : string :=
  match s with
  | EmptyString => EmptyString
  | String c s' => if is_space c then trimStart s' else s
  end.

Fixpoint trimEnd (s : string) : string :=
  match s with
  | EmptyString => EmptyString
  | String c s' =>
      match trimEnd s' with
      | EmptyString => if is_space c then EmptyString else String c EmptyString
      | t => String c t
      end
  end.

Definition trim (s : string) : string := trimEnd (trimStart s).

(** Arrays with holes. [arr_get a r] is [a[r]]; [arr_set a r v] is the
    array after [a[r] = v]. A negative index names a property of the
    object, not an element, so the elements are left as they are. *)
Abbreviation array A := (list (option A)).

Definition arr_get {A} (a : array A) (r : Z) : option A :=
  if (r <? 0)%Z then None else mjoin (a !! Z.to_nat r).

Definition arr_set {A} (a : array A) (r : Z) (v : A) : array A :=
  if (r <? 0)%Z then a
  else
    let k := Z.to_nat r in
    if k <? length a then <[k := Some v]> a
    else a ++ replicate (k - length a) None ++ [Some v].

(** [s.replace(/\r\n/g, '\n')] and [s.replace(/\r/g, '\n')]. *)

Fixpoint replace_crlf (s : string) : string :=
  match s with
  | EmptyString => EmptyString
  | String c s' =>
      if Ascii.eqb c CR then
        match s' with
        | String d s'' =>
            if Ascii.eqb d LF then String LF (replace_crlf s'')
            else String c (replace_crlf s')
        | EmptyString => String c EmptyString
        end
      else String c (replace_crlf s')
  end.

Fixpoint replace_cr (s : string) : string :=
  match s with
  | EmptyString => EmptyString
  | String c s' =>
      String (if Ascii.eqb c CR then LF else c) (replace_cr s')
  end.

(** [s.split(sep)] for a string separator. [skip] counts the code units
    of a separator still to be stepped over, [cur] is the piece being
    collected. *)
Fixpoint split_from (sep s : string) (skip : nat) (cur : string)
  : list string :=
  match s with
  | EmptyString => [cur]
  | String c s' =>
      match skip with
      | S k => split_from sep s' k cur
      | O =>
          if String.prefix sep s
          then cur :: split_from sep s' (String.length sep - 1) EmptyString
          else split_from sep s' 0 (cur +:+ String c EmptyString)
      end
  end.

Fixpoint units (s : string) : list string :=
  match s with
  | EmptyString => []
  | String c s' => String c EmptyString :: units s'
  end.

(** [undefined] as separator gives the whole string; the empty
    separator splits between all code units. *)
Definition split (s : string) (sep : option string) : list string :=
  match sep with
  | None => [s]
  | Some EmptyString => units s
  | Some d => split_from d s 0 EmptyString
  end.

End JS.

(** ** Failures *)

(** What can leave a function other than its result: a [TypeError] of the
    engine (a property read on [undefined]), an exception thrown by
    caller-supplied code, or the fuel of the model running out. *)
Inductive failure : Type :=
| TypeError
| Thrown (e : string)
| OutOfFuel.

(** A result carries the value the function returned, or the failure
    together with the value as it was when the failure happened. *)
Inductive result (A : Type) : Type :=
| Ok (a : A)
| Fail (e : failure) (a : A).
Arguments Ok {A} a.
Arguments Fail {A} e a.

(** ** The column buffer *)

Abbreviation Column := (JS.array string).
Abbreviation Columns := (list Column).

(** [columns[c][r]], [undefined] when the column or the row is missing. *)
Definition cell (cols : Columns) (c : nat) (r : Z) : option string :=
  match cols !! c with
  | Some col => JS.arr_get col r
  | None => None
  end.

(** ** The row tokenizer: [parseCSVRow] *)

(** The variables of [parseCSVRow] shared by its closures [read] and
    [push]; [columns] is the buffer [parser.columns] itself. *)
Module RowScan.
Record scan : Type := Scan {
  token : string;
  actualColumn : nat;
  column : nat;
  columns : Columns
}.
End RowScan.
Import RowScan.

Section RowTokenizer.

(** [startColumn], [endColumn] of [parser.options], and the delimiter
    [parser.options.itemDelimiter || parser.guessedItemDelimiter]. *)
Variables (startColumn endColumn : option Z).
Variable (itemDelimiter : option string).
Variables (columnStr : string) (rowNumber : Z).

(** [read(j)]: the triple [(c, cl, cn)]. *)
Definition read (j : nat)
  : option ascii * option ascii * option ascii :=
  (JS.charAt columnStr j, JS.charBefore columnStr j,
   JS.charAt columnStr (S j)).

Definition is_quote : option ascii -> bool := JS.is_char JS.DQUOTE.
Definition is_hash : option ascii -> bool := JS.is_char JS.HASH.

(** [push()]. *)
Definition push (st : scan) : result scan :=
  let actual := Some (Z.of_nat (actualColumn st)) in
  if JS.gt startColumn actual || JS.gt actual endColumn then
    Ok (Scan EmptyString (S (actualColumn st)) (column st) (columns st))
  else
    let cols :=
      if length (columns st) <? column st + 1
      then columns st ++ [[]]
      else columns st in
    match cols !! column st with
    | None =>
        Fail TypeError (Scan (token st) (actualColumn st) (column st) cols)
    | Some col =>
        Ok (Scan EmptyString (S (actualColumn st)) (S (column st))
              (<[column st := JS.arr_set col rowNumber (token st)]> cols))
    end.

(** The [while] loop of a quoted field, entered after [read(++i)]: it
    returns the index it stopped at and the token. *)
Fixpoint quoted (fuel i : nat) (tok : string) : result (nat * string) :=
  match fuel with
  | O => Fail OutOfFuel (i, tok)
  | S fuel' =>
      if i <? String.length columnStr then
        let '(c, cl, cn) := read i in
        if is_quote c && negb (is_quote cl) && negb (is_quote cn)
        then Ok (i, tok)
        else
          let tok' :=
            if negb (is_quote c) || (is_quote c && negb (is_quote cl))
            then tok +:+ JS.to_string c
            else tok in
          quoted fuel' (S i) tok'
      else Ok (i, tok)
  end.

(** The [for] loop over the row, followed by the final [push()]. *)
Fixpoint scan_row (fuel i : nat) (st : scan) : result scan :=
  match fuel with
  | O => Fail OutOfFuel st
  | S fuel' =>
      if i <? String.length columnStr then
        let '(c, _, _) := read i in
        if is_hash c then push st
        else if is_quote c then
          match quoted fuel' (S i) (token st) with
          | Ok (i', tok) =>
              scan_row fuel' (S i')
                (Scan tok (actualColumn st) (column st) (columns st))
          | Fail e (_, tok) =>
              Fail e (Scan tok (actualColumn st) (column st) (columns st))
          end
        else if JS.is_string itemDelimiter c then
          match push st with
          | Ok st' => scan_row fuel' (S i) st'
          | Fail e st' => Fail e st'
          end
        else
          scan_row fuel' (S i)
            (Scan (token st +:+ JS.to_string c)
               (actualColumn st) (column st) (columns st))
      else push st
  end.

(** [parseCSVRow(columnStr, rowNumber)] as a function of the column
    buffer it writes into. *)
Definition parseCSVRow (cols : Columns) : result Columns :=
  if String.length (JS.trim columnStr) =? 0 then Ok cols
  else if is_hash (JS.charAt (JS.trim columnStr) 0) then Ok cols
  else
    match scan_row (S (String.length columnStr)) 0
            (Scan EmptyString 0 0 cols) with
    | Ok st => Ok (columns st)
    | Fail e st => Fail e (columns st)
    end.

End RowTokenizer.

(** ** Options and the parser instance *)

(** The options object. An option that is absent is [None]. The row
    options are numbers, whole or not; the column options are whole
    numbers. The hook [beforeParse] returns the text it produced or the
    failure it raised. *)
Record Options : Type := MkOptions {
  csv : option string;
  startRow : option JS.number;
  endRow : option JS.number;
  startColumn : option Z;
  endColumn : option Z;
  itemDelimiter : option string;
  decimalPoint : option string;
  lineDelimiter : option string;
  firstRowAsNames : option bool;
  beforeParse : option (string -> result string)
}.

Definition no_options : Options :=
  MkOptions None None None None None None None None None None.

(** Modelled from the spec: [merge] of Core/Utilities.js, which is not
    among the sources. The spec describes it as options merging with
    layered defaults, the later object overriding the earlier one; the
    result is a new object and neither argument is changed. An option
    holding [undefined] is not told apart from an absent one. *)
Definition merge (a b : Options) : Options :=
  let pick {A} (x y : option A) : option A :=
    match y with
    | Some _ => y
    | None => x
    end in
  MkOptions
    (pick (csv a) (csv b))
    (pick (startRow a) (startRow b))
    (pick (endRow a) (endRow b))
    (pick (startColumn a) (startColumn b))
    (pick (endColumn a) (endColumn b))
    (pick (itemDelimiter a) (itemDelimiter b))
    (pick (decimalPoint a) (decimalPoint b))
    (pick (lineDelimiter a) (lineDelimiter b))
    (pick (firstRowAsNames a) (firstRowAsNames b))
    (pick (beforeParse a) (beforeParse b)).

(** The fields of a [CSVDataParser] instance. [decimalRegex] is kept as
    the pattern source handed to [new RegExp]. *)
Record Parser : Type := MkParser {
  columns : Columns;
  headers : JS.array string;
  guessedItemDelimiter : option string;
  guessedDecimalPoint : option string;
  decimalRegex : option string;
  options : Options
}.

Definition set_columns (cols : Columns) (p : Parser) : Parser :=
  MkParser cols (headers p) (guessedItemDelimiter p)
    (guessedDecimalPoint p) (decimalRegex p) (options p).

Definition set_headers (h : JS.array string) (p : Parser) : Parser :=
  MkParser (columns p) h (guessedItemDelimiter p)
    (guessedDecimalPoint p) (decimalRegex p) (options p).

Definition set_guessedItemDelimiter (d : option string) (p : Parser)
  : Parser :=
  MkParser (columns p) (headers p) d
    (guessedDecimalPoint p) (decimalRegex p) (options p).

Definition set_decimal (d re : option string) (p : Parser) : Parser :=
  MkParser (columns p) (headers p) (guessedItemDelimiter p) d re (options p).

(** ** The delimiter sniffer: [guessDelimiter] *)

(** The object [potDelimiters], with its three keys. *)
Record potDelimiters : Type := Pot {
  comma : nat;
  semicolon : nat;
  tab : nat
}.

(** [typeof potDelimiters[c] !== 'undefined'] *)
Definition pot_has (c : option ascii) : bool :=
  JS.is_char "," c || JS.is_char ";" c || JS.is_char JS.TAB c.

(** [potDelimiters[c]++] for a key that is present. *)
Definition pot_incr (c : option ascii) (p : potDelimiters) : potDelimiters :=
  if JS.is_char "," c then Pot (S (comma p)) (semicolon p) (tab p)
  else if JS.is_char ";" c then Pot (comma p) (S (semicolon p)) (tab p)
  else if JS.is_char JS.TAB c then Pot (comma p) (semicolon p) (S (tab p))
  else p.

(** The counters of one call of [guessDelimiter]. *)
Record counters : Type := Counters {
  pot : potDelimiters;
  points : nat;
  commas : nat
}.

Definition counters0 : counters := Counters (Pot 0 0 0) 0 0.

Section Sniffer.

(** The host functions the sniffer asks about a token:
    [!isNaN(Date.parse(token))], [isNaN(Number(token))] and
    [isFinite(Number(token))]. *)
Variable date_parses : string -> bool.
Variable number_isNaN : string -> bool.
Variable number_isFinite : string -> bool.

Section Line.
Variable columnStr : string.

(** [while (cn === ' ' && j < columnStr.length) cn = columnStr[++j]] *)
Fixpoint skip_spaces (fuel j : nat) (cn : option ascii)
  : result (nat * option ascii) :=
  match fuel with
  | O => Fail OutOfFuel (j, cn)
  | S fuel' =>
      if JS.is_char " " cn && (j <? String.length columnStr)
      then skip_spaces fuel' (S j) (JS.charAt columnStr (S j))
      else Ok (j, cn)
  end.

(** The inner [for] loop over the code units of one line. *)
Fixpoint sniff_line (fuel j : nat) (inStr : bool) (tok : string)
  (g : counters) : result counters :=
  match fuel with
  | O => Fail OutOfFuel g
  | S fuel' =>
      if j <? String.length columnStr then
        let c := JS.charAt columnStr j in
        let cn := JS.charAt columnStr (S j) in
        let cl := JS.charBefore columnStr j in
        if is_hash c then Ok g
        else
          let count (j' : nat) (inStr' : bool) (tok' : string)
                (p : potDelimiters) :=
            let commas' :=
              if JS.is_char "," c then S (commas g) else commas g in
            let points' :=
              if JS.is_char "." c then S (points g) else points g in
            sniff_line fuel' (S j') inStr' tok'
              (Counters p points' commas') in
          if is_quote c then
            if inStr then
              if negb (is_quote cl) && negb (is_quote cn) then
                match skip_spaces fuel j cn with
                | Ok (j', cn') =>
                    count j' false tok
                      (if pot_has cn' then pot_incr cn' (pot g)
                       else pot g)
                | Fail e _ => Fail e g
                end
              else count j inStr tok (pot g)
            else count j true tok (pot g)
          else if pot_has c then
            let t := JS.trim tok in
            count j inStr EmptyString
              (if date_parses t then pot_incr c (pot g)
               else if number_isNaN t || negb (number_isFinite t)
                    then pot_incr c (pot g)
                    else pot g)
          else count j inStr (tok +:+ JS.to_string c) (pot g)
      else Ok g
  end.
End Line.

(** The outer [for] loop: line [i] is examined unless [i > 13]. *)
Fixpoint sniff_lines (i : nat) (lines : list string) (g : counters)
  : result counters :=
  match lines with
  | [] => Ok g
  | columnStr :: rest =>
      if 13 <? i then Ok g
      else
        match sniff_line columnStr (S (String.length columnStr)) 0
                false EmptyString g with
        | Ok g' => sniff_lines (S i) rest g'
        | Fail e g' => Fail e g'
        end
  end.

(** The decision between the candidates. *)
Definition decide_delimiter (p : potDelimiters) : string :=
  if comma p <? semicolon p then ";"
  else if semicolon p <? comma p then ","
  else ",".

(** The pattern handed to [new RegExp] for a configured separator. *)
Definition decimal_pattern (decimalPoint : option string) : string :=
  "^(-?[0-9]+)" +:+ JS.string_of decimalPoint +:+ "([0-9]+)$".

(** [guessDelimiter(lines)]: the guessed delimiter and the instance
    with the fields the call has set. *)
Definition guessDelimiter (this : Parser) (lines : list string)
  : result (string * Parser) :=
  let decimalPoint := decimalPoint (options this) in
  match sniff_lines 0 lines counters0 with
  | Fail e _ => Fail e (EmptyString, this)
  | Ok g =>
      let guessed := decide_delimiter (pot g) in
      if negb (JS.truthy_string decimalPoint) then
        Ok (guessed,
            set_decimal
              (Some (if commas g <? points g then "." else ","))
              (Some (decimal_pattern decimalPoint)) this)
      else Ok (guessed, this)
  end.

End Sniffer.

(** ** The parser: constructor and [parse] *)

(** How a call of [parse] ends: it returns, or a failure leaves it; in
    both cases with the instance as the call left it. *)
Inductive outcome : Type :=
| Returned (this : Parser)
| Raised (e : failure) (this : Parser).

(** [if (!startRow || startRow < 0) startRow = 0] *)
Definition clamp_startRow (startRow : option JS.number) : JS.number :=
  if negb (JS.truthy_number startRow) || JS.lt startRow (Some (JS.int 0))
  then JS.int 0
  else
    match startRow with
    | Some q => q
    | None => JS.int 0
    end.

(** [if (!endRow || endRow >= lines.length) endRow = lines.length - 1] *)
Definition clamp_endRow (endRow : option JS.number) (linesLength : nat)
  : JS.number :=
  if negb (JS.truthy_number endRow)
     || JS.ge endRow (Some (JS.int (Z.of_nat linesLength)))
  then JS.int (Z.of_nat linesLength - 1)
  else
    match endRow with
    | Some q => q
    | None => JS.int (Z.of_nat linesLength - 1)
    end.

(** [lines[rowIt]] *)
Definition line_at (lines : list string) (rowIt : Z) : option string :=
  if (rowIt <? 0)%Z then None else lines !! Z.to_nat rowIt.

(** The delimiter [parseCSVRow] compares with:
    [parser.options.itemDelimiter || parser.guessedItemDelimiter]. *)
Definition row_delimiter (this : Parser) : option string :=
  JS.or_string (itemDelimiter (options this)) (guessedItemDelimiter this).

(** The loop [for (rowIt = startRow; rowIt <= endRow; rowIt++)] with [n]
    rounds left; [this] gives the options [parseCSVRow] reads. *)
Fixpoint parse_rows (this : Parser) (lines : list string) (startRow : Z)
  (n : nat) (rowIt offset : Z) (cols : Columns) : result Columns :=
  match n with
  | O => Ok cols
  | S n' =>
      match line_at lines rowIt with
      | None => Fail TypeError cols
      | Some line =>
          if is_hash (JS.charAt line 0)
          then parse_rows this lines startRow n' (rowIt + 1)%Z
                 (offset + 1)%Z cols
          else
            match parseCSVRow (startColumn (options this))
                    (endColumn (options this)) (row_delimiter this)
                    line (rowIt - startRow - offset)%Z cols with
            | Ok cols' =>
                parse_rows this lines startRow n' (rowIt + 1)%Z offset cols'
            | Fail e cols' => Fail e cols'
            end
      end
  end.

(** The number of rounds of that loop. *)
Definition rounds (startRow endRow : Z) : nat :=
  Z.to_nat (endRow - startRow + 1)%Z.

(** The loop with its bounds as numbers. [rowIt] starts at the start row
    and grows by one: with a whole start row every [rowIt] is a whole
    number and the loop is [parse_rows], with one round for every whole
    number from the start row to the end row; with any other start row
    no [rowIt] is an index, [lines[rowIt]] is [undefined], and the first
    round, if there is one, raises when it reads [lines[rowIt][0]]. *)
Definition rows_loop (this : Parser) (lines : list string)
  (startRow endRow : JS.number) (cols : Columns) : result Columns :=
  match JS.index_of startRow with
  | Some s =>
      parse_rows this lines s (rounds s (JS.floor endRow)) s 0%Z cols
  | None =>
      if JS.le startRow endRow then Fail TypeError cols else Ok cols
  end.

(** The loop [for (i = 0; i < colsCount; i++)] of header promotion:
    [parser.headers[i] = '' + parser.columns[i][0]]. *)
Fixpoint promote (n i : nat) (cols : Columns) (hs : JS.array string)
  : result (JS.array string) :=
  match n with
  | O => Ok hs
  | S n' =>
      match cols !! i with
      | None => Fail TypeError hs
      | Some col =>
          promote n' (S i) cols
            (JS.arr_set hs (Z.of_nat i) (JS.string_of (JS.arr_get col 0%Z)))
      end
  end.

Section CSVDataParser.

(** [DataParser.defaultOptions], declared in DataParser.ts, which is not
    among the sources. *)
Variable DataParser_defaultOptions : Options.

Variable date_parses : string -> bool.
Variable number_isNaN : string -> bool.
Variable number_isFinite : string -> bool.

(** [CSVDataParser.defaultOptions] *)
Definition defaultOptions : Options :=
  merge DataParser_defaultOptions
    (MkOptions None None None None None None
       (Some ".") (Some (String JS.LF EmptyString)) None None).

(** [new CSVDataParser(options)] *)
Definition new (opts : Options) : Parser :=
  MkParser [] [] None None None (merge defaultOptions opts).

(** [if (csv && beforeParse) csv = beforeParse(csv)] *)
Definition run_beforeParse (parserOptions : Options)
  : result (option string) :=
  match csv parserOptions, beforeParse parserOptions with
  | Some text, Some hook =>
      if JS.truthy_string (Some text) then
        match hook text with
        | Ok text' => Ok (Some text')
        | Fail e _ => Fail e (Some text)
        end
      else Ok (Some text)
  | c, _ => Ok c
  end.

(** [if (!itemDelimiter) parser.guessedItemDelimiter =
    parser.guessDelimiter(lines)] *)
Definition sniff (parserOptions : Options) (lines : list string)
  (this : Parser) : result Parser :=
  if negb (JS.truthy_string (itemDelimiter parserOptions)) then
    match guessDelimiter date_parses number_isNaN number_isFinite
            this lines with
    | Ok (guessed, this') =>
        Ok (set_guessedItemDelimiter (Some guessed) this')
    | Fail e (_, this') => Fail e this'
    end
  else Ok this.

(** The block [if (csv) { ... }]. *)
Definition parse_csv (parserOptions : Options) (csv' : option string)
  (this : Parser) : result Parser :=
  match csv' with
  | Some text =>
      if JS.truthy_string csv' then
        let lines :=
          JS.split (JS.replace_cr (JS.replace_crlf text))
            (lineDelimiter parserOptions) in
        let startRow := clamp_startRow (startRow parserOptions) in
        let endRow := clamp_endRow (endRow parserOptions) (length lines) in
        match sniff parserOptions lines this with
        | Fail e this' => Fail e this'
        | Ok this' =>
            match rows_loop this' lines startRow endRow (columns this') with
            | Ok cols => Ok (set_columns cols this')
            | Fail e cols => Fail e (set_columns cols this')
            end
        end
      else Ok this
  | None => Ok this
  end.

(** The block [if (firstRowAsNames && parser.columns) { ... }]; the
    fields [columns] and [headers] always hold an array. *)
Definition promote_headers (parserOptions : Options) (this : Parser)
  : result Parser :=
  if JS.truthy_bool (firstRowAsNames parserOptions) then
    match promote (length (columns this)) 0 (columns this)
            (headers this) with
    | Ok hs => Ok (set_headers hs this)
    | Fail e hs => Fail e (set_headers hs this)
    end
  else Ok this.

(** [parse(options)] without its two calls of [emit], which hand the
    buffer and the header list to the observers of the instance;
    [parse_observed] below is [parse] with them. *)
Definition parse (opts : Options) (this : Parser) : outcome :=
  let parserOptions := merge (options this) opts in
  let this := set_columns [] this in
  match run_beforeParse parserOptions with
  | Fail e _ => Raised e this
  | Ok csv' =>
      match parse_csv parserOptions csv' this with
      | Fail e this' => Raised e this'
      | Ok this' =>
          match promote_headers parserOptions this' with
          | Ok this'' => Returned this''
          | Fail e this'' => Raised e this''
          end
      end
  end.

(** Modelled from the spec: [emit] of DataParser.ts, which is not among
    the sources. The spec describes it as a notification that announces
    the buffer and the header list to observers, before tokenizing begins
    and after it completes; observers may inspect them. What an event
    carries is read off the two calls in [parse]; the observers of an
    instance are the function from the event to the failure one of them
    raises, if any. *)
Record Event : Type := MkEvent {
  event_type : string;
  event_columns : Columns;
  event_headers : JS.array string
}.

(** [parse(options)] with its two notifications: [parse] after
    [this.columns = []], [afterParse] at the end. A failure raised by an
    observer leaves the call, as nothing wraps it. *)
Definition parse_observed (observers : Event -> option failure)
  (opts : Options) (this : Parser) : outcome :=
  match observers (MkEvent "parse" [] (headers this)) with
  | Some e => Raised e (set_columns [] this)
  | None =>
      match parse opts this with
      | Raised e this' => Raised e this'
      | Returned this' =>
          match observers
                  (MkEvent "afterParse" (columns this') (headers this')) with
          | Some e => Raised e this'
          | None => Returned this'
          end
      end
  end.

End CSVDataParser.

(** ** [toJSON] and [fromJSON] *)

(** The object [toJSON] returns: the class name and the options of the
    instance. *)
Record ClassJSON : Type := MkClassJSON {
  class_name : string;
  json_options : Options
}.

(** [toJSON()] *)
Definition toJSON (this : Parser) : ClassJSON :=
  MkClassJSON "CSVDataParser" (options this).

(** [CSVDataParser.fromJSON(json)] *)
Definition fromJSON (DataParser_defaultOptions : Options) (json : ClassJSON)
  : Parser :=
  new DataParser_defaultOptions (json_options json).

(** ** Vocabulary of the statements *)

(** Every code unit of a string satisfies a test. *)
Fixpoint all_chars (P : ascii -> bool) (s : string) : bool :=
  match s with
  | EmptyString => true
  | String c s' => P c && all_chars P s'
  end.

Definition not_quote (c : ascii) : bool := negb (Ascii.eqb c JS.DQUOTE).

(** A code unit the row scan appends to the token when the delimiter is
    the one-unit string [d]: not the hash, not the quote, not [d]. *)
Definition plain (d : ascii) (c : ascii) : bool :=
  negb (Ascii.eqb c JS.HASH) && not_quote c && negb (Ascii.eqb c d).

(** A one-unit delimiter the row scan can meet: it is not taken for a
    comment or a quote first, and a row made of it alone is not blank. *)
Definition delimiter_unit (d : ascii) : bool :=
  negb (Ascii.eqb d JS.HASH) && not_quote d && negb (JS.is_space d).

(** The test of [push] on the actual-column counter, negated. *)
Definition in_window (startColumn endColumn : option Z) (actual : nat)
  : bool :=
  negb (JS.gt startColumn (Some (Z.of_nat actual))
        || JS.gt (Some (Z.of_nat actual)) endColumn).

(** One-unit strings. *)
Definition unit_string (c : ascii) : string := String c EmptyString.
Definition quote : string := unit_string JS.DQUOTE.

(** The three kinds of lines the rows loop does not turn into cells: the
    comment recognised by [parse] itself, and the two fast exits of
    [parseCSVRow]. *)
Definition starts_with_hash (line : string) : bool :=
  is_hash (JS.charAt line 0).

Definition blank (line : string) : bool :=
  String.length (JS.trim line) =? 0.

Definition indented_comment (line : string) : bool :=
  negb (starts_with_hash line) && is_hash (JS.charAt (JS.trim line) 0).

(** The number of lines that take a row index: all but those [parse]
    counts in [offset]. *)
Fixpoint rows_taken (lines : list string) : nat :=
  match lines with
  | [] => 0
  | l :: rest =>
      (if starts_with_hash l then 0 else 1) + rows_taken rest
  end.

(** The rows loop as [parse] runs it when the row window holds the lines
    [window], with the lines [above] in front of the start row and the
    lines [below] behind the end row: from the start row, with offset 0,
    into the buffer [parse] has just emptied. *)
Definition tokenize_window (this : Parser) (above window below : list string)
  : result Columns :=
  parse_rows this (above ++ window ++ below) (Z.of_nat (length above))
    (length window) (Z.of_nat (length above)) 0%Z [].

(** The rows loop told by the lines still to come and the row index the
    next tokenized line gets; [parse_rows_rows_from] shows it is the loop
    of [parse]. *)
Fixpoint rows_from (this : Parser) (rest : list string) (r : Z)
  (cols : Columns) : result Columns :=
  match rest with
  | [] => Ok cols
  | line :: rest' =>
      if starts_with_hash line then rows_from this rest' r cols
      else
        match parseCSVRow (startColumn (options this))
                (endColumn (options this)) (row_delimiter this)
                line r cols with
        | Ok cols' => rows_from this rest' (r + 1)%Z cols'
        | Fail e cols' => Fail e cols'
        end
  end.

(** Two buffers agree on every cell outside row [r]. *)
Definition same_off_row (r : Z) (cols cols' : Columns) : Prop :=
  forall (c : nat) (r' : Z), r' <> r -> cell cols' c r' = cell cols c r'.

(** ** Inputs used in the examples *)

Definition LF_string : string := unit_string JS.LF.

(** The options object of an instance that was given the column window
    from 0 to 9 and, when [d] is there, the item delimiter [d]. *)
Definition instance_options (d : option string) : Options :=
  MkOptions None None None (Some 0%Z) (Some 9%Z) d
    (Some ".") (Some LF_string) None None.

(** The options of a call of [parse]: the text, and when they are given
    the end row (a whole number), the item delimiter and
    [firstRowAsNames]. *)
Definition call_options (text : string) (endRow : option Z)
  (d : option string) (names : option bool) : Options :=
  MkOptions (Some text) None (JS.int <$> endRow) None None d None None
    names None.

(** A call with the text and a start row, and the number one half. *)
Definition call_from_row (text : string) (startRow : JS.number) : Options :=
  MkOptions (Some text) (Some startRow) None None None None None None None
    None.

Definition half : JS.number := QArith_base.Qmake 1 2.

(** Observers that raise nothing. *)
Definition quiet (ev : Event) : option failure := None.

(** A call whose hook raises [e]. *)
Definition failing_call (text e : string) : Options :=
  MkOptions (Some text) None None None None None None None None
    (Some (fun s => Fail (Thrown e) s)).

(** Constant answers for the host functions: with [never] as the date
    test and [always] as the not-a-number test, no token is a date or a
    number. *)
Definition never (s : string) : bool := false.
Definition always (s : string) : bool := true.

(** ** Vocabulary of the further properties *)

(** A one-unit delimiter that reaches the delimiter test of the row scan:
    it is neither the hash nor the quote. *)
Definition delimiter_char (d : ascii) : bool :=
  negb (Ascii.eqb d JS.HASH) && not_quote d.

(** Strings written one after the other with [sep] between them. *)
Fixpoint join_with (sep : string) (parts : list string) : string :=
  match parts with
  | [] => EmptyString
  | p :: rest =>
      match rest with
      | [] => p
      | _ :: _ => p +:+ sep +:+ join_with sep rest
      end
  end.

(** A field of a row as it is written in the text: plain, or between
    quotes with doubled quotes between its segments. *)
Inductive field : Type :=
| Plain (text : string)
| Quoted (segments : list string).

(** The text of a field, and the code units that stand for it in a row. *)
Definition field_text (f : field) : string :=
  match f with
  | Plain text => text
  | Quoted segments => join_with quote segments
  end.

Definition field_code (f : field) : string :=
  match f with
  | Plain text => text
  | Quoted segments =>
      quote +:+ join_with (quote +:+ quote) segments +:+ quote
  end.

Definition segment_ok (x : string) : bool :=
  negb (String.eqb x EmptyString) && all_chars not_quote x.

(** The fields the scan reads back: a plain field holds no hash, quote or
    delimiter; a quoted field has at least one segment, and its segments
    are not empty and hold no quote. *)
Definition field_ok (d : ascii) (f : field) : bool :=
  match f with
  | Plain text => all_chars (plain d) text
  | Quoted segments =>
      match segments with
      | [] => false
      | _ :: _ => forallb segment_ok segments
      end
  end.

Definition row_code (d : ascii) (fields : list field) : string :=
  join_with (unit_string d) (map field_code fields).

(** What ends the fields of a row: the end of the line, or a hash and the
    comment behind it. *)
Definition row_tail (tail : string) : bool :=
  match tail with
  | EmptyString => true
  | String c _ => Ascii.eqb c JS.HASH
  end.

(** The two fast exits of [parseCSVRow] taken together. *)
Definition skipped (line : string) : bool :=
  blank line || is_hash (JS.charAt (JS.trim line) 0).

(** The buffer after [push] has written a token inside the window to
    output column [k]. *)
Definition put (cols : Columns) (k : nat) (r : Z) (tok : string) : Columns :=
  let cols0 := if length cols <? k + 1 then cols ++ [[]] else cols in
  match cols0 !! k with
  | Some col => <[k := JS.arr_set col r tok]> cols0
  | None => cols0
  end.

Fixpoint put_fields (cols : Columns) (k : nat) (r : Z) (fields : list string)
  : Columns :=
  match fields with
  | [] => cols
  | f :: rest => put_fields (put cols k r f) (S k) r rest
  end.

(** A row the tokenizer reads field by field: its fields are read
    back, and it is not skipped. *)
Definition good_row (d : ascii) (tail : string) (row : list field) : bool :=
  forallb (field_ok d) row && negb (skipped (row_code d row +:+ tail)).

(** The fields of a row that [push] writes: those whose actual column,
    counted from [a], passes the window test. *)
Fixpoint kept_from {A : Type} (startColumn endColumn : option Z) (a : nat)
  (fields : list A) : list A :=
  match fields with
  | [] => []
  | f :: rest =>
      if in_window startColumn endColumn a
      then f :: kept_from startColumn endColumn (S a) rest
      else kept_from startColumn endColumn (S a) rest
  end.

(** The column window as a slice: the fields from index [startColumn]
    (from 0 when it is absent or negative) to index [endColumn] (to the
    last when it is absent). *)
Definition window_fields {A : Type} (startColumn endColumn : option Z)
  (fields : list A) : list A :=
  let lo := match startColumn with
            | Some s => Z.to_nat s
            | None => 0
            end in
  match endColumn with
  | Some e => take (Z.to_nat (e + 1) - lo) (drop lo fields)
  | None => drop lo fields
  end.

(** The row scan started at index [i] in state [st] ends in state [st'],
    whatever fuel it is given beyond the code units left; likewise the
    quoted sub-scan. *)
Definition runs (startColumn endColumn : option Z)
  (itemDelimiter : option string) (columnStr : string) (rowNumber : Z)
  (i : nat) (st st' : scan) : Prop :=
  forall fuel,
    0 < fuel -> String.length columnStr < fuel + i ->
    scan_row startColumn endColumn itemDelimiter columnStr rowNumber
      fuel i st = Ok st'.

Definition quoted_runs (columnStr : string) (i : nat) (tok : string)
  (res : nat * string) : Prop :=
  forall fuel,
    0 < fuel -> String.length columnStr < fuel + i ->
    quoted columnStr fuel i tok = Ok res.

(** The code unit behind a position is no quote. *)
Definition no_quote_next (post : string) : bool :=
  negb (is_quote (String.get 0 post)).

(** No code unit of a string is [a]. *)
Definition no_char (a : ascii) (s : string) : bool :=
  all_chars (fun c => negb (Ascii.eqb c a)) s.

(** An item delimiter that is no string of one code unit: absent, empty,
    or of two code units or more. *)
Definition no_unit (itemDelimiter : option string) : bool :=
  match itemDelimiter with
  | Some (String _ EmptyString) => false
  | _ => true
  end.

(** A code unit that is neither the hash nor the quote. *)
Definition unmarked (c : ascii) : bool :=
  negb (Ascii.eqb c JS.HASH) && not_quote c.

(** A string of spaces. *)
Definition only_spaces (s : string) : bool :=
  all_chars (fun c => Ascii.eqb c " ") s.

(** The number of code units of a string that are [a]. *)
Fixpoint count_char (a : ascii) (s : string) : nat :=
  match s with
  | EmptyString => 0
  | String c s' => (if Ascii.eqb c a then 1 else 0) + count_char a s'
  end.

(** The code units of a line in front of its first hash. *)
Fixpoint before_hash (s : string) : string :=
  match s with
  | EmptyString => EmptyString
  | String c s' =>
      if Ascii.eqb c JS.HASH then EmptyString else String c (before_hash s')
  end.

(** The code units [a] in front of the first hash of each of the first
    14 lines, all lines together. *)
Definition counted (a : ascii) (lines : list string) : nat :=
  list_sum (map (fun l => count_char a (before_hash l)) (take 14 lines)).

(** No quote of the string has a space right behind it. *)
Fixpoint no_quote_space (s : string) : bool :=
  match s with
  | EmptyString => true
  | String c s' =>
      negb (Ascii.eqb c JS.DQUOTE && JS.is_char " " (String.get 0 s'))
      && no_quote_space s'
  end.

(** A code unit the sniffer appends to its token outside quotes: not the
    hash, not the quote, none of the three candidate delimiters. *)
Definition sniff_plain (c : ascii) : bool :=
  negb (Ascii.eqb c JS.HASH) && not_quote c
  && negb (pot_has (Some c)).

(** The test the sniffer makes on a token before it counts the delimiter
    behind it. *)
Definition counts_as_field
  (date_parses number_isNaN number_isFinite : string -> bool)
  (tok : string) : bool :=
  let t := JS.trim tok in
  date_parses t || number_isNaN t || negb (number_isFinite t).

(** The three line endings, and the code units of each. *)
Inductive ending : Type := CRLF | CR | LF.

Definition ending_code (e : ending) : string :=
  match e with
  | CRLF => String JS.CR (String JS.LF EmptyString)
  | CR => String JS.CR EmptyString
  | LF => String JS.LF EmptyString
  end.

(** A line of a text holds neither of the two code units of the line
    endings. *)
Definition line_ok (l : string) : bool := no_char JS.CR l && no_char JS.LF l.

(** The text behind the first line: every further line with the ending
    in front of it. *)
Fixpoint more_lines (rest : list (ending * string)) : string :=
  match rest with
  | [] => EmptyString
  | (e, l) :: rest' => ending_code e +:+ l +:+ more_lines rest'
  end.

(** The next line ends in a bare line feed. *)
Definition next_is_LF (rest : list (ending * string)) : bool :=
  match rest with
  | (LF, _) :: _ => true
  | _ => false
  end.

(** No bare carriage return is followed by an empty line that ends in a
    bare line feed: these two code units would read as one line ending. *)
Fixpoint clear_endings (rest : list (ending * string)) : bool :=
  match rest with
  | [] => true
  | (e, l) :: rest' =>
      negb (match e with CR => true | _ => false end
            && String.eqb l EmptyString && next_is_LF rest')
      && clear_endings rest'
  end.

(** The same lines with a line feed in front of each. *)
Definition with_LF (rest : list (ending * string)) : list (ending * string) :=
  map (fun el => (LF, snd el)) rest.

(** The instance a call of [parse] leaves behind. *)
Definition instance_after (o : outcome) : Parser :=
  match o with
  | Returned this => this
  | Raised _ this => this
  end.

(** A call with a text and a hook that raises. *)
Definition hooked_call (text : option string) : Options :=
  MkOptions text None None None None None None None (Some true)
    (Some (fun s => Fail (Thrown "hook") s)).

(** * Properties *)

(** ** Strings by position *)

Lemma str_length_app (a b : string) :
  String.length (a +:+ b) = String.length a + String.length b.
Proof. induction a as [|c a IH]; simpl; [reflexivity | now rewrite IH]. Qed.

Lemma str_get_app_l (a b : string) (k : nat) :
  k < String.length a -> String.get k (a +:+ b) = String.get k a.
Proof.
  revert k; induction a as [|c a IH]; simpl; intros k Hk; [lia|].
  destruct k as [|k]; [reflexivity | apply IH; lia].
Qed.

Lemma str_get_app_r (a b : string) (k : nat) :
  String.get (String.length a + k) (a +:+ b) = String.get k b.
Proof. induction a as [|c a IH]; simpl; [reflexivity | exact IH]. Qed.

Lemma str_get_lt (s : string) (k : nat) (c : ascii) :
  String.get k s = Some c -> k < String.length s.
Proof.
  revert k; induction s as [|d s IH]; simpl; intros k H; [discriminate|].
  destruct k as [|k]; [lia | apply IH in H; lia].
Qed.

Lemma str_get_ge (s : string) (k : nat) :
  String.length s <= k -> String.get k s = None.
Proof.
  revert k; induction s as [|d s IH]; simpl; intros k H; [reflexivity|].
  destruct k as [|k]; [lia | apply IH; lia].
Qed.

Lemma str_app_cons (x : ascii) (a b : string) :
  String x a +:+ b = String x (a +:+ b).
Proof. reflexivity. Qed.

Lemma str_app_nil (b : string) : EmptyString +:+ b = b.
Proof. reflexivity. Qed.

Lemma str_unit_app (d : ascii) (s : string) :
  unit_string d +:+ s = String d s.
Proof. reflexivity. Qed.

Lemma str_app_assoc (a b c : string) : (a +:+ b) +:+ c = a +:+ (b +:+ c).
Proof.
  induction a as [|x a IH]; [reflexivity|].
  now rewrite !str_app_cons, IH.
Qed.

Lemma str_app_empty_r (a : string) : a +:+ EmptyString = a.
Proof.
  induction a as [|x a IH]; [reflexivity|].
  now rewrite str_app_cons, IH.
Qed.

(** ** The tokenizer and the sniffer always return *)

Section Totality.

Variables (startColumn endColumn : option Z) (itemDelimiter : option string).
Variables (columnStr : string) (rowNumber : Z).

Local Abbreviation push' := (push startColumn endColumn rowNumber).
Local Abbreviation quoted' := (quoted columnStr).
Local Abbreviation scan_row' :=
  (scan_row startColumn endColumn itemDelimiter columnStr rowNumber).

(** [push] finds the column it writes to whenever the output-column
    counter has not run ahead of the buffer, and keeps it so. *)
Lemma push_ok (st : scan) :
  RowScan.column st <= length (RowScan.columns st) ->
  exists st', push' st = Ok st'
              /\ RowScan.column st' <= length (RowScan.columns st').
Proof.
  intros Hc. unfold push.
  destruct (JS.gt _ _ || JS.gt _ _).
  - eexists; split; [reflexivity | exact Hc].
  - remember (if length (RowScan.columns st) <? RowScan.column st + 1
              then RowScan.columns st ++ [[]] else RowScan.columns st) as cols
      eqn:Ecols.
    assert (Hlen : RowScan.column st < length cols).
    { subst cols. destruct (Nat.ltb_spec (length (RowScan.columns st))
                              (RowScan.column st + 1)).
      - rewrite length_app; simpl; lia.
      - lia. }
    match goal with
    | |- context [match ?o with _ => _ end] => destruct o as [col|] eqn:Hcol
    end.
    + eexists; split; [reflexivity|].
      simpl. rewrite length_insert. lia.
    + apply lookup_ge_None in Hcol. lia.
Qed.

Lemma quoted_ok (fuel i : nat) (tok : string) :
  0 < fuel ->
  String.length columnStr < fuel + i ->
  exists i' tok', quoted' fuel i tok = Ok (i', tok') /\ i <= i'.
Proof.
  revert i tok; induction fuel as [|fuel IH]; intros i tok H0 Hf; [lia|].
  simpl. destruct (Nat.ltb_spec i (String.length columnStr)).
  - destruct (_ && _ && _).
    + eauto.
    + edestruct (IH (S i)) as (i' & tok' & -> & Hle); [lia | lia |].
      eexists _, _; split; [reflexivity | lia].
  - eauto.
Qed.

Lemma scan_row_ok (fuel i : nat) (st : scan) :
  0 < fuel ->
  String.length columnStr < fuel + i ->
  RowScan.column st <= length (RowScan.columns st) ->
  exists st', scan_row' fuel i st = Ok st'.
Proof.
  revert i st; induction fuel as [|fuel IH]; intros i st H0 Hf Hc; [lia|].
  simpl. destruct (Nat.ltb_spec i (String.length columnStr)).
  - destruct (is_hash _).
    { destruct (push_ok st Hc) as (st' & -> & _); eauto. }
    destruct (is_quote _).
    { destruct (quoted_ok fuel (S i) (RowScan.token st))
        as (i' & tok' & -> & Hle); [lia | lia |].
      apply IH; [lia | lia | exact Hc]. }
    destruct (JS.is_string _ _).
    { destruct (push_ok st Hc) as (st' & -> & Hc').
      apply IH; [lia | lia | exact Hc']. }
    apply IH; [lia | lia | exact Hc].
  - destruct (push_ok st Hc) as (st' & -> & _); eauto.
Qed.

End Totality.

Lemma parseCSVRow_ok startColumn endColumn itemDelimiter columnStr rowNumber
  (cols : Columns) :
  exists cols',
    parseCSVRow startColumn endColumn itemDelimiter columnStr rowNumber cols
    = Ok cols'.
Proof.
  unfold parseCSVRow.
  destruct (_ =? 0); [eauto|].
  destruct (is_hash _); [eauto|].
  edestruct (scan_row_ok startColumn endColumn itemDelimiter columnStr
               rowNumber (S (String.length columnStr)) 0
               (Scan EmptyString 0 0 cols)) as [st' ->];
    [lia | lia | simpl; lia | eauto].
Qed.

Section SnifferTotality.

Variable date_parses : string -> bool.
Variable number_isNaN : string -> bool.
Variable number_isFinite : string -> bool.

Lemma skip_spaces_ok (columnStr : string) (fuel j : nat)
  (cn : option ascii) :
  0 < fuel ->
  String.length columnStr < fuel + j ->
  exists j' cn', skip_spaces columnStr fuel j cn = Ok (j', cn') /\ j <= j'.
Proof.
  revert j cn; induction fuel as [|fuel IH]; intros j cn H0 Hf; [lia|].
  simpl. destruct (JS.is_char " " cn); simpl; [|eauto].
  destruct (Nat.ltb_spec j (String.length columnStr)); [|eauto].
  edestruct (IH (S j)) as (j' & cn' & -> & Hle); [lia | lia |].
  eexists _, _; split; [reflexivity | lia].
Qed.

Lemma sniff_line_ok (columnStr : string) (fuel j : nat) (inStr : bool)
  (tok : string) (g : counters) :
  0 < fuel ->
  String.length columnStr < fuel + j ->
  exists g',
    sniff_line date_parses number_isNaN number_isFinite columnStr
      fuel j inStr tok g = Ok g'.
Proof.
  revert j inStr tok g; induction fuel as [|fuel IH];
    intros j inStr tok g H0 Hf; [lia|].
  cbn [sniff_line].
  destruct (Nat.ltb_spec j (String.length columnStr)); [|eauto].
  destruct (is_hash _); [eauto|].
  destruct (is_quote (JS.charAt columnStr j)).
  - destruct inStr.
    + destruct (negb _ && negb _).
      * destruct (skip_spaces_ok columnStr (S fuel) j
                    (JS.charAt columnStr (S j)))
          as (j' & cn' & -> & Hle); [lia | lia |].
        apply IH; lia.
      * apply IH; lia.
    + apply IH; lia.
  - destruct (pot_has _); apply IH; lia.
Qed.

Lemma sniff_lines_ok (lines : list string) (i : nat) (g : counters) :
  exists g',
    sniff_lines date_parses number_isNaN number_isFinite i lines g = Ok g'.
Proof.
  revert i g; induction lines as [|l lines IH]; intros i g;
    cbn [sniff_lines]; [eauto|].
  destruct (13 <? i); [eauto|].
  destruct (sniff_line_ok l (S (String.length l)) 0 false EmptyString g)
    as [g' ->]; [lia | lia |].
  apply IH.
Qed.

(** The sniffer returns, with the delimiter decided from the counters
    and, when no decimal point is configured, the two fields set. *)
Lemma guessDelimiter_ok (this : Parser) (lines : list string) :
  exists g,
    sniff_lines date_parses number_isNaN number_isFinite 0 lines counters0
    = Ok g
    /\ guessDelimiter date_parses number_isNaN number_isFinite this lines
       = Ok (decide_delimiter (pot g),
             if negb (JS.truthy_string (decimalPoint (options this)))
             then set_decimal
                    (Some (if commas g <? points g then "." else ","))
                    (Some (decimal_pattern (decimalPoint (options this))))
                    this
             else this).
Proof.
  destruct (sniff_lines_ok lines 0 counters0) as [g Hg].
  exists g; split; [exact Hg|].
  unfold guessDelimiter. rewrite Hg.
  destruct (negb _); reflexivity.
Qed.

End SnifferTotality.

(** ** Numbers *)

Lemma index_of_int (z : Z) : JS.index_of (JS.int z) = Some z.
Proof.
  unfold JS.index_of, JS.int. simpl.
  now rewrite Z.mod_1_r, Z.div_1_r.
Qed.

Lemma floor_int (z : Z) : JS.floor (JS.int z) = z.
Proof. unfold JS.floor, JS.int. simpl. now rewrite Z.div_1_r. Qed.

Lemma le_int (a b : Z) : JS.le (JS.int a) (JS.int b) = (a <=? b)%Z.
Proof.
  unfold JS.le, JS.int, QArith_base.Qle_bool. simpl.
  now rewrite !Z.mul_1_r.
Qed.

Lemma truthy_int (z : Z) :
  JS.truthy_number (Some (JS.int z)) = negb (z =? 0)%Z.
Proof.
  unfold JS.truthy_number, JS.int, QArith_base.Qeq_bool. simpl.
  rewrite Z.mul_1_r. reflexivity.
Qed.

(** ** The rows loop and header promotion *)

Lemma clamp_startRow_nonneg (s : option JS.number) (k : Z) :
  JS.index_of (clamp_startRow s) = Some k -> (0 <= k)%Z.
Proof.
  unfold clamp_startRow, JS.lt, JS.le. destruct s as [q|].
  2:{ cbn [JS.truthy_number negb orb]. rewrite index_of_int.
      intros [= <-]. lia. }
  destruct (negb (JS.truthy_number (Some q))); cbn [orb].
  { rewrite index_of_int. intros [= <-]. lia. }
  destruct (QArith_base.Qle_bool (JS.int 0) q) eqn:Hq; cbn [negb].
  2:{ rewrite index_of_int. intros [= <-]. lia. }
  unfold QArith_base.Qle_bool, JS.int in Hq. simpl in Hq.
  apply Z.leb_le in Hq.
  unfold JS.index_of. destruct (_ =? _)%Z; [|discriminate].
  intros [= <-]. apply Z.div_pos; lia.
Qed.

Lemma clamp_endRow_lt (e : option JS.number) (n : nat) :
  (JS.floor (clamp_endRow e n) < Z.of_nat n)%Z.
Proof.
  unfold clamp_endRow, JS.ge, JS.le. destruct e as [q|].
  2:{ cbn [JS.truthy_number negb orb]. rewrite floor_int. lia. }
  destruct (negb (JS.truthy_number (Some q))); cbn [orb].
  { rewrite floor_int. lia. }
  destruct (QArith_base.Qle_bool (JS.int (Z.of_nat n)) q) eqn:Hq.
  { rewrite floor_int. lia. }
  unfold QArith_base.Qle_bool, JS.int in Hq. simpl in Hq.
  apply Z.leb_gt in Hq. unfold JS.floor. destruct q as [a d]. simpl in *.
  apply Z.div_lt_upper_bound; lia.
Qed.

Lemma parse_rows_ok (this : Parser) (lines : list string) (startRow : Z)
  (n : nat) (rowIt offset : Z) (cols : Columns) :
  (0 <= rowIt)%Z ->
  n = 0 \/ (rowIt + Z.of_nat n <= Z.of_nat (length lines))%Z ->
  exists cols',
    parse_rows this lines startRow n rowIt offset cols = Ok cols'.
Proof.
  revert rowIt offset cols; induction n as [|n IH];
    intros rowIt offset cols H0 Hn; simpl; [eauto|].
  destruct Hn as [Hn|Hn]; [discriminate|].
  unfold line_at. destruct (Z.ltb_spec rowIt 0); [lia|].
  destruct (lines !! Z.to_nat rowIt) as [line|] eqn:Hl.
  2:{ apply lookup_ge_None in Hl. lia. }
  destruct (is_hash _).
  - apply IH; lia.
  - destruct (parseCSVRow_ok (startColumn (options this))
                (endColumn (options this)) (row_delimiter this) line
                (rowIt - startRow - offset)%Z cols) as [cols' ->].
    apply IH; lia.
Qed.

Lemma promote_ok (n i : nat) (cols : Columns) (hs : JS.array string) :
  i + n <= length cols -> exists hs', promote n i cols hs = Ok hs'.
Proof.
  revert i hs; induction n as [|n IH]; intros i hs Hn; simpl; [eauto|].
  destruct (cols !! i) as [col|] eqn:Hc.
  - apply IH; lia.
  - apply lookup_ge_None in Hc. lia.
Qed.

(** ** The claims about the sniffer *)

(** C2. Delimiter decision of the sniffer: for every line sequence
    [guessDelimiter] returns, and what it returns is decided by the two
    counters the scan ended with: the semicolon when the semicolon counter
    is strictly above the comma counter, the comma when the comma counter
    is strictly above or equal. The tab has a counter of its own but is
    never the answer (a line of two fields with a tab between them counts
    one tab and gives the comma), and the empty line sequence gives the
    comma. *)
Theorem guessDelimiter_decision
  (date_parses number_isNaN number_isFinite : string -> bool)
  (this : Parser) (lines : list string) :
  (exists g d this',
     sniff_lines date_parses number_isNaN number_isFinite 0 lines counters0
     = Ok g
     /\ guessDelimiter date_parses number_isNaN number_isFinite this lines
        = Ok (d, this')
     /\ (comma (pot g) < semicolon (pot g) -> d = ";")
     /\ (semicolon (pot g) < comma (pot g) -> d = ",")
     /\ (semicolon (pot g) = comma (pot g) -> d = ",")
     /\ d <> unit_string JS.TAB)
  /\ (exists this',
        guessDelimiter date_parses number_isNaN number_isFinite this []
        = Ok (",", this'))
  /\ (exists g this',
        sniff_lines never always never 0
          ["a" +:+ unit_string JS.TAB +:+ "b"] counters0 = Ok g
        /\ pot g = Pot 0 0 1
        /\ guessDelimiter never always never this
             ["a" +:+ unit_string JS.TAB +:+ "b"] = Ok (",", this')).
Proof.
  split; [|split].
  - destruct (guessDelimiter_ok date_parses number_isNaN number_isFinite
                this lines) as (g & Hg & Hd).
    exists g. eexists _, _. split; [exact Hg|]. split; [exact Hd|].
    unfold decide_delimiter.
    destruct (Nat.ltb_spec (comma (pot g)) (semicolon (pot g)));
      destruct (Nat.ltb_spec (semicolon (pot g)) (comma (pot g)));
      repeat split; intros; try lia; try reflexivity; discriminate.
  - destruct (guessDelimiter_ok date_parses number_isNaN number_isFinite
                this []) as (g & Hg & Hd).
    simpl in Hg. injection Hg as <-. eexists. exact Hd.
  - destruct (guessDelimiter_ok never always never this
                ["a" +:+ unit_string JS.TAB +:+ "b"]) as (g & Hg & Hd).
    exists g. eexists. split; [exact Hg|].
    vm_compute in Hg. injection Hg as <-.
    split; [reflexivity | exact Hd].
Qed.

(** An instance made without a decimal point has the period of
    [CSVDataParser.defaultOptions] configured, whatever the defaults of
    [DataParser] are; for such an instance the sniffer leaves the fields
    of the instance as they are. *)
Lemma new_decimalPoint (DataParser_defaultOptions opts : Options) :
  decimalPoint (options (new DataParser_defaultOptions opts))
  = match decimalPoint opts with
    | Some d => Some d
    | None => Some "."
    end.
Proof. simpl. destruct (decimalPoint opts); reflexivity. Qed.

Lemma guessDelimiter_configured
  (date_parses number_isNaN number_isFinite : string -> bool)
  (this : Parser) (lines : list string) :
  JS.truthy_string (decimalPoint (options this)) = true ->
  exists d,
    guessDelimiter date_parses number_isNaN number_isFinite this lines
    = Ok (d, this).
Proof.
  intros Hd.
  destruct (guessDelimiter_ok date_parses number_isNaN number_isFinite
              this lines) as (g & _ & Hr).
  rewrite Hd in Hr. eauto.
Qed.

(** C7. The decimal point with none configured. An instance made without
    a decimal point has the default period as its option, so the sniffer
    guesses nothing, whatever the lines: the instance comes back as it
    was, [guessedDecimalPoint] and [decimalRegex] unset. For the text
    1.5;2.5 the sniffer counts two periods and no comma, and [parse]
    on a fresh instance returns with the two cells and the guessed
    delimiter, and without a guessed decimal point, where the
    specification has the period guessed. *)
Theorem decimal_not_guessed_by_default
  (DataParser_defaultOptions : Options)
  (date_parses number_isNaN number_isFinite : string -> bool)
  (lines : list string) :
  decimalPoint (options (new DataParser_defaultOptions no_options))
  = Some "."
  /\ (exists d,
        guessDelimiter date_parses number_isNaN number_isFinite
          (new DataParser_defaultOptions no_options) lines
        = Ok (d, new DataParser_defaultOptions no_options))
  /\ guessedDecimalPoint (new DataParser_defaultOptions no_options) = None
  /\ sniff_lines never always never 0 ["1.5;2.5"] counters0
     = Ok (Counters (Pot 0 1 0) 2 0)
  /\ parse never always never (call_options "1.5;2.5" None None None)
       (new no_options no_options)
     = Returned
         (MkParser [[Some "1.5"]; [Some "2.5"]] [] (Some ";") None None
            (options (new no_options no_options))).
Proof.
  split; [reflexivity|]. split.
  - apply guessDelimiter_configured. reflexivity.
  - repeat split.
Qed.

(** ** The failures of [parse] *)

Section ParseTotality.

Variable date_parses : string -> bool.
Variable number_isNaN : string -> bool.
Variable number_isFinite : string -> bool.

Local Abbreviation parse' :=
  (parse date_parses number_isNaN number_isFinite).

Lemma sniff_ok (parserOptions : Options) (lines : list string)
  (this : Parser) :
  exists this',
    sniff date_parses number_isNaN number_isFinite parserOptions lines this
    = Ok this'.
Proof.
  unfold sniff. destruct (negb _); [|eauto].
  destruct (guessDelimiter_ok date_parses number_isNaN number_isFinite
              this lines) as (g & _ & ->).
  eauto.
Qed.

Lemma rounds_in_range (s e : Z) (len : nat) :
  (0 <= s)%Z -> (e < Z.of_nat len)%Z ->
  rounds s e = 0 \/ (s + Z.of_nat (rounds s e) <= Z.of_nat len)%Z.
Proof. unfold rounds. lia. Qed.

(** The rows loop with the clamped bounds returns when the start row is
    a whole number, and otherwise fails at most with the TypeError of its
    first round, the buffer untouched. *)
Lemma rows_loop_ok (this : Parser) (lines : list string)
  (s e : option JS.number) (cols : Columns) (k : Z) :
  JS.index_of (clamp_startRow s) = Some k ->
  exists cols',
    rows_loop this lines (clamp_startRow s)
      (clamp_endRow e (length lines)) cols = Ok cols'.
Proof.
  intros Hk. unfold rows_loop. rewrite Hk.
  pose proof (clamp_startRow_nonneg s k Hk).
  apply parse_rows_ok; [assumption|].
  apply rounds_in_range; [assumption | apply clamp_endRow_lt].
Qed.

Lemma rows_loop_fails (this : Parser) (lines : list string)
  (s e : option JS.number) (cols cols' : Columns) (err : failure) :
  rows_loop this lines (clamp_startRow s)
    (clamp_endRow e (length lines)) cols = Fail err cols' ->
  err = TypeError /\ cols' = cols
  /\ JS.index_of (clamp_startRow s) = None
  /\ JS.le (clamp_startRow s) (clamp_endRow e (length lines)) = true.
Proof.
  destruct (JS.index_of (clamp_startRow s)) as [k|] eqn:Hk.
  - destruct (rows_loop_ok this lines s e cols k Hk) as [c ->].
    discriminate.
  - unfold rows_loop. rewrite Hk.
    destruct (JS.le _ _); [|discriminate].
    intros [= <- <-]. repeat split.
Qed.

Lemma sniff_keeps (parserOptions : Options) (lines : list string)
  (this this' : Parser) :
  sniff date_parses number_isNaN number_isFinite parserOptions lines this
  = Ok this' ->
  columns this' = columns this /\ headers this' = headers this
  /\ options this' = options this.
Proof.
  unfold sniff. destruct (negb _); [|now intros [= <-]].
  destruct (guessDelimiter_ok date_parses number_isNaN number_isFinite
              this lines) as (g & _ & ->).
  intros [= <-]. destruct (negb _); repeat split.
Qed.

Lemma parse_csv_ok (parserOptions : Options) (csv' : option string)
  (this : Parser) (k : Z) :
  JS.index_of (clamp_startRow (startRow parserOptions)) = Some k ->
  exists this',
    parse_csv date_parses number_isNaN number_isFinite parserOptions
      csv' this = Ok this'.
Proof.
  intros Hk. unfold parse_csv. destruct csv' as [text|]; [|eauto].
  destruct (JS.truthy_string _); [|eauto].
  edestruct sniff_ok as [this' ->].
  edestruct rows_loop_ok as [cols' ->]; [exact Hk|]. eauto.
Qed.

Lemma parse_csv_fails (parserOptions : Options) (csv' : option string)
  (this this' : Parser) (e : failure) :
  parse_csv date_parses number_isNaN number_isFinite parserOptions
    csv' this = Fail e this' ->
  e = TypeError
  /\ JS.index_of (clamp_startRow (startRow parserOptions)) = None
  /\ JS.truthy_string csv' = true
  /\ columns this' = columns this /\ headers this' = headers this
  /\ options this' = options this.
Proof.
  unfold parse_csv. destruct csv' as [text|]; [|discriminate].
  destruct (JS.truthy_string (Some text)); [|discriminate].
  set (lines := JS.split _ _).
  destruct (sniff_ok parserOptions lines this) as [this1 Hs].
  rewrite Hs. destruct (sniff_keeps _ _ _ _ Hs) as (Hc & Hh & Ho).
  destruct (rows_loop _ _ _ _ _) as [cols|e0 cols] eqn:Hr; [discriminate|].
  destruct (rows_loop_fails _ _ _ _ _ _ _ Hr) as (-> & -> & Hk & _).
  intros [= <- <-]. cbn [set_columns columns headers options].
  repeat split; assumption.
Qed.

Lemma promote_headers_ok (parserOptions : Options) (this : Parser) :
  exists this', promote_headers parserOptions this = Ok this'.
Proof.
  unfold promote_headers. destruct (JS.truthy_bool _); [|eauto].
  edestruct promote_ok as [hs ->]; [|eauto]. simpl; lia.
Qed.

(** A failure that leaves [parse] was raised by the hook, on a text
    that is not empty, and the instance has then only had its buffer
    emptied; or it is the TypeError of the rows loop for a start row that
    is no whole number, and the buffer is empty. *)
Lemma parse_raised (opts : Options) (this : Parser) (e : failure)
  (this' : Parser) :
  parse' opts this = Raised e this' ->
  (exists hook text x,
      beforeParse (merge (options this) opts) = Some hook
      /\ csv (merge (options this) opts) = Some text
      /\ text <> EmptyString
      /\ hook text = Fail e x
      /\ this' = set_columns [] this)
  \/ (e = TypeError
      /\ JS.index_of (clamp_startRow (startRow (merge (options this) opts)))
         = None
      /\ columns this' = [] /\ headers this' = headers this
      /\ options this' = options this).
Proof.
  unfold parse. intros H.
  destruct (run_beforeParse _) as [csv'|e0 c0] eqn:Hrun.
  - right.
    destruct (parse_csv _ _ _ _ _ _) as [this1|e1 this1] eqn:Hcsv.
    + edestruct promote_headers_ok as [this2 ->] in H. discriminate.
    + injection H as -> ->.
      destruct (parse_csv_fails _ _ _ _ _ Hcsv)
        as (-> & Hk & _ & Hc & Hh & Ho).
      repeat split; assumption.
  - left. injection H as -> <-.
    unfold run_beforeParse in Hrun.
    destruct (csv _) as [text|]; [|discriminate].
    destruct (beforeParse _) as [hook|]; [|discriminate].
    destruct text as [|c text]; [discriminate|]. simpl in Hrun.
    destruct (hook (String c text)) as [t|e1 x] eqn:Hh; [discriminate|].
    injection Hrun as -> _.
    exists hook, (String c text), x. repeat split; try assumption.
    discriminate.
Qed.

End ParseTotality.

(** ** Stepping the row scan *)

Section RowSteps.

Variables (startColumn endColumn : option Z) (d : ascii).
Variables (columnStr : string) (rowNumber : Z).

Local Abbreviation push' := (push startColumn endColumn rowNumber).
Local Abbreviation quoted' := (quoted columnStr).
Local Abbreviation scan_row' :=
  (scan_row startColumn endColumn (Some (unit_string d)) columnStr
     rowNumber).

Lemma is_string_unit (c : ascii) :
  JS.is_string (Some (unit_string d)) (Some c) = Ascii.eqb c d.
Proof.
  unfold JS.is_string, unit_string. simpl.
  destruct (Ascii.eqb c d); reflexivity.
Qed.

Lemma plain_step (c : ascii) :
  plain d c = true ->
  is_hash (Some c) = false /\ is_quote (Some c) = false
  /\ JS.is_string (Some (unit_string d)) (Some c) = false.
Proof.
  unfold plain, not_quote, is_hash, is_quote. rewrite is_string_unit.
  simpl. destruct (Ascii.eqb c JS.HASH), (Ascii.eqb c JS.DQUOTE),
    (Ascii.eqb c d); simpl; intros H; try discriminate; auto.
Qed.

Lemma charAt_middle (pre post : string) (c : ascii) :
  JS.charAt (pre +:+ String c post) (String.length pre) = Some c.
Proof.
  unfold JS.charAt.
  rewrite <- (Nat.add_0_r (String.length pre)), str_get_app_r.
  reflexivity.
Qed.

Lemma length_middle (pre post : string) (c : ascii) :
  String.length pre < String.length (pre +:+ String c post).
Proof. rewrite str_length_app. simpl. lia. Qed.

(** A run of plain code units is appended to the token. *)
Lemma scan_row_plain (v : string) :
  forall (pre post : string) (fuel : nat) (st : scan),
    columnStr = pre +:+ v +:+ post ->
    all_chars (plain d) v = true ->
    scan_row' (String.length v + fuel) (String.length pre) st
    = scan_row' fuel (String.length pre + String.length v)
        (Scan (RowScan.token st +:+ v) (actualColumn st) (RowScan.column st)
           (RowScan.columns st)).
Proof.
  induction v as [|c v IH]; intros pre post fuel st Hs Hv.
  - simpl. rewrite Nat.add_0_r, str_app_empty_r. now destruct st.
  - simpl in Hv. apply andb_prop in Hv as [Hc Hv].
    destruct (plain_step c Hc) as (Hh & Hq & Hd).
    cbn [String.length Nat.add scan_row].
    assert (Hlt : String.length pre < String.length columnStr)
      by (rewrite Hs, str_app_cons; apply length_middle).
    apply Nat.ltb_lt in Hlt. rewrite Hlt.
    unfold read.
    assert (Hc0 : JS.charAt columnStr (String.length pre) = Some c)
      by (rewrite Hs, str_app_cons; apply charAt_middle).
    rewrite Hc0, Hh, Hq, Hd.
    specialize (IH (pre +:+ unit_string c) post fuel
                  (Scan (RowScan.token st +:+ JS.to_string (Some c))
                     (actualColumn st) (RowScan.column st)
                     (RowScan.columns st))).
    rewrite str_length_app in IH. simpl in IH.
    rewrite Nat.add_1_r in IH. cbn [JS.to_string]. rewrite IH.
    + f_equal; [lia|]. f_equal.
      now rewrite str_app_assoc.
    + rewrite Hs. unfold unit_string. now rewrite str_app_assoc.
    + exact Hv.
Qed.

(** At the delimiter the token is flushed. *)
Lemma scan_row_delimiter (fuel i : nat) (st : scan) :
  delimiter_unit d = true ->
  JS.charAt columnStr i = Some d ->
  scan_row' (S fuel) i st
  = match push' st with
    | Ok st' => scan_row' fuel (S i) st'
    | Fail e st' => Fail e st'
    end.
Proof.
  intros Hd Hc. cbn [scan_row].
  assert (Hlt : i < String.length columnStr)
    by (eapply str_get_lt; exact Hc).
  apply Nat.ltb_lt in Hlt. rewrite Hlt. unfold read. rewrite Hc.
  unfold delimiter_unit, not_quote in Hd.
  apply andb_prop in Hd as [Hd _]. apply andb_prop in Hd as [Hh Hq].
  rewrite is_string_unit, Ascii.eqb_refl.
  unfold is_hash, is_quote, JS.is_char.
  apply negb_true_iff in Hh, Hq. rewrite Hh, Hq. reflexivity.
Qed.

(** At the hash the token is flushed and the scan is over. *)
Lemma scan_row_hash (fuel i : nat) (st : scan) :
  JS.charAt columnStr i = Some JS.HASH ->
  scan_row' (S fuel) i st = push' st.
Proof.
  intros Hc. cbn [scan_row].
  assert (Hlt : i < String.length columnStr)
    by (eapply str_get_lt; exact Hc).
  apply Nat.ltb_lt in Hlt. rewrite Hlt. unfold read. rewrite Hc.
  reflexivity.
Qed.

(** Past the last code unit the token is flushed. *)
Lemma scan_row_end (fuel i : nat) (st : scan) :
  String.length columnStr <= i ->
  scan_row' (S fuel) i st = push' st.
Proof.
  intros Hi. cbn [scan_row].
  apply Nat.ltb_ge in Hi. rewrite Hi. reflexivity.
Qed.

(** At a quote the quoted sub-scan takes over. *)
Lemma scan_row_quote (fuel i : nat) (st : scan) :
  JS.charAt columnStr i = Some JS.DQUOTE ->
  scan_row' (S fuel) i st
  = match quoted' fuel (S i) (RowScan.token st) with
    | Ok (i', tok) =>
        scan_row' fuel (S i')
          (Scan tok (actualColumn st) (RowScan.column st) (RowScan.columns st))
    | Fail e (_, tok) =>
        Fail e (Scan tok (actualColumn st) (RowScan.column st)
                  (RowScan.columns st))
    end.
Proof.
  intros Hc. cbn [scan_row].
  assert (Hlt : i < String.length columnStr)
    by (eapply str_get_lt; exact Hc).
  apply Nat.ltb_lt in Hlt. rewrite Hlt. unfold read. rewrite Hc.
  reflexivity.
Qed.

(** Inside quotes a run without quotes is appended to the token. *)
Lemma quoted_plain (v : string) :
  forall (pre post : string) (fuel : nat) (tok : string),
    columnStr = pre +:+ v +:+ post ->
    all_chars not_quote v = true ->
    quoted' (String.length v + fuel) (String.length pre) tok
    = quoted' fuel (String.length pre + String.length v) (tok +:+ v).
Proof.
  induction v as [|c v IH]; intros pre post fuel tok Hs Hv.
  - simpl. now rewrite Nat.add_0_r, str_app_empty_r.
  - simpl in Hv. apply andb_prop in Hv as [Hc Hv].
    cbn [String.length Nat.add quoted].
    assert (Hlt : String.length pre < String.length columnStr)
      by (rewrite Hs, str_app_cons; apply length_middle).
    apply Nat.ltb_lt in Hlt. rewrite Hlt.
    unfold read.
    assert (Hc0 : JS.charAt columnStr (String.length pre) = Some c)
      by (rewrite Hs, str_app_cons; apply charAt_middle).
    rewrite Hc0.
    assert (Hq : is_quote (Some c) = false)
      by (unfold is_quote, not_quote in *; simpl;
          now apply negb_true_iff in Hc).
    rewrite Hq. cbn [andb negb orb].
    specialize (IH (pre +:+ unit_string c) post fuel
                  (tok +:+ JS.to_string (Some c))).
    rewrite str_length_app in IH. simpl in IH.
    rewrite Nat.add_1_r in IH. cbn [JS.to_string]. rewrite IH.
    + f_equal; [lia|]. now rewrite str_app_assoc.
    + rewrite Hs. unfold unit_string. now rewrite str_app_assoc.
    + exact Hv.
Qed.

(** A bare quote with no quote on either side closes the field: the
    sub-scan stops at it and leaves the token as it is. *)
Lemma quoted_close (fuel i : nat) (tok : string) :
  JS.charAt columnStr i = Some JS.DQUOTE ->
  is_quote (JS.charBefore columnStr i) = false ->
  is_quote (JS.charAt columnStr (S i)) = false ->
  quoted' (S fuel) i tok = Ok (i, tok).
Proof.
  intros Hc Hl Hn. cbn [quoted].
  assert (Hlt : i < String.length columnStr)
    by (eapply str_get_lt; exact Hc).
  apply Nat.ltb_lt in Hlt. rewrite Hlt. unfold read.
  rewrite Hc, Hl, Hn. reflexivity.
Qed.

(** A doubled quote after a code unit that is not a quote adds one
    quote to the token and the sub-scan goes on behind the pair. *)
Lemma quoted_doubled (fuel i : nat) (tok : string) :
  JS.charAt columnStr i = Some JS.DQUOTE ->
  JS.charAt columnStr (S i) = Some JS.DQUOTE ->
  is_quote (JS.charBefore columnStr i) = false ->
  quoted' (S (S fuel)) i tok = quoted' fuel (S (S i)) (tok +:+ quote).
Proof.
  intros Hc Hn Hl. cbn [quoted].
  assert (Hlt : i < String.length columnStr)
    by (eapply str_get_lt; exact Hc).
  assert (Hlt' : S i < String.length columnStr)
    by (eapply str_get_lt; exact Hn).
  apply Nat.ltb_lt in Hlt, Hlt'. rewrite Hlt, Hlt'. unfold read.
  rewrite Hc, Hn, Hl. cbn [JS.charBefore].
  unfold JS.charAt in Hc. rewrite Hc. reflexivity.
Qed.

End RowSteps.

(** ** Rows that are scanned, and what [push] does with a token *)

Lemma trimEnd_head (h : ascii) (t : string) :
  JS.is_space h = false -> exists t', JS.trimEnd (String h t) = String h t'.
Proof.
  intros Hh. simpl. destruct (JS.trimEnd t); [rewrite Hh|]; eauto.
Qed.


(** A row whose first code unit after the leading white space is not the
    hash goes through the scan. *)
Lemma parseCSVRow_scans startColumn endColumn itemDelimiter
  (columnStr : string) (rowNumber : Z) (cols : Columns) (h : ascii)
  (t : string) :
  JS.trimStart columnStr = String h t ->
  JS.is_space h = false ->
  Ascii.eqb h JS.HASH = false ->
  parseCSVRow startColumn endColumn itemDelimiter columnStr rowNumber cols
  = match scan_row startColumn endColumn itemDelimiter columnStr rowNumber
            (S (String.length columnStr)) 0 (Scan EmptyString 0 0 cols) with
    | Ok st => Ok (RowScan.columns st)
    | Fail e st => Fail e (RowScan.columns st)
    end.
Proof.
  intros Ht Hs Hh. unfold parseCSVRow, JS.trim. rewrite Ht.
  destruct (trimEnd_head h t Hs) as [t' ->]. simpl.
  unfold is_hash. simpl. rewrite Hh. reflexivity.
Qed.

Section PushRules.

Variables (startColumn endColumn : option Z) (rowNumber : Z).

(** Outside the window the token is dropped: nothing is written and
    only the actual-column counter moves. *)
Lemma push_outside (st : scan) :
  in_window startColumn endColumn (actualColumn st) = false ->
  push startColumn endColumn rowNumber st
  = Ok (Scan EmptyString (S (actualColumn st)) (RowScan.column st)
          (RowScan.columns st)).
Proof.
  unfold in_window, push. intros H. apply negb_false_iff in H.
  rewrite H. reflexivity.
Qed.

(** Inside the window the token is written to the output column, which
    is added to the buffer first if it is the next one. *)
Lemma push_inside (st : scan) :
  in_window startColumn endColumn (actualColumn st) = true ->
  push startColumn endColumn rowNumber st
  = let cols :=
      if length (RowScan.columns st) <? RowScan.column st + 1
      then RowScan.columns st ++ [[]]
      else RowScan.columns st in
    match cols !! RowScan.column st with
    | None =>
        Fail TypeError
          (Scan (RowScan.token st) (actualColumn st) (RowScan.column st) cols)
    | Some col =>
        Ok (Scan EmptyString (S (actualColumn st)) (S (RowScan.column st))
              (<[RowScan.column st
                 := JS.arr_set col rowNumber (RowScan.token st)]> cols))
    end.
Proof.
  unfold in_window, push. intros H. apply negb_true_iff in H.
  rewrite H. reflexivity.
Qed.

(** The next output column is new: it is created holding the token
    at the row alone. *)
Lemma push_inside_new (st : scan) :
  in_window startColumn endColumn (actualColumn st) = true ->
  RowScan.column st = length (RowScan.columns st) ->
  push startColumn endColumn rowNumber st
  = Ok (Scan EmptyString (S (actualColumn st)) (S (RowScan.column st))
          (RowScan.columns st ++ [JS.arr_set [] rowNumber (RowScan.token st)])).
Proof.
  intros Hw Hc. rewrite push_inside by exact Hw. cbv zeta.
  assert (Hlt : (length (RowScan.columns st) <? RowScan.column st + 1) = true)
    by (apply Nat.ltb_lt; lia).
  rewrite Hlt, Hc.
  rewrite lookup_app_r by lia. rewrite Nat.sub_diag. simpl.
  rewrite insert_app_r_alt by lia. rewrite Nat.sub_diag. reflexivity.
Qed.

End PushRules.

Lemma charAt_app_r (pre s : string) (k : nat) :
  JS.charAt (pre +:+ s) (String.length pre + k) = JS.charAt s k.
Proof. apply str_get_app_r. Qed.

Lemma charAt_app_l (pre s : string) (k : nat) :
  k < String.length pre -> JS.charAt (pre +:+ s) k = JS.charAt pre k.
Proof. apply str_get_app_l. Qed.

Lemma all_chars_get (P : ascii -> bool) (s : string) (k : nat) (c : ascii) :
  all_chars P s = true -> String.get k s = Some c -> P c = true.
Proof.
  revert k; induction s as [|x s IH]; simpl; intros k Hs Hk;
    [discriminate|].
  apply andb_prop in Hs as [Hx Hs].
  destruct k as [|k]; [now injection Hk as <- | eauto].
Qed.

Lemma all_chars_app (P : ascii -> bool) (a b : string) :
  all_chars P (a +:+ b) = all_chars P a && all_chars P b.
Proof.
  induction a as [|x a IH]; [reflexivity|].
  rewrite str_app_cons. simpl. now rewrite IH, andb_assoc.
Qed.

(** The stepping lemmas with the fuel and the index given by equations,
    as they are used on rows written as concatenations. *)
Section RowStepsAt.

Variables (startColumn endColumn : option Z) (d : ascii).
Variables (columnStr : string) (rowNumber : Z).

Local Abbreviation push' := (push startColumn endColumn rowNumber).
Local Abbreviation quoted' := (quoted columnStr).
Local Abbreviation scan_row' :=
  (scan_row startColumn endColumn (Some (unit_string d)) columnStr
     rowNumber).

Lemma scan_row_plain_at (v pre post : string) (fuel fuel0 i : nat)
  (st : scan) :
  columnStr = pre +:+ v +:+ post ->
  all_chars (plain d) v = true ->
  i = String.length pre ->
  fuel0 = String.length v + fuel ->
  scan_row' fuel0 i st
  = scan_row' fuel (i + String.length v)
      (Scan (RowScan.token st +:+ v) (actualColumn st) (RowScan.column st)
         (RowScan.columns st)).
Proof. intros Hs Hv -> ->. now apply scan_row_plain with (post := post). Qed.

Lemma scan_row_delimiter_at (fuel fuel0 i : nat) (st : scan) :
  delimiter_unit d = true ->
  JS.charAt columnStr i = Some d ->
  fuel0 = S fuel ->
  scan_row' fuel0 i st
  = match push' st with
    | Ok st' => scan_row' fuel (S i) st'
    | Fail e st' => Fail e st'
    end.
Proof. intros Hd Hc ->. now apply scan_row_delimiter. Qed.

Lemma scan_row_hash_at (fuel0 i : nat) (st : scan) :
  JS.charAt columnStr i = Some JS.HASH ->
  0 < fuel0 ->
  scan_row' fuel0 i st = push' st.
Proof.
  intros Hc H0. destruct fuel0; [lia|]. now apply scan_row_hash.
Qed.

Lemma scan_row_end_at (fuel0 i : nat) (st : scan) :
  String.length columnStr <= i ->
  0 < fuel0 ->
  scan_row' fuel0 i st = push' st.
Proof.
  intros Hc H0. destruct fuel0; [lia|]. now apply scan_row_end.
Qed.

Lemma quoted_plain_at (v pre post : string) (fuel fuel0 i : nat)
  (tok : string) :
  columnStr = pre +:+ v +:+ post ->
  all_chars not_quote v = true ->
  i = String.length pre ->
  fuel0 = String.length v + fuel ->
  quoted' fuel0 i tok = quoted' fuel (i + String.length v) (tok +:+ v).
Proof. intros Hs Hv -> ->. now apply quoted_plain with (post := post). Qed.

Lemma quoted_close_at (fuel0 i : nat) (tok : string) :
  JS.charAt columnStr i = Some JS.DQUOTE ->
  is_quote (JS.charBefore columnStr i) = false ->
  is_quote (JS.charAt columnStr (S i)) = false ->
  0 < fuel0 ->
  quoted' fuel0 i tok = Ok (i, tok).
Proof.
  intros Hc Hl Hn H0. destruct fuel0; [lia|]. now apply quoted_close.
Qed.

End RowStepsAt.

(** ** Rows written as concatenations *)


Lemma get_not_quote (s : string) (k : nat) :
  all_chars not_quote s = true -> is_quote (String.get k s) = false.
Proof.
  intros Hs. destruct (String.get k s) as [c|] eqn:Hk; [|reflexivity].
  apply (all_chars_get _ _ _ _ Hs) in Hk. unfold not_quote in Hk.
  unfold is_quote. simpl. now apply negb_true_iff in Hk.
Qed.

(** The code unit in front of what follows a run without quotes that is
    not empty is not a quote. *)
Lemma last_not_quote (pre x rest : string) (i : nat) :
  x <> EmptyString ->
  all_chars not_quote x = true ->
  i = String.length pre + String.length x ->
  is_quote (JS.charBefore (pre +:+ x +:+ rest) i) = false.
Proof.
  intros Hne Hx ->. destruct x as [|x0 x]; [congruence|].
  cbn [String.length]. rewrite Nat.add_succ_r. cbn [JS.charBefore].
  rewrite str_get_app_r, str_get_app_l by (simpl; lia).
  now apply get_not_quote.
Qed.

(** A quoted field followed by a plain one; [x] is the text between the
    quotes, not empty and without quotes, and may hold the delimiter and
    the hash. *)
Lemma quoted_field_row (startColumn endColumn : option Z)
  (x c : string) (r : Z) :
  x <> EmptyString ->
  all_chars not_quote x = true ->
  all_chars (plain ",") c = true ->
  in_window startColumn endColumn 0 = true ->
  in_window startColumn endColumn 1 = true ->
  parseCSVRow startColumn endColumn (Some ",")
    (quote +:+ x +:+ quote +:+ "," +:+ c) r []
  = Ok [JS.arr_set [] r x; JS.arr_set [] r c].
Proof.
  intros Hne Hx Hc H0 H1.
  change (Some ",") with (Some (unit_string ",")).
  change (quote +:+ x +:+ quote +:+ "," +:+ c)
    with (String JS.DQUOTE (x +:+ String JS.DQUOTE (String "," c))).
  rewrite (parseCSVRow_scans _ _ _ _ _ _ JS.DQUOTE
             (x +:+ String JS.DQUOTE (String "," c)));
    [| reflexivity | reflexivity | reflexivity].
  set (line := String JS.DQUOTE (x +:+ String JS.DQUOTE (String "," c))).
  assert (Hlen : String.length line
                 = String.length x + String.length c + 3).
  { subst line. simpl. rewrite !str_length_app. simpl. lia. }
  rewrite scan_row_quote by reflexivity.
  cbn [RowScan.token RowScan.actualColumn RowScan.column RowScan.columns].
  rewrite (quoted_plain_at line x quote (String JS.DQUOTE (String "," c))
             (String.length c + 3));
    [| reflexivity | exact Hx | reflexivity | lia].
  rewrite str_app_nil.
  assert (Hq : JS.charAt line (1 + String.length x) = Some JS.DQUOTE).
  { subst line.
    change (JS.charAt (x +:+ String JS.DQUOTE (String "," c))
              (String.length x) = Some JS.DQUOTE).
    apply charAt_middle. }
  assert (Hd : JS.charAt line (S (1 + String.length x)) = Some ","%char).
  { subst line.
    change (JS.charAt (x +:+ String JS.DQUOTE (String "," c))
              (S (String.length x)) = Some ","%char).
    replace (S (String.length x)) with (String.length x + 1) by lia.
    rewrite (charAt_app_r x). reflexivity. }
  rewrite quoted_close_at; [| exact Hq | | now rewrite Hd | lia].
  2:{ subst line.
      change (String JS.DQUOTE (x +:+ String JS.DQUOTE (String "," c)))
        with (quote +:+ x +:+ String JS.DQUOTE (String "," c)).
      now apply last_not_quote. }
  rewrite (scan_row_delimiter_at _ _ "," line r
             (String.length x + String.length c + 2));
    [| reflexivity | exact Hd | lia].
  rewrite push_inside_new by (try reflexivity; exact H0).
  cbn [RowScan.token RowScan.actualColumn RowScan.column RowScan.columns app].
  rewrite (scan_row_plain_at _ _ "," line r c
             (quote +:+ x +:+ quote +:+ ",") EmptyString
             (String.length x + 2));
    [| subst line; unfold quote; rewrite !str_unit_app, !str_app_cons,
         !str_app_assoc, !str_app_cons, str_app_empty_r; reflexivity
     | exact Hc
     | unfold quote; rewrite !str_length_app; simpl; lia | lia].
  rewrite str_app_nil.
  cbn [RowScan.token RowScan.actualColumn RowScan.column RowScan.columns].
  rewrite scan_row_end_at by lia.
  rewrite push_inside_new by (try reflexivity; exact H1).
  reflexivity.
Qed.

(** A doubled quote between two runs without quotes, none of them empty:
    the cell holds the two runs with one quote between them. *)
Lemma doubled_quote_row (startColumn endColumn : option Z)
  (x y : string) (r : Z) :
  x <> EmptyString -> y <> EmptyString ->
  all_chars not_quote x = true ->
  all_chars not_quote y = true ->
  in_window startColumn endColumn 0 = true ->
  parseCSVRow startColumn endColumn (Some ",")
    (quote +:+ x +:+ quote +:+ quote +:+ y +:+ quote) r []
  = Ok [JS.arr_set [] r (x +:+ quote +:+ y)].
Proof.
  intros Hnx Hny Hx Hy H0.
  change (Some ",") with (Some (unit_string ",")).
  set (line := quote +:+ x +:+ quote +:+ quote +:+ y +:+ quote).
  rewrite (parseCSVRow_scans _ _ _ _ _ _ JS.DQUOTE
             (x +:+ quote +:+ quote +:+ y +:+ quote));
    [| reflexivity | reflexivity | reflexivity].
  assert (Hlen : String.length line
                 = String.length x + String.length y + 4).
  { subst line. unfold quote. rewrite !str_length_app. simpl. lia. }
  assert (Hat : forall k,
             JS.charAt line (1 + String.length x + k)
             = JS.charAt (quote +:+ quote +:+ y +:+ quote) k).
  { intros k. subst line.
    rewrite <- (str_app_assoc quote x).
    replace (1 + String.length x) with (String.length (quote +:+ x))
      by (unfold quote; rewrite str_length_app; reflexivity).
    now rewrite charAt_app_r. }
  rewrite scan_row_quote by reflexivity.
  cbn [RowScan.token RowScan.actualColumn RowScan.column RowScan.columns].
  rewrite (quoted_plain_at line x quote (quote +:+ quote +:+ y +:+ quote)
             (String.length y + 4));
    [| reflexivity | exact Hx | reflexivity | lia].
  rewrite str_app_nil.
  replace (String.length y + 4) with (S (S (String.length y + 2))) by lia.
  rewrite quoted_doubled.
  2:{ rewrite <- (Nat.add_0_r (1 + String.length x)), Hat. reflexivity. }
  2:{ replace (S (1 + String.length x)) with (1 + String.length x + 1)
        by lia. rewrite Hat. reflexivity. }
  2:{ subst line. now apply last_not_quote. }
  rewrite (quoted_plain_at line y (quote +:+ x +:+ quote +:+ quote) quote 2);
    [| subst line; now rewrite !str_app_assoc | exact Hy
     | unfold quote; rewrite !str_length_app; simpl; lia | lia].
  rewrite quoted_close_at; [| | | | lia].
  2:{ subst line.
      rewrite <- (str_app_assoc quote x), <- (str_app_assoc (quote +:+ x)),
        <- (str_app_assoc ((quote +:+ x) +:+ quote)),
        <- (str_app_assoc (((quote +:+ x) +:+ quote) +:+ quote)).
      replace (S (S (1 + String.length x)) + String.length y)
        with (String.length ((((quote +:+ x) +:+ quote) +:+ quote) +:+ y))
        by (unfold quote; rewrite !str_length_app; simpl; lia).
      apply charAt_middle. }
  2:{ subst line.
      rewrite <- (str_app_assoc quote x), <- (str_app_assoc (quote +:+ x)),
        <- (str_app_assoc ((quote +:+ x) +:+ quote)).
      apply last_not_quote; [exact Hny | exact Hy |].
      unfold quote; rewrite !str_length_app; simpl; lia. }
  2:{ unfold JS.charAt. rewrite str_get_ge by lia. reflexivity. }
  rewrite scan_row_end_at by lia.
  rewrite push_inside_new by (try reflexivity; exact H0).
  cbn [RowScan.token RowScan.columns app]. now rewrite str_app_assoc.
Qed.

(** ** Cells away from the row being written *)

Lemma arr_get_set_ne {A} (a : JS.array A) (r r' : Z) (v : A) :
  r' <> r -> JS.arr_get (JS.arr_set a r v) r' = JS.arr_get a r'.
Proof.
  intros Hne. unfold JS.arr_get, JS.arr_set.
  destruct (Z.ltb_spec r 0); [reflexivity|].
  destruct (Z.ltb_spec r' 0); [reflexivity|].
  assert (Hk : Z.to_nat r <> Z.to_nat r') by lia.
  destruct (Nat.ltb_spec (Z.to_nat r) (length a)).
  - now rewrite list_lookup_insert_ne.
  - destruct (Nat.lt_ge_cases (Z.to_nat r') (length a)) as [Hlt|Hge].
    + now rewrite lookup_app_l.
    + rewrite (lookup_ge_None_2 a) by lia.
      rewrite lookup_app_r by lia.
      destruct (Nat.lt_ge_cases (Z.to_nat r') (Z.to_nat r)) as [Hlt|Hge'].
      * rewrite lookup_app_l by (rewrite length_replicate; lia).
        rewrite lookup_replicate_2 by lia. reflexivity.
      * rewrite lookup_app_r by (rewrite length_replicate; lia).
        rewrite length_replicate.
        rewrite lookup_ge_None_2 by (simpl; lia). reflexivity.
Qed.

Lemma arr_get_set_eq {A} (a : JS.array A) (r : Z) (v : A) :
  (0 <= r)%Z -> JS.arr_get (JS.arr_set a r v) r = Some v.
Proof.
  intros Hr. unfold JS.arr_get, JS.arr_set.
  destruct (Z.ltb_spec r 0); [lia|].
  destruct (Nat.ltb_spec (Z.to_nat r) (length a)).
  - now rewrite list_lookup_insert_eq.
  - rewrite lookup_app_r by lia.
    rewrite lookup_app_r by (rewrite length_replicate; lia).
    rewrite length_replicate, Nat.sub_diag. reflexivity.
Qed.

Lemma same_off_row_refl (r : Z) (cols : Columns) : same_off_row r cols cols.
Proof. intros c r' _. reflexivity. Qed.

Lemma same_off_row_trans (r : Z) (c1 c2 c3 : Columns) :
  same_off_row r c1 c2 -> same_off_row r c2 c3 -> same_off_row r c1 c3.
Proof. intros H12 H23 c r' Hne. rewrite H23, H12; auto. Qed.

Lemma cell_new_column (cols : Columns) (c : nat) (r : Z) :
  cell (cols ++ [[]]) c r = cell cols c r.
Proof.
  unfold cell.
  destruct (Nat.lt_ge_cases c (length cols)) as [Hlt|Hge].
  - now rewrite lookup_app_l.
  - rewrite (lookup_ge_None_2 cols) by lia.
    rewrite lookup_app_r by lia.
    destruct (c - length cols) as [|k]; simpl.
    + unfold JS.arr_get. destruct (r <? 0)%Z; [reflexivity|].
      now rewrite lookup_nil.
    + reflexivity.
Qed.

Section Frame.

Variables (startColumn endColumn : option Z) (itemDelimiter : option string).
Variables (columnStr : string) (rowNumber : Z).

Lemma push_frame (st : scan) (res : result scan) :
  push startColumn endColumn rowNumber st = res ->
  same_off_row rowNumber (RowScan.columns st)
    (RowScan.columns match res with Ok st' => st' | Fail _ st' => st' end).
Proof.
  intros <-. unfold push.
  destruct (JS.gt _ _ || JS.gt _ _); [apply same_off_row_refl|].
  remember (if length (RowScan.columns st) <? RowScan.column st + 1
            then RowScan.columns st ++ [[]] else RowScan.columns st) as cols
    eqn:Ecols.
  assert (Hcols : forall c r, cell cols c r = cell (RowScan.columns st) c r).
  { intros c r. subst cols. destruct (_ <? _); [|reflexivity].
    apply cell_new_column. }
  destruct (cols !! RowScan.column st) as [col|] eqn:Hcol;
    cbn [RowScan.columns].
  - intros c r' Hne. rewrite <- Hcols. unfold cell.
    destruct (Nat.eq_dec c (RowScan.column st)) as [->|Hc].
    + rewrite list_lookup_insert_eq by (eapply lookup_lt_Some; eauto).
      rewrite Hcol. now apply arr_get_set_ne.
    + now rewrite list_lookup_insert_ne by congruence.
  - intros c r' _. apply Hcols.
Qed.

Lemma scan_row_frame (fuel i : nat) (st : scan) (res : result scan) :
  scan_row startColumn endColumn itemDelimiter columnStr rowNumber
    fuel i st = res ->
  same_off_row rowNumber (RowScan.columns st)
    (RowScan.columns match res with Ok st' => st' | Fail _ st' => st' end).
Proof.
  revert i st res; induction fuel as [|fuel IH]; intros i st res <-;
    cbn [scan_row]; [apply same_off_row_refl|].
  destruct (_ <? _); [|now apply push_frame].
  unfold read. destruct (is_hash _); [now apply push_frame|].
  destruct (is_quote _).
  { destruct (quoted _ _ _ _) as [[i' tok]|e [i' tok]].
    - exact (IH _ _ _ eq_refl).
    - apply same_off_row_refl. }
  destruct (JS.is_string _ _).
  { pose proof (push_frame st _ eq_refl) as Hp.
    destruct (push _ _ _ st) as [st'|e st']; [|exact Hp].
    eapply same_off_row_trans; [exact Hp | exact (IH _ _ _ eq_refl)]. }
  exact (IH _ _ _ eq_refl).
Qed.

(** [parseCSVRow] changes no cell outside the row it is given. *)
Lemma parseCSVRow_frame (cols cols' : Columns) :
  parseCSVRow startColumn endColumn itemDelimiter columnStr rowNumber cols
  = Ok cols' ->
  same_off_row rowNumber cols cols'.
Proof.
  unfold parseCSVRow.
  destruct (_ =? 0); [intros [= <-]; apply same_off_row_refl|].
  destruct (is_hash _); [intros [= <-]; apply same_off_row_refl|].
  pose proof (scan_row_frame (S (String.length columnStr)) 0
                (Scan EmptyString 0 0 cols) _ eq_refl) as Hf.
  destruct (scan_row _ _ _ _ _ _ _ _) as [st|e st]; [|discriminate].
  intros [= <-]. exact Hf.
Qed.

(** The two fast exits leave the buffer as it is. *)
Lemma parseCSVRow_skips (cols : Columns) :
  blank columnStr || indented_comment columnStr = true ->
  parseCSVRow startColumn endColumn itemDelimiter columnStr rowNumber cols
  = Ok cols.
Proof.
  unfold blank, indented_comment, parseCSVRow. intros H.
  destruct (_ =? 0); [reflexivity|]. simpl in H.
  apply andb_prop in H as [_ ->]. reflexivity.
Qed.

End Frame.

(** ** The rows loop, line by line *)

Section RowsLoop.

Variable this : Parser.

Lemma line_at_middle (pre rest : list string) (l : string) :
  line_at (pre ++ l :: rest) (Z.of_nat (length pre)) = Some l.
Proof.
  unfold line_at. destruct (Z.ltb_spec (Z.of_nat (length pre)) 0); [lia|].
  rewrite Nat2Z.id. now rewrite list_lookup_middle.
Qed.

(** The loop of [parse] over some lines in the middle of a text is
    [rows_from] over those lines. *)
Lemma parse_rows_rows_from (rest : list string) :
  forall (pre post : list string) (startRow rowIt offset : Z)
    (cols : Columns),
    rowIt = Z.of_nat (length pre) ->
    parse_rows this (pre ++ rest ++ post) startRow (length rest) rowIt
      offset cols
    = rows_from this rest (rowIt - startRow - offset)%Z cols.
Proof.
  induction rest as [|l rest IH];
    intros pre post startRow rowIt offset cols ->; [reflexivity|].
  cbn [length parse_rows rows_from app]. rewrite line_at_middle.
  unfold starts_with_hash.
  assert (Hpre : pre ++ l :: rest ++ post = (pre ++ [l]) ++ rest ++ post)
    by now rewrite <- app_assoc.
  assert (Hlen : (Z.of_nat (length pre) + 1)%Z
                 = Z.of_nat (length (pre ++ [l])))
    by (rewrite length_app; simpl; lia).
  destruct (is_hash _).
  - rewrite Hpre, (IH (pre ++ [l])) by exact Hlen.
    f_equal. lia.
  - destruct (parseCSVRow _ _ _ _ _ _) as [cols'|e cols']; [|reflexivity].
    rewrite Hpre, (IH (pre ++ [l])) by exact Hlen.
    f_equal. lia.
Qed.

Lemma tokenize_window_rows_from (above window below : list string) :
  tokenize_window this above window below = rows_from this window 0%Z [].
Proof.
  unfold tokenize_window.
  rewrite (parse_rows_rows_from window above below _ _ 0%Z [] eq_refl).
  f_equal. lia.
Qed.

(** The loop [parse] runs for a start row [s] and an end row [e] inside
    the text is the loop over the window they cut out of the lines. *)
Lemma parse_rows_window (lines : list string) (s e : Z) :
  (0 <= s)%Z -> (e < Z.of_nat (length lines))%Z ->
  parse_rows this lines s (rounds s e) s 0%Z []
  = tokenize_window this (take (Z.to_nat s) lines)
      (take (rounds s e) (drop (Z.to_nat s) lines))
      (drop (rounds s e) (drop (Z.to_nat s) lines)).
Proof.
  intros Hs He. unfold tokenize_window.
  rewrite take_drop, take_drop.
  destruct (Z.le_gt_cases s e) as [Hse|Hse].
  - rewrite length_take, length_take, length_drop.
    replace (Z.to_nat s `min` length lines) with (Z.to_nat s)
      by (unfold rounds in *; lia).
    replace (rounds s e `min` (length lines - Z.to_nat s))
      with (rounds s e) by (unfold rounds in *; lia).
    now rewrite Z2Nat.id by lia.
  - assert (Hr : rounds s e = 0) by (unfold rounds; lia).
    rewrite Hr. reflexivity.
Qed.

Lemma rows_from_app (a b : list string) :
  forall (r : Z) (cols : Columns),
    rows_from this (a ++ b) r cols
    = match rows_from this a r cols with
      | Ok cols' => rows_from this b (r + Z.of_nat (rows_taken a))%Z cols'
      | Fail e cols' => Fail e cols'
      end.
Proof.
  induction a as [|l a IH]; intros r cols.
  - simpl. f_equal. lia.
  - cbn [app rows_from rows_taken]. destruct (starts_with_hash l).
    + rewrite IH. destruct (rows_from _ _ _ _); [|reflexivity].
      f_equal.
    + destruct (parseCSVRow _ _ _ _ _ _) as [cols'|e cols'];
        [|reflexivity].
      rewrite IH. destruct (rows_from _ _ _ _); [|reflexivity].
      f_equal. lia.
Qed.

(** The lines still to come leave the rows above their first row index
    as they are. *)
Lemma rows_from_frame (rest : list string) :
  forall (r : Z) (cols cols' : Columns),
    rows_from this rest r cols = Ok cols' ->
    forall (c : nat) (r' : Z),
      (r' < r)%Z -> cell cols' c r' = cell cols c r'.
Proof.
  induction rest as [|l rest IH]; intros r cols cols' H c r' Hr.
  - now injection H as <-.
  - cbn [rows_from] in H. destruct (starts_with_hash l); [eauto|].
    destruct (parseCSVRow _ _ _ _ _ _) as [cols1|e cols1] eqn:Hrow;
      [|discriminate].
    rewrite (IH _ _ _ H) by lia.
    apply (parseCSVRow_frame _ _ _ _ _ _ _ Hrow). lia.
Qed.

(** The lines gone through fill no row at or beyond the next row
    index. *)
Lemma rows_from_bound (rest : list string) :
  forall (r : Z) (cols cols' : Columns),
    rows_from this rest r cols = Ok cols' ->
    (forall c r', (r <= r')%Z -> cell cols c r' = None) ->
    forall c r',
      (r + Z.of_nat (rows_taken rest) <= r')%Z -> cell cols' c r' = None.
Proof.
  induction rest as [|l rest IH]; intros r cols cols' H Hcols c r' Hr.
  - injection H as <-. apply Hcols. simpl in Hr. lia.
  - cbn [rows_from rows_taken] in H, Hr.
    destruct (starts_with_hash l).
    + eapply IH; [exact H | exact Hcols | simpl in Hr; lia].
    + destruct (parseCSVRow _ _ _ _ _ _) as [cols1|e cols1] eqn:Hrow;
        [|discriminate].
      eapply IH; [exact H | | lia].
      intros c0 r0 Hr0.
      rewrite (parseCSVRow_frame _ _ _ _ _ _ _ Hrow) by lia.
      apply Hcols. lia.
Qed.

Lemma rows_from_ok (rest : list string) (r : Z) (cols : Columns) :
  exists cols', rows_from this rest r cols = Ok cols'.
Proof.
  revert r cols; induction rest as [|l rest IH]; intros r cols;
    cbn [rows_from]; [eauto|].
  destruct (starts_with_hash l); [apply IH|].
  destruct (parseCSVRow_ok (startColumn (options this))
              (endColumn (options this)) (row_delimiter this) l r cols)
    as [cols' ->].
  apply IH.
Qed.

(** A line with the hash at index 0 is as good as absent. *)
Lemma tokenize_window_comment (above before after below : list string)
  (l : string) :
  starts_with_hash l = true ->
  tokenize_window this above (before ++ l :: after) below
  = tokenize_window this above (before ++ after) below.
Proof.
  intros Hl. rewrite !tokenize_window_rows_from, !rows_from_app.
  destruct (rows_from this before 0%Z []); [|reflexivity].
  cbn [rows_from]. now rewrite Hl.
Qed.

(** A line skipped by the tokenizer leaves its row index empty. *)
Lemma tokenize_window_skipped (above before after below : list string)
  (l : string) :
  starts_with_hash l = false ->
  blank l || indented_comment l = true ->
  exists cols,
    tokenize_window this above (before ++ l :: after) below = Ok cols
    /\ forall c, cell cols c (Z.of_nat (rows_taken before)) = None.
Proof.
  intros Hl Hs. rewrite tokenize_window_rows_from, rows_from_app.
  destruct (rows_from_ok before 0%Z []) as [cols1 H1]. rewrite H1.
  cbn [rows_from]. rewrite Hl, parseCSVRow_skips by exact Hs.
  destruct (rows_from_ok after (0 + Z.of_nat (rows_taken before) + 1)%Z
              cols1) as [cols2 H2].
  exists cols2. split; [exact H2|]. intros c.
  rewrite (rows_from_frame _ _ _ _ H2) by lia.
  apply (rows_from_bound _ _ _ _ H1); [|lia].
  intros c0 r0 _. unfold cell. now rewrite lookup_nil.
Qed.

End RowsLoop.

(** ** The row window *)

Lemma clamp_startRow_cases (s : option Z) :
  clamp_startRow (JS.int <$> s)
  = JS.int match s with
           | Some z => if (0 <? z)%Z then z else 0%Z
           | None => 0%Z
           end.
Proof.
  destruct s as [z|]; [|reflexivity].
  cbn [fmap option_fmap option_map]. unfold clamp_startRow, JS.lt.
  rewrite truthy_int, le_int.
  destruct (Z.eqb_spec z 0), (Z.leb_spec 0 z), (Z.ltb_spec 0 z);
    simpl; try reflexivity; lia.
Qed.

(** The end row is kept when it is below the number of lines and not
    zero; zero is taken for absent. *)
Lemma clamp_endRow_cases (e : option Z) (n : nat) :
  clamp_endRow (JS.int <$> e) n
  = JS.int match e with
           | Some k =>
               if (k =? 0)%Z || (Z.of_nat n <=? k)%Z
               then (Z.of_nat n - 1)%Z
               else k
           | None => (Z.of_nat n - 1)%Z
           end.
Proof.
  destruct e as [k|]; [|reflexivity].
  cbn [fmap option_fmap option_map]. unfold clamp_endRow, JS.ge.
  rewrite truthy_int, le_int, negb_involutive.
  destruct (_ || _); reflexivity.
Qed.

(** With no row window the loop runs over the whole text. *)
Lemma rounds_whole_text (this : Parser) (lines : list string)
  (cols : Columns) :
  rows_loop this lines (clamp_startRow None)
    (clamp_endRow None (length lines)) cols
  = parse_rows this lines 0%Z (length lines) 0%Z 0%Z cols.
Proof.
  unfold rows_loop.
  change (clamp_startRow None) with (JS.int 0).
  change (clamp_endRow None (length lines))
    with (JS.int (Z.of_nat (length lines) - 1)).
  rewrite index_of_int, floor_int. unfold rounds. f_equal. lia.
Qed.

(** ** Lines the rows loop passes over *)

Lemma blank_not_hash (l : string) :
  blank l = true -> starts_with_hash l = false.
Proof.
  intros H. destruct l as [|c l]; [reflexivity|].
  unfold starts_with_hash, is_hash. cbn [JS.charAt String.get JS.is_char].
  destruct (Ascii.eqb_spec c JS.HASH) as [->|]; [|reflexivity].
  exfalso. unfold blank, JS.trim in H.
  change (JS.trimStart (String JS.HASH l)) with (String JS.HASH l) in H.
  destruct (trimEnd_head JS.HASH l eq_refl) as [t' Ht].
  rewrite Ht in H. discriminate.
Qed.

Lemma skipped_not_hash (l : string) :
  blank l || indented_comment l = true -> starts_with_hash l = false.
Proof.
  intros H. apply orb_prop in H as [H|H]; [now apply blank_not_hash|].
  unfold indented_comment in H. apply andb_prop in H as [H _].
  now apply negb_true_iff in H.
Qed.

(** ** The hook *)

Lemma parse_hook_fails
  (date_parses number_isNaN number_isFinite : string -> bool)
  (opts : Options) (this : Parser) (hook : string -> result string)
  (text x : string) (e : failure) :
  beforeParse (merge (options this) opts) = Some hook ->
  csv (merge (options this) opts) = Some text ->
  text <> EmptyString ->
  hook text = Fail e x ->
  parse date_parses number_isNaN number_isFinite opts this
  = Raised e (set_columns [] this).
Proof.
  intros Hb Hc Hne Hh. unfold parse, run_beforeParse.
  rewrite Hb, Hc. destruct text as [|c text]; [congruence|].
  simpl. now rewrite Hh.
Qed.

(** ** The claims about the tokenizer *)

(** C1. Quoted fields. The row made of the quoted field a,b and the field
    c gives the two cells a,b and c. A doubled quote inside a quoted field
    is meant to leave one quote in the cell, but the scan tells the halves
    of a pair apart by the code unit in front alone: right behind the
    opening quote the pair leaves nothing (first row below, the quoting of
    the text that is a quote followed by a), and of two pairs in a row only
    one quote is left (second row below). *)
Theorem doubled_quote_lost :
  parseCSVRow (Some 0%Z) (Some 9%Z) (Some ",")
    (quote +:+ "a,b" +:+ quote +:+ ",c") 0%Z []
  = Ok [[Some "a,b"]; [Some "c"]]
  /\ parseCSVRow (Some 0%Z) (Some 9%Z) (Some ",")
       (quote +:+ quote +:+ quote +:+ "a" +:+ quote) 0%Z []
     = Ok [[Some "a"]]
  /\ parseCSVRow (Some 0%Z) (Some 9%Z) (Some ",")
       (quote +:+ "a" +:+ quote +:+ quote +:+ quote +:+ quote +:+ "b"
        +:+ quote) 0%Z []
     = Ok [[Some ("a" +:+ quote +:+ "b")]].
Proof. repeat split; vm_compute; reflexivity. Qed.




(** C9 as stated fails: with the start row one half and no hook at all,
    [parse] ends in the TypeError of the first round of the rows loop,
    where [lines[0.5]] is [undefined]; and an observer that raises ends
    the call as well. *)
Lemma failures_without_hook :
  beforeParse
    (merge (instance_options (Some ","))
       (call_from_row ("a" +:+ LF_string +:+ "b") half))
  = None
  /\ parse never always never
       (call_from_row ("a" +:+ LF_string +:+ "b") half)
       (MkParser [[Some "old"]] [] None None None
          (instance_options (Some ",")))
     = Raised TypeError
         (MkParser [] [] None None None (instance_options (Some ",")))
  /\ parse_observed never always never
       (fun _ => Some (Thrown "observer"))
       (call_options "a" None None None)
       (MkParser [[Some "old"]] [] None None None
          (instance_options (Some ",")))
     = Raised (Thrown "observer")
         (MkParser [] [] None None None (instance_options (Some ","))).
Proof. repeat split. Qed.

(** C9, amended. The row tokenizer returns on every line, buffer and
    configuration, and the sniffer on every sequence of lines. With a
    start row that, once clamped, is a whole number (an absent, zero or
    negative start row among them), a failure that leaves [parse] is one
    of three: the one an observer of the notification [parse] raised,
    the instance changed only by the emptied buffer; the one the
    [beforeParse] hook raised on a text that is not empty, [parse] ending
    there with the instance changed only by the emptied buffer, no line
    split, sniffed or tokenized; or the one an observer of [afterParse]
    raised, after [parse] did all its work. And when the hook raises,
    [parse] does fail with what the hook raised. *)
Theorem failures_of_parse
  (date_parses number_isNaN number_isFinite : string -> bool) :
  (forall startColumn endColumn itemDelimiter columnStr rowNumber cols,
      exists cols',
        parseCSVRow startColumn endColumn itemDelimiter columnStr
          rowNumber cols = Ok cols')
  /\ (forall this lines,
         exists guessed this',
           guessDelimiter date_parses number_isNaN number_isFinite
             this lines = Ok (guessed, this'))
  /\ (forall observers opts this e this' k,
         JS.index_of
           (clamp_startRow (startRow (merge (options this) opts)))
         = Some k ->
         parse_observed date_parses number_isNaN number_isFinite
           observers opts this = Raised e this' ->
         (observers (MkEvent "parse" [] (headers this)) = Some e
          /\ this' = set_columns [] this)
         \/ (exists hook text x,
                beforeParse (merge (options this) opts) = Some hook
                /\ csv (merge (options this) opts) = Some text
                /\ text <> EmptyString
                /\ hook text = Fail e x
                /\ this' = set_columns [] this)
         \/ (parse date_parses number_isNaN number_isFinite opts this
             = Returned this'
             /\ observers
                  (MkEvent "afterParse" (columns this') (headers this'))
                = Some e))
  /\ (forall observers opts this hook text x e,
         observers (MkEvent "parse" [] (headers this)) = None ->
         beforeParse (merge (options this) opts) = Some hook ->
         csv (merge (options this) opts) = Some text ->
         text <> EmptyString ->
         hook text = Fail e x ->
         parse_observed date_parses number_isNaN number_isFinite
           observers opts this
         = Raised e (set_columns [] this)).
Proof.
  split; [|split; [|split]].
  - intros. apply parseCSVRow_ok.
  - intros this lines.
    destruct (guessDelimiter_ok date_parses number_isNaN number_isFinite
                this lines) as (g & _ & H).
    eauto.
  - intros observers opts this e this' k Hk H.
    unfold parse_observed in H.
    destruct (observers (MkEvent "parse" [] (headers this))) as [e0|]
      eqn:H0.
    { injection H as <- <-. now left. }
    destruct (parse _ _ _ opts this) as [t|e1 t] eqn:Hp.
    + destruct (observers (MkEvent "afterParse" _ _)) as [e1|] eqn:H1;
        [|discriminate].
      injection H as <- <-. right; right. now split.
    + injection H as <- <-.
      destruct (parse_raised _ _ _ _ _ _ _ Hp)
        as [Hh | (_ & Hn & _)].
      * right; left. exact Hh.
      * rewrite Hk in Hn. discriminate.
  - intros observers opts this hook text x e H0 Hh Hc Ht He.
    unfold parse_observed. rewrite H0.
    now rewrite (parse_hook_fails _ _ _ _ _ _ _ _ _ Hh Hc Ht He).
Qed.

Lemma failures_of_parse_witness :
  (quiet (MkEvent "parse" []
            (headers (MkParser [[Some "old"]] [] None None None
                        (instance_options None))))
   = Some (Thrown "boom")
   /\ MkParser [] [] None None None (instance_options None)
      = set_columns []
          (MkParser [[Some "old"]] [] None None None
             (instance_options None)))
  \/ (exists hook text x,
         beforeParse
           (merge (instance_options None) (failing_call "a,b" "boom"))
         = Some hook
         /\ csv (merge (instance_options None) (failing_call "a,b" "boom"))
            = Some text
         /\ text <> EmptyString
         /\ hook text = Fail (Thrown "boom") x
         /\ MkParser [] [] None None None (instance_options None)
            = set_columns []
                (MkParser [[Some "old"]] [] None None None
                   (instance_options None)))
  \/ (parse never always never (failing_call "a,b" "boom")
        (MkParser [[Some "old"]] [] None None None (instance_options None))
      = Returned (MkParser [] [] None None None (instance_options None))
      /\ quiet
           (MkEvent "afterParse"
              (columns (MkParser [] [] None None None
                          (instance_options None)))
              (headers (MkParser [] [] None None None
                          (instance_options None))))
         = Some (Thrown "boom")).
Proof.
  exact (proj1 (proj2 (proj2 (failures_of_parse never always never)))
           quiet (failing_call "a,b" "boom")
           (MkParser [[Some "old"]] [] None None None
              (instance_options None))
           (Thrown "boom")
           (MkParser [] [] None None None (instance_options None))
           0%Z eq_refl eq_refl).
Defined.

(** C10. Comment lines and blank lines in the rows loop. A line with the
    hash at index 0 only adds one to the offset, so the next line gets the
    row index the comment would have had, and for every row window the
    buffer comes out as if the line were not in the text. A line that is
    blank, or whose first code unit after leading white space is the
    hash, leaves the buffer and the offset alone, so the next line gets
    the row index after it, and in the buffer that comes out its own row
    index is unset in every column. *)
Theorem comment_and_blank_lines (this : Parser) :
  (forall lines startRow n rowIt offset cols l,
      line_at lines rowIt = Some l ->
      starts_with_hash l = true ->
      parse_rows this lines startRow (S n) rowIt offset cols
      = parse_rows this lines startRow n (rowIt + 1)%Z (offset + 1)%Z cols)
  /\ (forall lines startRow n rowIt offset cols l,
         line_at lines rowIt = Some l ->
         blank l || indented_comment l = true ->
         parse_rows this lines startRow (S n) rowIt offset cols
         = parse_rows this lines startRow n (rowIt + 1)%Z offset cols)
  /\ (forall above before after below l,
         starts_with_hash l = true ->
         tokenize_window this above (before ++ l :: after) below
         = tokenize_window this above (before ++ after) below)
  /\ (forall above before after below l,
         blank l || indented_comment l = true ->
         exists cols,
           tokenize_window this above (before ++ l :: after) below = Ok cols
           /\ forall c, cell cols c (Z.of_nat (rows_taken before)) = None).
Proof.
  split; [|split; [|split]].
  - intros lines startRow n rowIt offset cols l Hl Hh.
    cbn [parse_rows]. rewrite Hl.
    unfold starts_with_hash in Hh. now rewrite Hh.
  - intros lines startRow n rowIt offset cols l Hl Hs.
    cbn [parse_rows]. rewrite Hl.
    pose proof (skipped_not_hash l Hs) as Hh.
    unfold starts_with_hash in Hh. rewrite Hh.
    now rewrite parseCSVRow_skips.
  - intros. now apply tokenize_window_comment.
  - intros above before after below l Hs.
    apply tokenize_window_skipped; [now apply skipped_not_hash | exact Hs].
Qed.

(** The two kinds of lines in a text of four lines with the row window
    from line 1 on: the comment closes the gap, the indented comment
    leaves row 1 unset. *)
Lemma comment_and_blank_lines_witness :
  tokenize_window
    (MkParser [] [] None None None (instance_options (Some ",")))
    ["head"] (["a"] ++ "#x" :: ["b"]) []
  = Ok [[Some "a"; Some "b"]]
  /\ exists cols,
       tokenize_window
         (MkParser [] [] None None None (instance_options (Some ",")))
         ["head"] (["a"; "#x"] ++ " #y" :: ["b"]) [] = Ok cols
       /\ forall c, cell cols c 1%Z = None.
Proof.
  pose proof (comment_and_blank_lines
                (MkParser [] [] None None None
                   (instance_options (Some ",")))) as (_ & _ & Hc & Hb).
  split.
  - rewrite (Hc ["head"] ["a"] ["b"] [] "#x" eq_refl). reflexivity.
  - exact (Hb ["head"] ["a"; "#x"] ["b"] [] " #y" eq_refl).
Defined.

(** ** The claims about [parse] *)

(** C4. The row window. The end row 0 is in range for a text of two
    lines, yet it is taken for an absent one: the end row becomes the last
    line index 1 and both lines are tokenized, where the specification
    has line 0 alone. *)
Theorem endRow_zero_is_replaced
  (date_parses number_isNaN number_isFinite : string -> bool)
  (cols : Columns) (hs : JS.array string) (gd gdp re : option string) :
  clamp_endRow (Some (JS.int 0)) 2 = JS.int 1
  /\ parse date_parses number_isNaN number_isFinite
       (call_options ("a" +:+ LF_string +:+ "b") (Some 0%Z) None None)
       (MkParser cols hs gd gdp re (instance_options (Some ",")))
     = Returned
         (MkParser [[Some "a"; Some "b"]] hs gd gdp re
            (instance_options (Some ","))).
Proof. split; reflexivity. Qed.

(** C5. The item delimiter given to [parse]. Sniffing is skipped, but
    the tokenizer reads the delimiter from the options of the instance:
    with none there the row a;b stays one cell, and with the comma there
    the row a;b,c is split at the comma, where the specification has both
    rows split at the semicolon given in the call. *)
Theorem call_delimiter_not_used
  (date_parses number_isNaN number_isFinite : string -> bool)
  (cols : Columns) (hs : JS.array string) (gdp re : option string) :
  parse date_parses number_isNaN number_isFinite
    (call_options "a;b" None (Some ";") None)
    (MkParser cols hs None gdp re (instance_options None))
  = Returned (MkParser [[Some "a;b"]] hs None gdp re (instance_options None))
  /\ parse date_parses number_isNaN number_isFinite
       (call_options "a;b,c" None (Some ";") None)
       (MkParser cols hs None gdp re (instance_options (Some ",")))
     = Returned
         (MkParser [[Some "a;b"]; [Some "c"]] hs None gdp re
            (instance_options (Some ","))).
Proof. split; reflexivity. Qed.

(** C6. Two calls of [parse] on one instance. The buffer of the second
    call holds the cells of the second text only, but the header list is
    not emptied: after the texts a,b and x, both with header promotion,
    the second header is still the b of the first call. *)
Theorem headers_carried_over
  (date_parses number_isNaN number_isFinite : string -> bool) :
  exists this1 this2,
    parse date_parses number_isNaN number_isFinite
      (call_options "a,b" None None (Some true))
      (MkParser [] [] None None None (instance_options (Some ",")))
    = Returned this1
    /\ headers this1 = [Some "a"; Some "b"]
    /\ parse date_parses number_isNaN number_isFinite
         (call_options "x" None None (Some true)) this1
       = Returned this2
    /\ columns this2 = [[Some "x"]]
    /\ headers this2 = [Some "x"; Some "b"].
Proof. eexists _, _. repeat split. Qed.

(** The buffer itself is emptied by every call: what a call returns does
    not depend on the buffer the instance held before. *)
Lemma parse_forgets_columns
  (date_parses number_isNaN number_isFinite : string -> bool)
  (opts : Options) (this : Parser) (cols : Columns) :
  parse date_parses number_isNaN number_isFinite opts (set_columns cols this)
  = parse date_parses number_isNaN number_isFinite opts this.
Proof. reflexivity. Qed.

(** The witness of C2: two lines of fields between semicolons. *)
Lemma guessDelimiter_decision_witness :
  exists this',
    guessDelimiter never always never
      (MkParser [] [] None None None (instance_options None))
      ["a;b;c"; "a;b;c"]
    = Ok (";", this').
Proof.
  destruct (guessDelimiter_decision never always never
              (MkParser [] [] None None None (instance_options None))
              ["a;b;c"; "a;b;c"])
    as [(g & d & this' & Hg & Hd & Hsemi & _) _].
  exists this'. rewrite Hd.
  vm_compute in Hg. injection Hg as <-.
  rewrite Hsemi; [reflexivity | simpl; lia].
Defined.

(** * Further properties *)

(** ** Rows of fields *)

Lemma put_length (cols : Columns) (k : nat) (r : Z) (tok : string) :
  k <= length cols -> length (put cols k r tok) = length cols `max` (k + 1).
Proof.
  intros Hk. unfold put.
  destruct (Nat.ltb_spec (length cols) (k + 1)).
  - rewrite lookup_app_r by lia.
    replace (k - length cols) with 0 by lia. simpl.
    rewrite length_insert, length_app. simpl. lia.
  - destruct (lookup_lt_is_Some_2 cols k ltac:(lia)) as [col ->].
    rewrite length_insert. lia.
Qed.

Lemma put_cell_eq (cols : Columns) (k : nat) (r : Z) (tok : string) :
  k <= length cols -> (0 <= r)%Z -> cell (put cols k r tok) k r = Some tok.
Proof.
  intros Hk Hr. unfold put, cell.
  destruct (Nat.ltb_spec (length cols) (k + 1)).
  - rewrite lookup_app_r by lia.
    replace (k - length cols) with 0 by lia. simpl.
    rewrite list_lookup_insert_eq by (rewrite length_app; simpl; lia).
    now apply arr_get_set_eq.
  - destruct (lookup_lt_is_Some_2 cols k ltac:(lia)) as [col Hc].
    rewrite Hc, list_lookup_insert_eq by lia.
    now apply arr_get_set_eq.
Qed.

Lemma put_cell_ne (cols : Columns) (k : nat) (r : Z) (tok : string)
  (c : nat) (r' : Z) :
  c <> k \/ r' <> r -> cell (put cols k r tok) c r' = cell cols c r'.
Proof.
  intros Hne. unfold put.
  remember (if length cols <? k + 1 then cols ++ [[]] else cols) as cols0
    eqn:E.
  assert (H0 : cell cols0 c r' = cell cols c r').
  { subst cols0. destruct (_ <? _); [apply cell_new_column | reflexivity]. }
  destruct (cols0 !! k) as [col|] eqn:Hc; [|exact H0].
  rewrite <- H0. unfold cell.
  destruct (Nat.eq_dec c k) as [->|Hck].
  - rewrite list_lookup_insert_eq by (eapply lookup_lt_Some; eauto).
    rewrite Hc. apply arr_get_set_ne. tauto.
  - now rewrite list_lookup_insert_ne by congruence.
Qed.

Lemma put_fields_length (fields : list string) :
  forall (cols : Columns) (k : nat) (r : Z),
    k <= length cols ->
    length (put_fields cols k r fields)
    = length cols `max` (k + length fields).
Proof.
  induction fields as [|f fields IH]; intros cols k r Hk; simpl; [lia|].
  rewrite IH by (rewrite put_length; lia).
  rewrite put_length by lia. lia.
Qed.

Lemma put_fields_cell_off (fields : list string) :
  forall (cols : Columns) (k : nat) (r : Z) (c : nat) (r' : Z),
    r' <> r \/ c < k \/ k + length fields <= c ->
    cell (put_fields cols k r fields) c r' = cell cols c r'.
Proof.
  induction fields as [|f fields IH]; intros cols k r c r' H; simpl;
    [reflexivity|].
  rewrite IH by (simpl in H; lia).
  apply put_cell_ne. simpl in H. lia.
Qed.

Lemma put_fields_cell (fields : list string) :
  forall (cols : Columns) (k : nat) (r : Z) (j : nat) (f : string),
    k <= length cols -> (0 <= r)%Z ->
    fields !! j = Some f ->
    cell (put_fields cols k r fields) (k + j) r = Some f.
Proof.
  induction fields as [|f0 fields IH]; intros cols k r j f Hk Hr Hj;
    [discriminate|].
  simpl. destruct j as [|j]; simpl in Hj.
  - injection Hj as ->. rewrite Nat.add_0_r.
    rewrite put_fields_cell_off by lia. now apply put_cell_eq.
  - replace (k + S j) with (S k + j) by lia.
    apply IH; [rewrite put_length; lia | exact Hr | exact Hj].
Qed.

Lemma join_with_cons (sep p : string) (rest : list string) :
  rest <> [] -> join_with sep (p :: rest) = p +:+ sep +:+ join_with sep rest.
Proof. destruct rest; [congruence | reflexivity]. Qed.

Lemma head_is (s : string) (c : ascii) (t : string) :
  s = String c t -> String.get 0 s = Some c.
Proof. now intros ->. Qed.

Section Runs.

Variables (startColumn endColumn : option Z) (d : ascii).
Variables (columnStr : string) (rowNumber : Z).

Local Abbreviation push' := (push startColumn endColumn rowNumber).
Local Abbreviation runs' :=
  (runs startColumn endColumn (Some (unit_string d)) columnStr rowNumber).
Local Abbreviation qruns' := (quoted_runs columnStr).

Lemma push_inside_put (st : scan) :
  in_window startColumn endColumn (actualColumn st) = true ->
  RowScan.column st <= length (RowScan.columns st) ->
  push' st
  = Ok (Scan EmptyString (S (actualColumn st)) (S (RowScan.column st))
          (put (RowScan.columns st) (RowScan.column st) rowNumber
             (RowScan.token st))).
Proof.
  intros Hw Hc. rewrite push_inside by exact Hw. cbv zeta. unfold put.
  remember (if length (RowScan.columns st) <? RowScan.column st + 1
            then RowScan.columns st ++ [[]] else RowScan.columns st)
    as cols0 eqn:E.
  assert (Hlt : RowScan.column st < length cols0).
  { subst cols0. destruct (Nat.ltb_spec (length (RowScan.columns st))
                             (RowScan.column st + 1));
      [rewrite length_app; simpl; lia | lia]. }
  destruct (lookup_lt_is_Some_2 cols0 _ Hlt) as [col Hcol].
  now rewrite Hcol.
Qed.

Lemma split_length (pre v post : string) :
  columnStr = pre +:+ v +:+ post ->
  String.length columnStr
  = String.length pre + String.length v + String.length post.
Proof. intros ->. rewrite !str_length_app. lia. Qed.

Lemma charAt_split (pre post : string) (c : ascii) :
  columnStr = pre +:+ String c post ->
  JS.charAt columnStr (String.length pre) = Some c.
Proof. intros ->. apply charAt_middle. Qed.

Lemma charAt_next (pre post : string) :
  columnStr = pre +:+ post ->
  JS.charAt columnStr (String.length pre) = String.get 0 post.
Proof.
  intros ->. rewrite <- (Nat.add_0_r (String.length pre)).
  apply charAt_app_r.
Qed.

Lemma runs_plain (v pre post : string) (st st' : scan) :
  columnStr = pre +:+ v +:+ post ->
  all_chars (plain d) v = true ->
  runs' (String.length (pre +:+ v))
    (Scan (RowScan.token st +:+ v) (actualColumn st) (RowScan.column st)
       (RowScan.columns st)) st' ->
  runs' (String.length pre) st st'.
Proof.
  intros Hs Hv H fuel H0 Hf.
  pose proof (split_length _ _ _ Hs) as Hl.
  rewrite (scan_row_plain_at _ _ d columnStr rowNumber v pre post
             (fuel - String.length v));
    [| exact Hs | exact Hv | reflexivity | lia].
  rewrite <- str_length_app. apply H; rewrite ?str_length_app; lia.
Qed.

Lemma runs_delimiter (pre post : string) (st st1 st' : scan) :
  delimiter_char d = true ->
  columnStr = pre +:+ String d post ->
  push' st = Ok st1 ->
  runs' (String.length (pre +:+ unit_string d)) st1 st' ->
  runs' (String.length pre) st st'.
Proof.
  intros Hd Hs Hp H fuel H0 Hf.
  destruct fuel as [|fuel]; [lia|].
  cbn [scan_row].
  assert (Hc : JS.charAt columnStr (String.length pre) = Some d)
    by now apply (charAt_split pre post).
  assert (Hlt : String.length pre < String.length columnStr)
    by (eapply str_get_lt; exact Hc).
  pose proof Hlt as Hlt'. apply Nat.ltb_lt in Hlt'. rewrite Hlt'.
  unfold read. rewrite Hc.
  unfold delimiter_char, not_quote in Hd.
  apply andb_prop in Hd as [Hh Hq].
  rewrite is_string_unit, Ascii.eqb_refl.
  unfold is_hash, is_quote, JS.is_char.
  apply negb_true_iff in Hh, Hq. rewrite Hh, Hq, Hp.
  replace (S (String.length pre))
    with (String.length (pre +:+ unit_string d))
    by (rewrite str_length_app; simpl; lia).
  apply H; [lia | rewrite str_length_app; simpl; lia].
Qed.

Lemma runs_tail (pre tail : string) (st st' : scan) :
  row_tail tail = true ->
  columnStr = pre +:+ tail ->
  push' st = Ok st' ->
  runs' (String.length pre) st st'.
Proof.
  intros Ht Hs Hp fuel H0 Hf. destruct tail as [|c tail].
  - rewrite scan_row_end_at; [exact Hp | | exact H0].
    rewrite Hs, str_app_empty_r. lia.
  - simpl in Ht. apply Ascii.eqb_eq in Ht. subst c.
    rewrite scan_row_hash_at; [exact Hp | | exact H0].
    now apply (charAt_split pre tail).
Qed.

Lemma qruns_plain (v pre post tok : string) (res : nat * string) :
  columnStr = pre +:+ v +:+ post ->
  all_chars not_quote v = true ->
  qruns' (String.length (pre +:+ v)) (tok +:+ v) res ->
  qruns' (String.length pre) tok res.
Proof.
  intros Hs Hv H fuel H0 Hf.
  pose proof (split_length _ _ _ Hs) as Hl.
  rewrite (quoted_plain_at columnStr v pre post (fuel - String.length v));
    [| exact Hs | exact Hv | reflexivity | lia].
  rewrite <- str_length_app. apply H; rewrite ?str_length_app; lia.
Qed.

Lemma qruns_doubled (x pre post tok : string) (res : nat * string) :
  segment_ok x = true ->
  columnStr = pre +:+ x +:+ (quote +:+ quote) +:+ post ->
  qruns' (String.length (pre +:+ x +:+ quote +:+ quote))
    (tok +:+ quote) res ->
  qruns' (String.length (pre +:+ x)) tok res.
Proof.
  intros Hx Hs H fuel H0 Hf.
  unfold segment_ok in Hx. apply andb_prop in Hx as [Hne Hx].
  apply negb_true_iff, String.eqb_neq in Hne.
  assert (Hl : String.length columnStr
               = String.length pre + String.length x + 2
                 + String.length post)
    by (rewrite Hs, !str_length_app; simpl; lia).
  rewrite str_length_app in Hf.
  destruct fuel as [|[|fuel]]; [lia | lia |].
  rewrite quoted_doubled.
  - replace (S (S (String.length (pre +:+ x))))
      with (String.length (pre +:+ x +:+ quote +:+ quote))
      by (rewrite !str_length_app; simpl; lia).
    apply H; [lia | rewrite !str_length_app; simpl; lia].
  - apply (charAt_split (pre +:+ x) (quote +:+ post)).
    rewrite Hs, !str_app_assoc. reflexivity.
  - replace (S (String.length (pre +:+ x)))
      with (String.length ((pre +:+ x) +:+ quote))
      by (rewrite !str_length_app; simpl; lia).
    apply (charAt_split ((pre +:+ x) +:+ quote) post).
    rewrite Hs, !str_app_assoc. reflexivity.
  - rewrite Hs. apply last_not_quote; [exact Hne | exact Hx |].
    apply str_length_app.
Qed.

Lemma qruns_close (x pre post tok : string) :
  segment_ok x = true ->
  columnStr = pre +:+ x +:+ quote +:+ post ->
  no_quote_next post = true ->
  qruns' (String.length (pre +:+ x)) tok (String.length (pre +:+ x), tok).
Proof.
  intros Hx Hs Hn fuel H0 Hf.
  unfold segment_ok in Hx. apply andb_prop in Hx as [Hne Hx].
  apply negb_true_iff, String.eqb_neq in Hne.
  apply quoted_close_at; [| | | exact H0].
  - apply (charAt_split (pre +:+ x) post).
    rewrite Hs, !str_app_assoc. reflexivity.
  - rewrite Hs. apply last_not_quote; [exact Hne | exact Hx |].
    apply str_length_app.
  - replace (S (String.length (pre +:+ x)))
      with (String.length ((pre +:+ x) +:+ quote))
      by (rewrite !str_length_app; simpl; lia).
    rewrite (charAt_next ((pre +:+ x) +:+ quote) post)
      by (rewrite Hs, !str_app_assoc; reflexivity).
    unfold no_quote_next in Hn. now apply negb_true_iff in Hn.
Qed.

(** The segments of a quoted field, up to the closing quote. *)
Lemma qruns_segments (segs : list string) :
  forall (pre post tok : string),
    segs <> [] ->
    forallb segment_ok segs = true ->
    columnStr
    = pre +:+ join_with (quote +:+ quote) segs +:+ quote +:+ post ->
    no_quote_next post = true ->
    qruns' (String.length pre) tok
      (String.length (pre +:+ join_with (quote +:+ quote) segs),
       tok +:+ join_with quote segs).
Proof.
  induction segs as [|x segs IH]; intros pre post tok Hne Hok Hs Hn;
    [congruence|].
  simpl in Hok. apply andb_prop in Hok as [Hx Hok].
  pose proof Hx as Hx'. unfold segment_ok in Hx'.
  apply andb_prop in Hx' as [_ Hxq].
  destruct segs as [|x2 segs].
  - simpl in *.
    apply (qruns_plain x pre (quote +:+ post)); [exact Hs | exact Hxq |].
    now apply (qruns_close x pre post).
  - rewrite join_with_cons in Hs by discriminate.
    rewrite !(join_with_cons _ x) by discriminate.
    set (more := join_with (quote +:+ quote) (x2 :: segs)) in *.
    apply (qruns_plain x pre
             ((quote +:+ quote) +:+ more +:+ quote +:+ post));
      [rewrite Hs; now rewrite !str_app_assoc | exact Hxq |].
    apply (qruns_doubled x pre (more +:+ quote +:+ post));
      [exact Hx | rewrite Hs; now rewrite !str_app_assoc |].
    specialize (IH (pre +:+ x +:+ quote +:+ quote) post
                  ((tok +:+ x) +:+ quote) ltac:(discriminate) Hok).
    fold more in IH.
    replace (pre +:+ x +:+ (quote +:+ quote) +:+ more)
      with ((pre +:+ x +:+ quote +:+ quote) +:+ more)
      by now rewrite !str_app_assoc.
    replace (tok +:+ x +:+ quote +:+ join_with quote (x2 :: segs))
      with (((tok +:+ x) +:+ quote) +:+ join_with quote (x2 :: segs))
      by now rewrite !str_app_assoc.
    apply IH; [|exact Hn].
    rewrite Hs. now rewrite !str_app_assoc.
Qed.

End Runs.

Section RunsFields.

Variables (startColumn endColumn : option Z) (d : ascii).
Variables (columnStr : string) (rowNumber : Z).
Hypothesis Hd : delimiter_char d = true.

Local Abbreviation push' := (push startColumn endColumn rowNumber).
Local Abbreviation runs' :=
  (runs startColumn endColumn (Some (unit_string d)) columnStr rowNumber).

(** A quote in the row scan: the quoted sub-scan it starts, given by its
    result, then the scan behind the closing quote. *)
Lemma runs_quote (pre post : string) (i' : nat) (tok : string)
  (st st' : scan) :
  columnStr = pre +:+ String JS.DQUOTE post ->
  quoted_runs columnStr (String.length (pre +:+ quote)) (RowScan.token st)
    (i', tok) ->
  String.length (pre +:+ quote) <= i' ->
  runs' (S i')
    (Scan tok (actualColumn st) (RowScan.column st) (RowScan.columns st))
    st' ->
  runs' (String.length pre) st st'.
Proof.
  intros Hs Hq Hi H fuel H0 Hf.
  destruct fuel as [|fuel]; [lia|].
  rewrite scan_row_quote by now apply (charAt_split _ pre post).
  assert (Hl : String.length columnStr
               = String.length pre + 1 + String.length post)
    by (rewrite Hs, str_length_app; simpl; lia).
  rewrite str_length_app in Hi. simpl in Hi.
  replace (S (String.length pre)) with (String.length (pre +:+ quote))
    by (rewrite str_length_app; simpl; lia).
  rewrite Hq by (rewrite ?str_length_app; simpl; lia).
  apply H; lia.
Qed.

(** One field, from its first code unit to the code unit behind it. *)
Lemma runs_field (f : field) (pre post : string) (a k : nat)
  (cols : Columns) (st' : scan) :
  field_ok d f = true ->
  columnStr = pre +:+ field_code f +:+ post ->
  no_quote_next post = true ->
  runs' (String.length (pre +:+ field_code f))
    (Scan (field_text f) a k cols) st' ->
  runs' (String.length pre) (Scan EmptyString a k cols) st'.
Proof.
  intros Hok Hs Hn H. destruct f as [text|segs]; simpl in *.
  - apply (runs_plain _ _ d columnStr rowNumber text pre post);
      [exact Hs | exact Hok | exact H].
  - destruct segs as [|x segs]; [discriminate|].
    set (body := join_with (quote +:+ quote) (x :: segs)) in *.
    apply (runs_quote pre (body +:+ quote +:+ post)
             (String.length ((pre +:+ quote) +:+ body))
             (join_with quote (x :: segs)));
      [rewrite Hs; now rewrite !str_app_assoc | | |].
    + cbn [RowScan.token].
      rewrite <- (str_app_nil (join_with quote (x :: segs))).
      apply (qruns_segments columnStr (x :: segs) (pre +:+ quote) post);
        [discriminate | exact Hok | | exact Hn].
      fold body. rewrite Hs. now rewrite !str_app_assoc.
    + rewrite (str_length_app (pre +:+ quote) body). lia.
    + cbn [RowScan.actualColumn RowScan.column RowScan.columns].
      replace (S (String.length ((pre +:+ quote) +:+ body)))
        with (String.length (pre +:+ quote +:+ body +:+ quote))
        by (rewrite !str_length_app; simpl; lia).
      exact H.
Qed.

Lemma delimiter_no_quote (post : string) :
  no_quote_next (String d post) = true.
Proof.
  unfold no_quote_next, is_quote, JS.is_char. simpl.
  unfold delimiter_char in Hd. now apply andb_prop in Hd as [_ Hq].
Qed.

Lemma tail_no_quote (tail : string) :
  row_tail tail = true -> no_quote_next tail = true.
Proof.
  destruct tail as [|c tail]; [reflexivity|]. simpl.
  intros H. apply Ascii.eqb_eq in H. now subst c.
Qed.

End RunsFields.

Lemma hash_start_skipped (l : string) :
  starts_with_hash l = true -> skipped l = true.
Proof.
  unfold starts_with_hash, skipped, is_hash. intros H.
  destruct l as [|c l]; [discriminate|].
  cbn [JS.charAt String.get JS.is_char] in H.
  apply Ascii.eqb_eq in H. subst c.
  unfold JS.trim.
  change (JS.trimStart (String JS.HASH l)) with (String JS.HASH l).
  destruct (trimEnd_head JS.HASH l eq_refl) as [t' ->].
  apply orb_true_r.
Qed.

Lemma tail_skipped (tail : string) :
  row_tail tail = true -> skipped tail = true.
Proof.
  destruct tail as [|c tail]; [reflexivity|]. simpl.
  intros H. apply Ascii.eqb_eq in H. subst c.
  now apply hash_start_skipped.
Qed.

Lemma parseCSVRow_not_skipped startColumn endColumn itemDelimiter
  (columnStr : string) (rowNumber : Z) (cols : Columns) :
  skipped columnStr = false ->
  parseCSVRow startColumn endColumn itemDelimiter columnStr rowNumber cols
  = match scan_row startColumn endColumn itemDelimiter columnStr rowNumber
            (S (String.length columnStr)) 0 (Scan EmptyString 0 0 cols) with
    | Ok st => Ok (RowScan.columns st)
    | Fail e st => Fail e (RowScan.columns st)
    end.
Proof.
  unfold skipped, blank, parseCSVRow. intros H.
  apply orb_false_elim in H as [-> ->]. reflexivity.
Qed.

(** The window test in numbers. *)
Lemma in_window_bounds (startColumn endColumn : option Z) (a : nat) :
  in_window startColumn endColumn a
  = (match startColumn with Some s => Z.to_nat s | None => 0 end <=? a)
    && match endColumn with
       | Some e => a <? Z.to_nat (e + 1)
       | None => true
       end.
Proof.
  unfold in_window, JS.gt.
  destruct startColumn as [s|], endColumn as [e|]; cbn [orb negb];
    rewrite ?negb_orb, ?orb_false_r, ?andb_true_r.
  - f_equal.
    + destruct (Z.ltb_spec (Z.of_nat a) s), (Nat.leb_spec (Z.to_nat s) a);
        simpl; try reflexivity; lia.
    + destruct (Z.ltb_spec e (Z.of_nat a)),
        (Nat.ltb_spec a (Z.to_nat (e + 1))); simpl; try reflexivity; lia.
  - destruct (Z.ltb_spec (Z.of_nat a) s), (Nat.leb_spec (Z.to_nat s) a);
      simpl; try reflexivity; lia.
  - destruct (Z.ltb_spec e (Z.of_nat a)),
      (Nat.ltb_spec a (Z.to_nat (e + 1))); simpl; try reflexivity; lia.
  - reflexivity.
Qed.

(** The fields that pass the window test, one by one, are the slice. *)
Lemma kept_from_slice {A : Type} (startColumn endColumn : option Z)
  (fields : list A) :
  forall a,
    kept_from startColumn endColumn a fields
    = match endColumn with
      | Some e =>
          take (Z.to_nat (e + 1)
                - match startColumn with
                  | Some s => Z.to_nat s
                  | None => 0
                  end `max` a)
            (drop (match startColumn with
                   | Some s => Z.to_nat s
                   | None => 0
                   end - a) fields)
      | None =>
          drop (match startColumn with
                | Some s => Z.to_nat s
                | None => 0
                end - a) fields
      end.
Proof.
  set (lo := match startColumn with
             | Some s => Z.to_nat s
             | None => 0
             end).
  induction fields as [|f rest IH]; intros a.
  - simpl. destruct endColumn; now rewrite ?drop_nil, ?take_nil.
  - cbn [kept_from]. rewrite IH, in_window_bounds. fold lo.
    destruct (Nat.leb_spec lo a) as [Hlo|Hlo]; cbn [andb].
    + replace (lo - a) with 0 by lia. replace (lo - S a) with 0 by lia.
      rewrite !drop_0.
      destruct endColumn as [e|]; [|reflexivity].
      destruct (Nat.ltb_spec a (Z.to_nat (e + 1))) as [He|He].
      * replace (Z.to_nat (e + 1) - lo `max` a)
          with (S (Z.to_nat (e + 1) - lo `max` S a)) by lia.
        reflexivity.
      * replace (Z.to_nat (e + 1) - lo `max` a) with 0 by lia.
        replace (Z.to_nat (e + 1) - lo `max` S a) with 0 by lia.
        reflexivity.
    + replace (lo - a) with (S (lo - S a)) by lia. cbn [drop].
      replace (lo `max` S a) with (lo `max` a) by lia.
      reflexivity.
Qed.

Lemma kept_from_window {A : Type} (startColumn endColumn : option Z)
  (fields : list A) :
  kept_from startColumn endColumn 0 fields
  = window_fields startColumn endColumn fields.
Proof.
  rewrite kept_from_slice. unfold window_fields. cbv zeta.
  now rewrite Nat.sub_0_r, Nat.max_0_r.
Qed.

Lemma kept_from_map {A B : Type} (g : A -> B)
  (startColumn endColumn : option Z) (fields : list A) :
  forall a,
    map g (kept_from startColumn endColumn a fields)
    = kept_from startColumn endColumn a (map g fields).
Proof.
  induction fields as [|f rest IH]; intros a; [reflexivity|].
  cbn [kept_from map]. destruct (in_window _ _ a); cbn [map];
    now rewrite IH.
Qed.

Lemma put_fields_length_le (fields : list string) (cols : Columns)
  (k : nat) (r : Z) :
  k <= length cols ->
  k + length fields <= length (put_fields cols k r fields).
Proof.
  intros Hk. rewrite put_fields_length by exact Hk. lia.
Qed.

Lemma put_fields_app (xs ys : list string) :
  forall (cols : Columns) (k : nat) (r : Z),
    put_fields cols k r (xs ++ ys)
    = put_fields (put_fields cols k r xs) (k + length xs) r ys.
Proof.
  induction xs as [|x xs IH]; intros cols k r; simpl.
  - now rewrite Nat.add_0_r.
  - rewrite IH. now replace (S k + length xs) with (k + S (length xs)) by lia.
Qed.

Section RunsWindow.

Variables (startColumn endColumn : option Z) (d : ascii).
Variables (columnStr : string) (rowNumber : Z).
Hypothesis Hd : delimiter_char d = true.

Local Abbreviation push' := (push startColumn endColumn rowNumber).
Local Abbreviation runs' :=
  (runs startColumn endColumn (Some (unit_string d)) columnStr rowNumber).
Local Abbreviation kept' := (kept_from startColumn endColumn).

(** [push] at the end of a field: the field is written if its actual
    column is in the window, and dropped otherwise. *)
Lemma push_field (text : string) (a k : nat) (cols : Columns) :
  k <= length cols ->
  push' (Scan text a k cols)
  = Ok (Scan EmptyString (S a) (k + length (kept' a [text]))
          (put_fields cols k rowNumber (kept' a [text]))).
Proof.
  intros Hk. cbn [kept_from].
  destruct (in_window startColumn endColumn a) eqn:Hw.
  - rewrite push_inside_put by (simpl; assumption). cbn.
    now replace (k + 1) with (S k) by lia.
  - rewrite push_outside by (simpl; assumption). cbn.
    now rewrite Nat.add_0_r.
Qed.

(** The fields of a row, from the first code unit of the first field on:
    every field in the window is flushed into the next output column. *)
Lemma runs_fields_window (fields : list field) :
  forall (pre tail : string) (a k : nat) (cols : Columns),
    fields <> [] ->
    forallb (field_ok d) fields = true ->
    row_tail tail = true ->
    columnStr = pre +:+ row_code d fields +:+ tail ->
    k <= length cols ->
    runs' (String.length pre) (Scan EmptyString a k cols)
      (Scan EmptyString (a + length fields)
         (k + length (kept' a fields))
         (put_fields cols k rowNumber (map field_text (kept' a fields)))).
Proof.
  induction fields as [|f fields IH];
    intros pre tail a k cols Hne Hok Ht Hs Hk; [congruence|].
  simpl in Hok. apply andb_prop in Hok as [Hf Hok].
  pose proof (push_field (field_text f) a k cols Hk) as Hpush.
  unfold row_code in Hs. cbn [map] in Hs.
  assert (Hsplit : forall rest : list field,
             kept' a (f :: rest)
             = kept' a [f] ++ kept' (S a) rest).
  { intros rest. cbn [kept_from].
    destruct (in_window startColumn endColumn a); reflexivity. }
  assert (Hone : map field_text (kept' a [f]) = kept' a [field_text f])
    by exact (kept_from_map field_text startColumn endColumn [f] a).
  assert (Hlen : length (kept' a [f]) = length (kept' a [field_text f]))
    by (rewrite <- Hone; now rewrite length_map).
  destruct fields as [|f2 fields].
  - simpl in Hs.
    apply (runs_field _ _ d columnStr rowNumber f pre tail);
      [exact Hf | exact Hs | now apply tail_no_quote |].
    replace (a + length [f]) with (S a) by (simpl; lia).
    rewrite Hone, Hlen.
    apply (runs_tail _ _ d columnStr rowNumber _ tail);
      [exact Ht | now rewrite Hs, str_app_assoc | exact Hpush].
  - cbn [map] in Hs. rewrite join_with_cons in Hs by discriminate.
    set (more := join_with (unit_string d)
                   (field_code f2 :: map field_code fields)) in *.
    apply (runs_field _ _ d columnStr rowNumber f pre
             (String d more +:+ tail));
      [exact Hf | rewrite Hs; now rewrite !str_app_assoc
      | now apply delimiter_no_quote |].
    eapply (runs_delimiter _ _ d columnStr rowNumber
              (pre +:+ field_code f) (more +:+ tail));
      [exact Hd | rewrite Hs; now rewrite !str_app_assoc | exact Hpush |].
    specialize (IH ((pre +:+ field_code f) +:+ unit_string d) tail (S a)
                  (k + length (kept' a [field_text f]))
                  (put_fields cols k rowNumber (kept' a [field_text f]))
                  ltac:(discriminate) Hok Ht).
    rewrite (Hsplit (f2 :: fields)), map_app, length_app, put_fields_app.
    rewrite length_map, Hone, Hlen.
    replace (a + length (f :: f2 :: fields))
      with (S a + length (f2 :: fields)) by (simpl; lia).
    rewrite Nat.add_assoc.
    apply IH.
    + rewrite Hs. unfold row_code. cbn [map]. fold more.
      now rewrite !str_app_assoc.
    + now apply put_fields_length_le.
Qed.

End RunsWindow.

Lemma fields_row_put (startColumn endColumn : option Z) (d : ascii)
  (fields : list field) (tail : string) (r : Z) (cols : Columns) :
  delimiter_char d = true ->
  good_row d tail fields = true ->
  row_tail tail = true ->
  parseCSVRow startColumn endColumn (Some (unit_string d))
    (row_code d fields +:+ tail) r cols
  = Ok (put_fields cols 0 r
          (map field_text (window_fields startColumn endColumn fields))).
Proof.
  intros Hd Hg Ht.
  pose proof Hg as Hg'. unfold good_row in Hg'.
  apply andb_prop in Hg' as [Hok Hs].
  apply negb_true_iff in Hs.
  assert (Hne : fields <> []).
  { intros ->. unfold row_code in Hs. simpl in Hs.
    rewrite str_app_nil, tail_skipped in Hs by exact Ht. discriminate. }
  rewrite parseCSVRow_not_skipped by exact Hs.
  rewrite (runs_fields_window startColumn endColumn d _ r Hd fields
             EmptyString tail 0 0 cols Hne Hok Ht eq_refl);
    [| lia | lia | rewrite str_app_nil; simpl; lia].
  cbn [RowScan.columns]. now rewrite kept_from_window.
Qed.

Lemma put_fields_cells (fields : list field) (r : Z) (cols : Columns) :
  (0 <= r)%Z ->
  (forall c f, fields !! c = Some f ->
               cell (put_fields cols 0 r (map field_text fields)) c r
               = Some (field_text f))
  /\ (forall c r', r' <> r \/ length fields <= c ->
                   cell (put_fields cols 0 r (map field_text fields)) c r'
                   = cell cols c r').
Proof.
  intros Hr. split.
  - intros c f Hc.
    apply (put_fields_cell (map field_text fields) cols 0 r c); [lia|lia|].
    now rewrite list_lookup_fmap, Hc.
  - intros c r' H. apply put_fields_cell_off. rewrite length_map. lia.
Qed.

Section Table.

Variables (this : Parser) (d : ascii).
Hypothesis Hd : delimiter_char d = true.
Hypothesis Hdel : row_delimiter this = Some (unit_string d).

Lemma rows_from_table (rows : list (list field * string)) :
  forall (r0 : Z) (cols : Columns),
    (0 <= r0)%Z ->
    forallb (fun row =>
               good_row d (snd row) (fst row) && row_tail (snd row)) rows
    = true ->
    (forall c r', (r0 <= r')%Z -> cell cols c r' = None) ->
    exists cols',
      rows_from this
        (map (fun row => row_code d (fst row) +:+ snd row) rows) r0 cols
      = Ok cols'
      /\ (forall c r', (r' < r0)%Z -> cell cols' c r' = cell cols c r')
      /\ (forall c i,
             cell cols' c (r0 + Z.of_nat i)
             = match rows !! i with
               | Some row =>
                   field_text
                   <$> window_fields (startColumn (options this))
                         (endColumn (options this)) (fst row) !! c
               | None => None
               end).
Proof.
  induction rows as [|[row tail] rows IH]; intros r0 cols Hr Hg Hc.
  - exists cols. repeat split. intros c i. rewrite lookup_nil.
    apply Hc. lia.
  - simpl in Hg. apply andb_prop in Hg as [Hrow Hg].
    apply andb_prop in Hrow as [Hrow Ht].
    assert (Hs : starts_with_hash (row_code d row +:+ tail) = false).
    { destruct (starts_with_hash _) eqn:E; [|reflexivity].
      apply hash_start_skipped in E. unfold good_row in Hrow.
      apply andb_prop in Hrow as [_ Hrow]. rewrite E in Hrow.
      discriminate. }
    cbn [map rows_from fst snd]. rewrite Hs, Hdel.
    rewrite (fields_row_put _ _ d row tail r0 cols Hd Hrow Ht).
    set (kept := window_fields (startColumn (options this))
                   (endColumn (options this)) row).
    set (cols1 := put_fields cols 0 r0 (map field_text kept)).
    destruct (put_fields_cells kept r0 cols Hr) as [Hin Hout].
    fold cols1 in Hin, Hout.
    destruct (IH (r0 + 1)%Z cols1 ltac:(lia) Hg) as (cols' & H' & Hlo & Hhi).
    { intros c r' Hr'. rewrite Hout by lia. apply Hc. lia. }
    exists cols'. split; [exact H'|]. split.
    + intros c r' Hr'. rewrite Hlo by lia. apply Hout. lia.
    + intros c [|i].
      * rewrite Z.add_0_r, Hlo by lia. cbn [lookup list_lookup fst].
        fold kept.
        destruct (kept !! c) as [f|] eqn:Hf; [now apply Hin|].
        rewrite Hout by (right; now apply lookup_ge_None). apply Hc. lia.
      * replace (r0 + Z.of_nat (S i))%Z with (r0 + 1 + Z.of_nat i)%Z by lia.
        apply Hhi.
Qed.

End Table.

(** X1. A row of fields that are plain or quoted, ended by the end of the
    line or by a comment, under any column window: the fields from index
    [startColumn] to index [endColumn] become, in their order, the cells
    of output columns 0, 1, ... at the row, each with the text its
    quoting stands for; no other cell of the buffer changes, and the
    buffer has as many columns as before or as the window holds
    fields. *)
Theorem row_of_fields (startColumn endColumn : option Z) (d : ascii)
  (fields : list field) (tail : string) (r : Z) (cols : Columns) :
  delimiter_char d = true ->
  good_row d tail fields = true ->
  row_tail tail = true ->
  (0 <= r)%Z ->
  exists cols',
    parseCSVRow startColumn endColumn (Some (unit_string d))
      (row_code d fields +:+ tail) r cols = Ok cols'
    /\ (forall c f,
          window_fields startColumn endColumn fields !! c = Some f ->
          cell cols' c r = Some (field_text f))
    /\ (forall c r',
          r' <> r
          \/ length (window_fields startColumn endColumn fields) <= c ->
          cell cols' c r' = cell cols c r')
    /\ length cols'
       = length cols
         `max` length (window_fields startColumn endColumn fields).
Proof.
  intros Hd Hg Ht Hr.
  exists (put_fields cols 0 r
            (map field_text (window_fields startColumn endColumn fields))).
  split; [now apply fields_row_put|].
  destruct (put_fields_cells
              (window_fields startColumn endColumn fields) r cols Hr)
    as [Hin Hout].
  split; [exact Hin|]. split; [exact Hout|].
  rewrite put_fields_length, length_map; lia.
Qed.

Lemma row_of_fields_witness :
  exists cols',
    parseCSVRow (Some 1%Z) (Some 2%Z) (Some (unit_string ";"))
      (row_code ";" [Plain "a"; Quoted ["x;y"; "#z"]; Plain EmptyString;
                     Plain "b"]
       +:+ "# note") 1%Z [[Some "h"]] = Ok cols'
    /\ (forall c f,
          window_fields (Some 1%Z) (Some 2%Z)
            [Plain "a"; Quoted ["x;y"; "#z"]; Plain EmptyString; Plain "b"]
          !! c = Some f ->
          cell cols' c 1%Z = Some (field_text f))
    /\ (forall c r',
          r' <> 1%Z
          \/ length (window_fields (Some 1%Z) (Some 2%Z)
                       [Plain "a"; Quoted ["x;y"; "#z"]; Plain EmptyString;
                        Plain "b"]) <= c ->
          cell cols' c r' = cell [[Some "h"]] c r')
    /\ length cols'
       = length [[Some "h"]]
         `max` length (window_fields (Some 1%Z) (Some 2%Z)
                         [Plain "a"; Quoted ["x;y"; "#z"];
                          Plain EmptyString; Plain "b"]).
Proof.
  apply (row_of_fields (Some 1%Z) (Some 2%Z) ";"
           [Plain "a"; Quoted ["x;y"; "#z"]; Plain EmptyString; Plain "b"]
           "# note" 1%Z [[Some "h"]]); [reflexivity.. | lia].
Defined.

(** C8 as stated fails. By design, a row the fast exits skip writes no
    cell: three empty fields between tabs are a blank line. And by the
    slip of the quoted sub-scan, which cannot close a quoted field that
    is empty, the row of a, an empty quoted field and c gives the cell
    ,c and the row of an empty quoted field, b and c no cell at all. *)
Lemma three_column_rows_astray :
  parseCSVRow (Some 1%Z) (Some 1%Z) (Some (unit_string JS.TAB))
    (unit_string JS.TAB +:+ unit_string JS.TAB) 0%Z []
  = Ok []
  /\ parseCSVRow (Some 1%Z) (Some 1%Z) (Some ",")
       ("a," +:+ quote +:+ quote +:+ ",c") 0%Z []
     = Ok [[Some ",c"]]
  /\ parseCSVRow (Some 1%Z) (Some 1%Z) (Some ",")
       (quote +:+ quote +:+ ",b,c") 0%Z []
     = Ok [].
Proof. repeat split; vm_compute; reflexivity. Qed.

(** C8, amended. Column windowing with [startColumn = 1] and
    [endColumn = 1]: for every row of three fields, each plain or quoted
    with segments that are not empty, written with any one-unit
    delimiter that is neither the hash nor the quote, with or without a
    trailing comment, and not skipped by the fast exits, exactly one
    cell is written at the row: the text of the field at actual column 1,
    in output column 0. The fields at actual columns 0 and 2 are dropped
    and still counted, and no other cell of the buffer changes. *)
Theorem column_window (d : ascii) (a b c : field) (tail : string) (r : Z)
  (cols : Columns) :
  delimiter_char d = true ->
  good_row d tail [a; b; c] = true ->
  row_tail tail = true ->
  (0 <= r)%Z ->
  exists cols',
    parseCSVRow (Some 1%Z) (Some 1%Z) (Some (unit_string d))
      (row_code d [a; b; c] +:+ tail) r cols = Ok cols'
    /\ cell cols' 0 r = Some (field_text b)
    /\ (forall k r', k <> 0 \/ r' <> r -> cell cols' k r' = cell cols k r')
    /\ length cols' = length cols `max` 1.
Proof.
  intros Hd Hg Ht Hr.
  exists (put_fields cols 0 r
            (map field_text (window_fields (Some 1%Z) (Some 1%Z) [a; b; c]))).
  split; [now apply fields_row_put|].
  change (window_fields (Some 1%Z) (Some 1%Z) [a; b; c]) with [b].
  destruct (put_fields_cells [b] r cols Hr) as [Hin Hout].
  split; [now apply (Hin 0 b)|]. split.
  - intros k r' [Hk | Hr']; apply Hout; [right; simpl; lia | now left].
  - rewrite put_fields_length by lia. reflexivity.
Qed.

Lemma column_window_witness :
  exists cols',
    parseCSVRow (Some 1%Z) (Some 1%Z) (Some (unit_string JS.TAB))
      (row_code JS.TAB [Plain "ab"; Quoted ["c,d"]; Plain EmptyString]
       +:+ "# note") 3%Z [[Some "h"]] = Ok cols'
    /\ cell cols' 0 3%Z = Some (field_text (Quoted ["c,d"]))
    /\ (forall k r', k <> 0 \/ r' <> 3%Z ->
                     cell cols' k r' = cell [[Some "h"]] k r')
    /\ length cols' = length [[Some "h"]] `max` 1.
Proof.
  apply (column_window JS.TAB (Plain "ab") (Quoted ["c,d"])
           (Plain EmptyString) "# note" 3%Z [[Some "h"]]);
    [reflexivity.. | lia].
Defined.

(** X2. A text of such rows, each with or without a trailing comment,
    under any row window and any column window: the buffer is the table
    of the fields in the column window, cell by cell; a row with fewer
    fields than others leaves its row index unset in the columns it does
    not reach, and no row index behind the last row is set. *)
Theorem table_of_rows (this : Parser) (d : ascii)
  (rows : list (list field * string)) (above below : list string) :
  delimiter_char d = true ->
  row_delimiter this = Some (unit_string d) ->
  forallb (fun row =>
             good_row d (snd row) (fst row) && row_tail (snd row)) rows
  = true ->
  exists cols,
    tokenize_window this above
      (map (fun row => row_code d (fst row) +:+ snd row) rows) below
    = Ok cols
    /\ forall c r,
         cell cols c (Z.of_nat r)
         = match rows !! r with
           | Some row =>
               field_text
               <$> window_fields (startColumn (options this))
                     (endColumn (options this)) (fst row) !! c
           | None => None
           end.
Proof.
  intros Hd Hdel Hg. rewrite tokenize_window_rows_from.
  destruct (rows_from_table this d Hd Hdel rows 0%Z [] ltac:(lia) Hg)
    as (cols & H & _ & Hc).
  - intros c r' _. unfold cell. now rewrite lookup_nil.
  - exists cols. split; [exact H|]. intros c r. apply (Hc c r).
Qed.

Lemma table_of_rows_witness :
  exists cols,
    tokenize_window
      (MkParser [] [] None None None
         (MkOptions None None None (Some 1%Z) None (Some ",") None
            (Some LF_string) None None))
      ["skipped"]
      (map (fun row => row_code "," (fst row) +:+ snd row)
         [([Plain "a"; Plain "b"; Plain "c"], EmptyString);
          ([Plain "0"; Quoted ["1,5"]], "#c");
          ([Plain "2"; Plain "3"; Plain "4"], EmptyString)]) []
    = Ok cols
    /\ forall c r,
         cell cols c (Z.of_nat r)
         = match [([Plain "a"; Plain "b"; Plain "c"], EmptyString);
                  ([Plain "0"; Quoted ["1,5"]], "#c");
                  ([Plain "2"; Plain "3"; Plain "4"], EmptyString)] !! r with
           | Some row =>
               field_text <$> window_fields (Some 1%Z) None (fst row) !! c
           | None => None
           end.
Proof.
  apply (table_of_rows
           (MkParser [] [] None None None
              (MkOptions None None None (Some 1%Z) None (Some ",") None
                 (Some LF_string) None None))
           ","
           [([Plain "a"; Plain "b"; Plain "c"], EmptyString);
            ([Plain "0"; Quoted ["1,5"]], "#c");
            ([Plain "2"; Plain "3"; Plain "4"], EmptyString)]
           ["skipped"] []);
    reflexivity.
Defined.

(** ** Any line *)

Section Growth.

Variables (startColumn endColumn : option Z) (itemDelimiter : option string).
Variables (columnStr : string) (rowNumber : Z).

Lemma push_grows (st : scan) (res : result scan) :
  push startColumn endColumn rowNumber st = res ->
  length (RowScan.columns st)
  <= length (RowScan.columns
               match res with Ok st' => st' | Fail _ st' => st' end).
Proof.
  intros <-. unfold push.
  destruct (JS.gt _ _ || JS.gt _ _); [reflexivity|].
  remember (if length (RowScan.columns st) <? RowScan.column st + 1
            then RowScan.columns st ++ [[]] else RowScan.columns st)
    as cols eqn:E.
  assert (Hl : length (RowScan.columns st) <= length cols).
  { subst cols. destruct (_ <? _); [rewrite length_app; lia | lia]. }
  destruct (cols !! RowScan.column st) as [col|]; cbn [RowScan.columns];
    [rewrite length_insert|]; exact Hl.
Qed.

Lemma scan_row_grows (fuel i : nat) (st : scan) (res : result scan) :
  scan_row startColumn endColumn itemDelimiter columnStr rowNumber
    fuel i st = res ->
  length (RowScan.columns st)
  <= length (RowScan.columns
               match res with Ok st' => st' | Fail _ st' => st' end).
Proof.
  revert i st res; induction fuel as [|fuel IH]; intros i st res <-;
    cbn [scan_row]; [reflexivity|].
  destruct (_ <? _); [|exact (push_grows st _ eq_refl)].
  unfold read. destruct (is_hash _); [exact (push_grows st _ eq_refl)|].
  destruct (is_quote _).
  { destruct (quoted _ _ _ _) as [[i' tok]|e [i' tok]].
    - exact (IH _ (Scan tok (actualColumn st) (RowScan.column st)
                     (RowScan.columns st)) _ eq_refl).
    - reflexivity. }
  destruct (JS.is_string _ _).
  { pose proof (push_grows st _ eq_refl) as Hp.
    destruct (push _ _ _ st) as [st'|e st']; [|exact Hp].
    etransitivity; [exact Hp | exact (IH _ st' _ eq_refl)]. }
  exact (IH _ (Scan (RowScan.token st +:+ JS.to_string (JS.charAt columnStr i))
               (actualColumn st) (RowScan.column st) (RowScan.columns st))
           _ eq_refl).
Qed.

End Growth.

(** X3. Whatever the line, the delimiter and the window, the tokenizer
    returns, touches the cells of its own row only, and takes no column
    away. *)
Theorem parseCSVRow_keeps_other_rows startColumn endColumn itemDelimiter
  (columnStr : string) (rowNumber : Z) (cols : Columns) :
  exists cols',
    parseCSVRow startColumn endColumn itemDelimiter columnStr rowNumber cols
    = Ok cols'
    /\ length cols <= length cols'
    /\ forall c r, r <> rowNumber -> cell cols' c r = cell cols c r.
Proof.
  destruct (parseCSVRow_ok startColumn endColumn itemDelimiter columnStr
              rowNumber cols) as [cols' H].
  exists cols'. split; [exact H|]. split.
  - unfold parseCSVRow in H.
    destruct (_ =? 0); [injection H as <-; lia|].
    destruct (is_hash _); [injection H as <-; lia|].
    pose proof (scan_row_grows startColumn endColumn itemDelimiter
                  columnStr rowNumber (S (String.length columnStr)) 0
                  (Scan EmptyString 0 0 cols) _ eq_refl) as Hg.
    destruct (scan_row _ _ _ _ _ _ _ _) as [st|e st]; [|discriminate].
    injection H as <-. exact Hg.
  - exact (parseCSVRow_frame _ _ _ _ _ _ _ H).
Qed.

Lemma quote_not_skipped (s : string) : skipped (String JS.DQUOTE s) = false.
Proof.
  unfold skipped, blank, JS.trim.
  change (JS.trimStart (String JS.DQUOTE s)) with (String JS.DQUOTE s).
  destruct (trimEnd_head JS.DQUOTE s eq_refl) as [t' ->]. reflexivity.
Qed.

(** X4. A quote that is never closed: the rest of the line, delimiters
    and hashes with it, is one cell in output column 0 and the quote
    itself is dropped; the other cells of the buffer stay. *)
Theorem unclosed_quote (startColumn endColumn : option Z) (d : ascii)
  (x : string) (r : Z) (cols : Columns) :
  all_chars not_quote x = true ->
  in_window startColumn endColumn 0 = true ->
  (0 <= r)%Z ->
  exists cols',
    parseCSVRow startColumn endColumn (Some (unit_string d)) (quote +:+ x)
      r cols = Ok cols'
    /\ cell cols' 0 r = Some x
    /\ (forall c r', c <> 0 \/ r' <> r -> cell cols' c r' = cell cols c r')
    /\ length cols' = length cols `max` 1.
Proof.
  intros Hx Hw Hr. exists (put cols 0 r x). split.
  - rewrite parseCSVRow_not_skipped by apply quote_not_skipped.
    set (line := quote +:+ x).
    assert (Hl : String.length line = S (String.length x)) by reflexivity.
    rewrite scan_row_quote by reflexivity.
    cbn [RowScan.token RowScan.actualColumn RowScan.column RowScan.columns].
    rewrite (quoted_plain_at line x quote EmptyString 1);
      [| subst line; now rewrite str_app_empty_r | exact Hx | reflexivity
       | lia].
    rewrite str_app_nil. cbn [quoted].
    replace (1 + String.length x <? String.length line) with false
      by (symmetry; apply Nat.ltb_ge; lia).
    rewrite scan_row_end_at by lia.
    rewrite push_inside_put by (simpl; try exact Hw; lia).
    reflexivity.
  - split; [apply put_cell_eq; lia|]. split.
    + intros c r' H. now apply put_cell_ne.
    + rewrite put_length; lia.
Qed.

Lemma unclosed_quote_witness :
  exists cols',
    parseCSVRow (Some 0%Z) (Some 9%Z) (Some (unit_string ","))
      (quote +:+ "a,b #c") 0%Z [] = Ok cols'
    /\ cell cols' 0 0%Z = Some "a,b #c"
    /\ (forall c r', c <> 0 \/ r' <> 0%Z -> cell cols' c r' = cell [] c r')
    /\ length cols' = 0 `max` 1.
Proof.
  apply (unclosed_quote (Some 0%Z) (Some 9%Z) "," "a,b #c" 0%Z []);
    [reflexivity | reflexivity | lia].
Defined.

(** ** Delimiters that never match *)

Section Unsplit.

Variables (startColumn endColumn : option Z).
Variable (itemDelimiter : option string).
Variables (columnStr : string) (rowNumber : Z).
Hypothesis Hid : no_unit itemDelimiter = true.

Local Abbreviation push' := (push startColumn endColumn rowNumber).
Local Abbreviation scan_row' :=
  (scan_row startColumn endColumn itemDelimiter columnStr rowNumber).

(** No code unit is equal to such a delimiter. *)
Lemma no_unit_is_string (c : option ascii) :
  JS.is_string itemDelimiter c = false.
Proof.
  unfold JS.is_string. destruct c as [b|]; [|reflexivity].
  destruct itemDelimiter as [[|a [|a' s]]|]; try reflexivity;
    try discriminate.
  simpl. destruct (Ascii.eqb b a); reflexivity.
Qed.

Lemma scan_row_unsplit (v : string) :
  forall (pre post : string) (fuel : nat) (st : scan),
    columnStr = pre +:+ v +:+ post ->
    all_chars unmarked v = true ->
    scan_row' (String.length v + fuel) (String.length pre) st
    = scan_row' fuel (String.length pre + String.length v)
        (Scan (RowScan.token st +:+ v) (actualColumn st) (RowScan.column st)
           (RowScan.columns st)).
Proof.
  induction v as [|c v IH]; intros pre post fuel st Hs Hv.
  - simpl. rewrite Nat.add_0_r, str_app_empty_r. now destruct st.
  - simpl in Hv. apply andb_prop in Hv as [Hc Hv].
    unfold unmarked, not_quote in Hc. apply andb_prop in Hc as [Hh Hq].
    apply negb_true_iff in Hh, Hq.
    cbn [String.length Nat.add scan_row].
    assert (Hlt : String.length pre < String.length columnStr)
      by (rewrite Hs, str_app_cons; apply length_middle).
    apply Nat.ltb_lt in Hlt. rewrite Hlt.
    unfold read.
    assert (Hc0 : JS.charAt columnStr (String.length pre) = Some c)
      by (rewrite Hs, str_app_cons; apply charAt_middle).
    rewrite Hc0, no_unit_is_string.
    unfold is_hash, is_quote, JS.is_char. rewrite Hh, Hq.
    specialize (IH (pre +:+ unit_string c) post fuel
                  (Scan (RowScan.token st +:+ JS.to_string (Some c))
                     (actualColumn st) (RowScan.column st)
                     (RowScan.columns st))).
    rewrite str_length_app in IH. simpl in IH.
    rewrite Nat.add_1_r in IH. cbn [JS.to_string]. rewrite IH.
    + f_equal; [lia|]. f_equal.
      now rewrite str_app_assoc.
    + rewrite Hs. unfold unit_string. now rewrite str_app_assoc.
    + exact Hv.
Qed.

(** The end of the line or a hash: the last [push]. *)
Lemma scan_row_tail (pre tail : string) (fuel : nat) (st : scan) :
  columnStr = pre +:+ tail ->
  row_tail tail = true ->
  scan_row' (S fuel) (String.length pre) st = push' st.
Proof.
  intros Hs Ht. cbn [scan_row]. destruct tail as [|c tail].
  - rewrite str_app_empty_r in Hs. subst pre.
    now rewrite Nat.ltb_irrefl.
  - simpl in Ht. apply Ascii.eqb_eq in Ht. subst c.
    assert (Hlt : String.length pre < String.length columnStr)
      by (rewrite Hs; apply length_middle).
    apply Nat.ltb_lt in Hlt. rewrite Hlt. unfold read.
    rewrite Hs, charAt_middle. reflexivity.
Qed.

End Unsplit.

(** X19. An item delimiter that is no string of one code unit never
    splits a row: a line free of quotes up to its end or its comment is
    one cell in output column 0, the text of the delimiter inside it,
    when actual column 0 is in the column window; the other cells of
    the buffer stay. *)
Theorem long_delimiter_never_splits (startColumn endColumn : option Z)
  (itemDelimiter : option string) (v tail : string) (r : Z)
  (cols : Columns) :
  no_unit itemDelimiter = true ->
  all_chars unmarked v = true ->
  row_tail tail = true ->
  skipped (v +:+ tail) = false ->
  in_window startColumn endColumn 0 = true ->
  (0 <= r)%Z ->
  exists cols',
    parseCSVRow startColumn endColumn itemDelimiter (v +:+ tail) r cols
    = Ok cols'
    /\ cell cols' 0 r = Some v
    /\ (forall c r', c <> 0 \/ r' <> r -> cell cols' c r' = cell cols c r')
    /\ length cols' = length cols `max` 1.
Proof.
  intros Hid Hv Ht Hs Hw Hr. exists (put cols 0 r v). split.
  - rewrite parseCSVRow_not_skipped by exact Hs.
    set (line := v +:+ tail).
    assert (Hl : S (String.length line)
                 = String.length v + S (String.length tail))
      by (subst line; rewrite str_length_app; lia).
    rewrite Hl.
    rewrite (scan_row_unsplit _ _ itemDelimiter line r Hid v EmptyString
               tail (S (String.length tail)) _ eq_refl Hv).
    cbn [RowScan.token RowScan.actualColumn RowScan.column RowScan.columns].
    change (String.length EmptyString + String.length v)
      with (String.length v).
    rewrite (scan_row_tail _ _ itemDelimiter line r v tail _ _ eq_refl Ht).
    rewrite push_inside_put by (simpl; try exact Hw; lia).
    now rewrite str_app_nil.
  - split; [apply put_cell_eq; lia|]. split.
    + intros c r' H. now apply put_cell_ne.
    + rewrite put_length; lia.
Qed.

Lemma long_delimiter_never_splits_witness :
  exists cols',
    parseCSVRow (Some 0%Z) None (Some ", ") ("a, b, c" +:+ "# note") 2%Z []
    = Ok cols'
    /\ cell cols' 0 2%Z = Some "a, b, c"
    /\ (forall c r', c <> 0 \/ r' <> 2%Z -> cell cols' c r' = cell [] c r')
    /\ length cols' = length ([] : Columns) `max` 1.
Proof.
  apply (long_delimiter_never_splits (Some 0%Z) None (Some ", ")
           "a, b, c" "# note" 2%Z []); [reflexivity.. | lia].
Defined.

(** ** The sniffer on whole texts *)

Section SniffFacts.

Variable date_parses : string -> bool.
Variable number_isNaN : string -> bool.
Variable number_isFinite : string -> bool.

Local Abbreviation sniff_line' :=
  (sniff_line date_parses number_isNaN number_isFinite).
Local Abbreviation sniff_lines' :=
  (sniff_lines date_parses number_isNaN number_isFinite).
Local Abbreviation guessDelimiter' :=
  (guessDelimiter date_parses number_isNaN number_isFinite).

(** Only the lines at index 13 and below are looked at. *)
Lemma sniff_lines_take (lines : list string) :
  forall (i : nat) (g : counters),
    sniff_lines' i lines g = sniff_lines' i (take (14 - i) lines) g.
Proof.
  induction lines as [|l lines IH]; intros i g.
  - now rewrite take_nil.
  - cbn [sniff_lines]. destruct (Nat.ltb_spec 13 i).
    + replace (14 - i) with 0 by lia. reflexivity.
    + replace (14 - i) with (S (14 - S i)) by lia.
      cbn [take sniff_lines].
      destruct (Nat.ltb_spec 13 i); [lia|].
      destruct (sniff_line _ _ _ _ _ _ _ _ _); [apply IH | reflexivity].
Qed.

Lemma no_char_charAt (a : ascii) (s : string) (k : nat) :
  no_char a s = true -> JS.is_char a (JS.charAt s k) = false.
Proof.
  intros Hs. unfold JS.charAt.
  destruct (String.get k s) as [c|] eqn:Hk; [|reflexivity].
  apply (all_chars_get _ _ _ _ Hs) in Hk. simpl.
  now apply negb_true_iff in Hk.
Qed.

(** The candidate found behind a closing quote is a code unit of the
    line. *)
Lemma skip_spaces_char (a : ascii) (columnStr : string) :
  no_char a columnStr = true ->
  forall (fuel j : nat) (cn : option ascii) (j' : nat) (cn' : option ascii),
    JS.is_char a cn = false ->
    skip_spaces columnStr fuel j cn = Ok (j', cn') ->
    JS.is_char a cn' = false.
Proof.
  intros Hs. induction fuel as [|fuel IH]; intros j cn j' cn' Hcn H;
    [discriminate|].
  cbn [skip_spaces] in H. destruct (_ && _).
  - eapply IH; [|exact H]. now apply no_char_charAt.
  - now injection H as _ <-.
Qed.

(** A counter of [potDelimiters] read by [get], which only a code unit
    [a] moves. *)
Variables (get : potDelimiters -> nat) (a : ascii).
Hypothesis get_incr :
  forall c p, JS.is_char a c = false -> get (pot_incr c p) = get p.
Hypothesis get_mono : forall c p, get p <= get (pot_incr c p).

Lemma sniff_line_still (columnStr : string) :
  no_char a columnStr = true ->
  forall (fuel j : nat) (inStr : bool) (tok : string) (g g' : counters),
    sniff_line' columnStr fuel j inStr tok g = Ok g' ->
    get (pot g') = get (pot g).
Proof.
  intros Hs. induction fuel as [|fuel IH]; intros j inStr tok g g' H;
    [discriminate|].
  cbn [sniff_line] in H.
  destruct (_ <? _); [|now injection H as <-].
  destruct (is_hash _); [now injection H as <-|].
  pose proof (no_char_charAt a columnStr j Hs) as Hc.
  destruct (is_quote (JS.charAt columnStr j)).
  - destruct inStr.
    + destruct (negb _ && negb _).
      * destruct (skip_spaces columnStr (S fuel) j _)
          as [[j1 cn1]|e x] eqn:Hsk; [|discriminate].
        apply IH in H. rewrite H. cbn [pot].
        destruct (pot_has cn1); [|reflexivity].
        apply get_incr.
        eapply (skip_spaces_char a columnStr Hs); [|exact Hsk].
        now apply no_char_charAt.
      * apply IH in H. exact H.
    + apply IH in H. exact H.
  - destruct (pot_has _).
    + apply IH in H. rewrite H. cbn [pot].
      destruct (date_parses _); [now apply get_incr|].
      destruct (_ || _); [now apply get_incr | reflexivity].
    + apply IH in H. exact H.
Qed.

Lemma sniff_lines_still (lines : list string) :
  forallb (no_char a) lines = true ->
  forall (i : nat) (g g' : counters),
    sniff_lines' i lines g = Ok g' -> get (pot g') = get (pot g).
Proof.
  induction lines as [|l lines IH]; intros Hl i g g' H.
  - now injection H as <-.
  - simpl in Hl. apply andb_prop in Hl as [Hl Hls].
    cbn [sniff_lines] in H. destruct (13 <? i); [now injection H as <-|].
    destruct (sniff_line _ _ _ _ _ _ _ _ _) as [g1|e g1] eqn:H1;
      [|discriminate].
    rewrite (IH Hls _ _ _ H). eapply sniff_line_still; eauto.
Qed.

Lemma sniff_line_mono (columnStr : string) :
  forall (fuel j : nat) (inStr : bool) (tok : string) (g g' : counters),
    sniff_line' columnStr fuel j inStr tok g = Ok g' ->
    get (pot g) <= get (pot g').
Proof.
  induction fuel as [|fuel IH]; intros j inStr tok g g' H; [discriminate|].
  cbn [sniff_line] in H.
  destruct (_ <? _); [|injection H as <-; lia].
  destruct (is_hash _); [injection H as <-; lia|].
  destruct (is_quote (JS.charAt columnStr j)).
  - destruct inStr.
    + destruct (negb _ && negb _).
      * destruct (skip_spaces columnStr (S fuel) j _)
          as [[j1 cn1]|e x] eqn:Hsk; [|discriminate].
        apply IH in H. cbn [pot] in H.
        destruct (pot_has cn1); [|exact H].
        pose proof (get_mono cn1 (pot g)). lia.
      * apply IH in H. exact H.
    + apply IH in H. exact H.
  - destruct (pot_has _).
    + apply IH in H. cbn [pot] in H.
      pose proof (get_mono (JS.charAt columnStr j) (pot g)).
      destruct (date_parses _); [lia|].
      destruct (_ || _); [lia | exact H].
    + apply IH in H. exact H.
Qed.

Lemma sniff_lines_mono (lines : list string) :
  forall (i : nat) (g g' : counters),
    sniff_lines' i lines g = Ok g' -> get (pot g) <= get (pot g').
Proof.
  induction lines as [|l lines IH]; intros i g g' H.
  - injection H as <-. lia.
  - cbn [sniff_lines] in H. destruct (13 <? i); [injection H as <-; lia|].
    destruct (sniff_line _ _ _ _ _ _ _ _ _) as [g1|e g1] eqn:H1;
      [|discriminate].
    apply IH in H. apply sniff_line_mono in H1. lia.
Qed.

End SniffFacts.

Lemma semicolon_incr (c : option ascii) (p : potDelimiters) :
  JS.is_char ";" c = false -> semicolon (pot_incr c p) = semicolon p.
Proof.
  intros H. unfold pot_incr. rewrite H.
  destruct (JS.is_char "," c); [reflexivity|].
  destruct (JS.is_char JS.TAB c); reflexivity.
Qed.

Lemma comma_incr (c : option ascii) (p : potDelimiters) :
  JS.is_char "," c = false -> comma (pot_incr c p) = comma p.
Proof.
  intros H. unfold pot_incr. rewrite H.
  destruct (JS.is_char ";" c); [reflexivity|].
  destruct (JS.is_char JS.TAB c); reflexivity.
Qed.

Lemma semicolon_mono (c : option ascii) (p : potDelimiters) :
  semicolon p <= semicolon (pot_incr c p).
Proof.
  unfold pot_incr. destruct (JS.is_char "," c); [simpl; lia|].
  destruct (JS.is_char ";" c); [simpl; lia|].
  destruct (JS.is_char JS.TAB c); simpl; lia.
Qed.

Section SniffTheorems.

Variable date_parses : string -> bool.
Variable number_isNaN : string -> bool.
Variable number_isFinite : string -> bool.

Local Abbreviation sniff_line' :=
  (sniff_line date_parses number_isNaN number_isFinite).
Local Abbreviation sniff_lines' :=
  (sniff_lines date_parses number_isNaN number_isFinite).
Local Abbreviation guessDelimiter' :=
  (guessDelimiter date_parses number_isNaN number_isFinite).

(** The sniffer looks at the first 14 lines alone. *)
Lemma guessDelimiter_take (this : Parser) (lines : list string) :
  guessDelimiter' this lines = guessDelimiter' this (take 14 lines).
Proof.
  unfold guessDelimiter.
  now rewrite (sniff_lines_take _ _ _ lines 0 counters0).
Qed.

Lemma sniff_line_points (columnStr : string) :
  no_char "." columnStr = true ->
  forall (fuel j : nat) (inStr : bool) (tok : string) (g g' : counters),
    sniff_line' columnStr fuel j inStr tok g = Ok g' ->
    points g' = points g.
Proof.
  intros Hs. induction fuel as [|fuel IH]; intros j inStr tok g g' H;
    [discriminate|].
  cbn [sniff_line] in H.
  destruct (_ <? _); [|now injection H as <-].
  destruct (is_hash _); [now injection H as <-|].
  rewrite (no_char_charAt "." columnStr j Hs) in H.
  destruct (is_quote (JS.charAt columnStr j)).
  - destruct inStr.
    + destruct (negb _ && negb _).
      * destruct (skip_spaces columnStr (S fuel) j _)
          as [[j1 cn1]|e x]; [|discriminate].
        now apply IH in H.
      * now apply IH in H.
    + now apply IH in H.
  - destruct (pot_has _); now apply IH in H.
Qed.

Lemma sniff_lines_points (lines : list string) :
  forallb (no_char ".") lines = true ->
  forall (i : nat) (g g' : counters),
    sniff_lines' i lines g = Ok g' -> points g' = points g.
Proof.
  induction lines as [|l lines IH]; intros Hl i g g' H.
  - now injection H as <-.
  - simpl in Hl. apply andb_prop in Hl as [Hl Hls].
    cbn [sniff_lines] in H. destruct (13 <? i); [now injection H as <-|].
    destruct (sniff_line _ _ _ _ _ _ _ _ _) as [g1|e g1] eqn:H1;
      [|discriminate].
    rewrite (IH Hls _ _ _ H). eapply sniff_line_points; eauto.
Qed.

Lemma sniff_plain_step (c : ascii) :
  sniff_plain c = true ->
  is_hash (Some c) = false /\ is_quote (Some c) = false
  /\ pot_has (Some c) = false /\ JS.is_char "," (Some c) = false.
Proof.
  unfold sniff_plain, not_quote, is_hash, is_quote, pot_has. simpl.
  intros H. apply andb_prop in H as [H Hp]. apply andb_prop in H as [Hh Hq].
  apply negb_true_iff in Hh, Hq, Hp. repeat split; try assumption.
  now apply orb_false_elim in Hp as [Hp _]; apply orb_false_elim in Hp as [Hp _].
Qed.

(** A run of plain code units goes to the token and moves no candidate
    counter. *)
Lemma sniff_line_plain (columnStr v : string) :
  forall (pre post : string) (fuel : nat) (inStr : bool) (tok : string)
    (g : counters),
    columnStr = pre +:+ v +:+ post ->
    all_chars sniff_plain v = true ->
    exists g1,
      pot g1 = pot g
      /\ sniff_line' columnStr (String.length v + fuel) (String.length pre)
           inStr tok g
         = sniff_line' columnStr fuel (String.length pre + String.length v)
             inStr (tok +:+ v) g1.
Proof.
  induction v as [|c v IH]; intros pre post fuel inStr tok g Hs Hv.
  - exists g. split; [reflexivity|]. simpl.
    now rewrite Nat.add_0_r, str_app_empty_r.
  - simpl in Hv. apply andb_prop in Hv as [Hc Hv].
    destruct (sniff_plain_step c Hc) as (Hh & Hq & Hp & Hcm).
    cbn [String.length Nat.add sniff_line].
    assert (Hlt : String.length pre < String.length columnStr)
      by (rewrite Hs, str_app_cons; apply length_middle).
    apply Nat.ltb_lt in Hlt. rewrite Hlt.
    assert (Hc0 : JS.charAt columnStr (String.length pre) = Some c)
      by (rewrite Hs, str_app_cons; apply charAt_middle).
    rewrite Hc0, Hh, Hq, Hp, Hcm.
    edestruct (IH (pre +:+ unit_string c) post fuel inStr
                 (tok +:+ JS.to_string (Some c))) as (g1 & Hg1 & E);
      [rewrite Hs; unfold unit_string; now rewrite str_app_assoc
      | exact Hv |].
    rewrite str_length_app in E. simpl in E.
    rewrite Nat.add_1_r in E. rewrite E.
    exists g1. split; [exact Hg1|].
    f_equal; [lia|]. cbn [JS.to_string]. now rewrite str_app_assoc.
Qed.

(** At a candidate delimiter outside the other cases: the token is
    tested and emptied. *)
Lemma sniff_line_candidate (columnStr : string) (fuel j : nat)
  (inStr : bool) (tok : string) (g : counters) (c : ascii) :
  JS.charAt columnStr j = Some c ->
  pot_has (Some c) = true ->
  sniff_line' columnStr (S fuel) j inStr tok g
  = sniff_line' columnStr fuel (S j) inStr EmptyString
      (Counters
         (if counts_as_field date_parses number_isNaN number_isFinite tok
          then pot_incr (Some c) (pot g) else pot g)
         (if JS.is_char "." (Some c) then S (points g) else points g)
         (if JS.is_char "," (Some c) then S (commas g) else commas g)).
Proof.
  intros Hc Hp. cbn [sniff_line].
  assert (Hlt : j < String.length columnStr)
    by (eapply str_get_lt; exact Hc).
  apply Nat.ltb_lt in Hlt. rewrite Hlt, Hc, Hp.
  assert (Hh : is_hash (Some c) = false /\ is_quote (Some c) = false).
  { unfold pot_has, is_hash, is_quote, JS.is_char in *.
    destruct (Ascii.eqb_spec c ","); [subst; auto|].
    destruct (Ascii.eqb_spec c ";"); [subst; auto|].
    destruct (Ascii.eqb_spec c JS.TAB); [subst; auto|]. discriminate. }
  destruct Hh as [-> ->].
  unfold counts_as_field. cbv zeta.
  destruct (date_parses _); [reflexivity|].
  destruct (_ || _); reflexivity.
Qed.

(** The counters after a first line that opens with a plain field and a
    semicolon, the field passing the test of the sniffer. *)
Lemma sniff_line_first_semicolon (f rest : string) :
  all_chars sniff_plain f = true ->
  counts_as_field date_parses number_isNaN number_isFinite f = true ->
  exists g',
    sniff_line' (f +:+ ";" +:+ rest)
      (S (String.length (f +:+ ";" +:+ rest))) 0 false EmptyString counters0
    = Ok g'
    /\ 1 <= semicolon (pot g').
Proof.
  intros Hf Hc. set (line := f +:+ ";" +:+ rest).
  assert (Hl : String.length line = String.length f + S (String.length rest))
    by (subst line; rewrite !str_length_app; simpl; lia).
  destruct (sniff_line_plain line f EmptyString (";" +:+ rest)
              (S (S (String.length rest))) false EmptyString counters0
              eq_refl Hf) as (g1 & Hg1 & E).
  replace (S (String.length line))
    with (String.length f + S (S (String.length rest))) by lia.
  change (String.length EmptyString) with 0 in E.
  change (0 + String.length f) with (String.length f) in E.
  rewrite E, str_app_nil.
  rewrite (sniff_line_candidate line _ _ _ _ _ ";")
    by (try reflexivity; subst line; apply charAt_middle).
  rewrite Hc, Hg1.
  match goal with
  | |- context [sniff_line' line ?fu ?j ?i ?t ?g] =>
      destruct (sniff_line_ok date_parses number_isNaN number_isFinite
                  line fu j i t g) as [g' Hg']; [lia | lia |];
      pose proof (sniff_line_mono date_parses number_isNaN number_isFinite
                    semicolon semicolon_mono line fu j i t g g' Hg') as Hm
  end.
  exists g'. split; [exact Hg'|]. exact Hm.
Qed.

(** X5. The sniffer looks at the lines at index 0 to 13 and at no other:
    two texts with the same first 14 lines get the same answer and the
    same fields set. *)
Theorem sniffer_reads_14_lines (this : Parser) (lines lines' : list string) :
  take 14 lines = take 14 lines' ->
  guessDelimiter' this lines = guessDelimiter' this lines'.
Proof.
  intros H. rewrite (guessDelimiter_take this lines).
  rewrite (guessDelimiter_take this lines'). now rewrite H.
Qed.

(** X6. No semicolon among the first 14 lines: the guess is the comma,
    whatever else the lines hold. *)
Theorem no_semicolon_gives_comma (this : Parser) (lines : list string) :
  forallb (no_char ";") (take 14 lines) = true ->
  exists this', guessDelimiter' this lines = Ok (",", this').
Proof.
  intros Hl. rewrite guessDelimiter_take.
  destruct (guessDelimiter_ok date_parses number_isNaN number_isFinite
              this (take 14 lines)) as (g & Hg & Hd).
  pose proof (sniff_lines_still date_parses number_isNaN number_isFinite
                semicolon ";" semicolon_incr _ Hl _ _ _ Hg) as Hs.
  rewrite Hd. eexists. f_equal. f_equal.
  unfold decide_delimiter. rewrite Hs. cbn [counters0 pot semicolon].
  replace (comma (pot g) <? 0) with false
    by (symmetry; apply Nat.ltb_ge; lia).
  destruct (0 <? comma (pot g)); reflexivity.
Qed.

(** X7. A text whose first line opens with a plain field and a
    semicolon, the field being a date or no finite number for the host,
    and whose first 14 lines hold no comma: the guess is the semicolon. *)
Theorem semicolon_text_detected (this : Parser) (f rest : string)
  (more : list string) :
  all_chars sniff_plain f = true ->
  counts_as_field date_parses number_isNaN number_isFinite f = true ->
  forallb (no_char ",") (take 14 ((f +:+ ";" +:+ rest) :: more)) = true ->
  exists this',
    guessDelimiter' this ((f +:+ ";" +:+ rest) :: more) = Ok (";", this').
Proof.
  intros Hf Hc Hl. rewrite guessDelimiter_take.
  destruct (guessDelimiter_ok date_parses number_isNaN number_isFinite
              this (take 14 ((f +:+ ";" +:+ rest) :: more)))
    as (g & Hg & Hd).
  pose proof (sniff_lines_still date_parses number_isNaN number_isFinite
                comma "," comma_incr _ Hl _ _ _ Hg) as Hcm.
  assert (Hsemi : 1 <= semicolon (pot g)).
  { cbn [take sniff_lines] in Hg.
    change (13 <? 0) with false in Hg. cbv iota in Hg.
    destruct (sniff_line_first_semicolon f rest Hf Hc) as (g1 & H1 & Hs1).
    rewrite H1 in Hg.
    pose proof (sniff_lines_mono date_parses number_isNaN number_isFinite
                  semicolon semicolon_mono _ _ _ _ Hg).
    lia. }
  rewrite Hd. eexists. f_equal. f_equal.
  unfold decide_delimiter. rewrite Hcm. cbn [counters0 pot comma].
  replace (0 <? semicolon (pot g)) with true
    by (symmetry; apply Nat.ltb_lt; lia).
  reflexivity.
Qed.

(** X8. No decimal point configured and no period among the first 14
    lines: the guessed decimal point is the comma. *)
Theorem no_period_gives_comma (this : Parser) (lines : list string) :
  JS.truthy_string (decimalPoint (options this)) = false ->
  forallb (no_char ".") (take 14 lines) = true ->
  exists d this',
    guessDelimiter' this lines = Ok (d, this')
    /\ guessedDecimalPoint this' = Some ",".
Proof.
  intros Hdp Hl. rewrite guessDelimiter_take.
  destruct (guessDelimiter_ok date_parses number_isNaN number_isFinite
              this (take 14 lines)) as (g & Hg & Hd).
  pose proof (sniff_lines_points _ Hl _ _ _ Hg) as Hp.
  rewrite Hd, Hdp. eexists _, _. split; [reflexivity|].
  cbn [negb set_decimal guessedDecimalPoint]. rewrite Hp.
  cbn [counters0 points].
  replace (commas g <? 0) with false by (symmetry; apply Nat.ltb_ge; lia).
  reflexivity.
Qed.

End SniffTheorems.

Lemma sniffer_reads_14_lines_witness :
  guessDelimiter never always never
    (MkParser [] [] None None None (instance_options None))
    (repeat "a,b" 14 ++ ["c;d;e"; "f;g;h"])
  = guessDelimiter never always never
      (MkParser [] [] None None None (instance_options None))
      (repeat "a,b" 14 ++ ["1.5"]).
Proof.
  apply (sniffer_reads_14_lines never always never
           (MkParser [] [] None None None (instance_options None))
           (repeat "a,b" 14 ++ ["c;d;e"; "f;g;h"])
           (repeat "a,b" 14 ++ ["1.5"])).
  reflexivity.
Defined.

Lemma no_semicolon_gives_comma_witness :
  exists this',
    guessDelimiter never always never
      (MkParser [] [] None None None (instance_options None))
      ["a,b"; "c" +:+ unit_string JS.TAB +:+ "d"]
    = Ok (",", this').
Proof.
  apply (no_semicolon_gives_comma never always never
           (MkParser [] [] None None None (instance_options None))
           ["a,b"; "c" +:+ unit_string JS.TAB +:+ "d"]).
  reflexivity.
Defined.

Lemma semicolon_text_detected_witness :
  exists this',
    guessDelimiter never always never
      (MkParser [] [] None None None (instance_options None))
      (("name" +:+ ";" +:+ "1.5;x") :: ["b;2.5;y"])
    = Ok (";", this').
Proof.
  apply (semicolon_text_detected never always never
           (MkParser [] [] None None None (instance_options None))
           "name" "1.5;x" ["b;2.5;y"]); reflexivity.
Defined.

Lemma no_period_gives_comma_witness :
  exists d this',
    guessDelimiter never always never
      (MkParser [] [] None None None
         (MkOptions None None None None None None None None None None))
      ["1,5;2,5"]
    = Ok (d, this')
    /\ guessedDecimalPoint this' = Some ",".
Proof.
  apply (no_period_gives_comma never always never
           (MkParser [] [] None None None
              (MkOptions None None None None None None None None None None))
           ["1,5;2,5"]); reflexivity.
Defined.


(** ** The sniffer behind a quoted field *)

Section SniffQuoted.

Variable date_parses : string -> bool.
Variable number_isNaN : string -> bool.
Variable number_isFinite : string -> bool.

Local Abbreviation sniff_line' :=
  (sniff_line date_parses number_isNaN number_isFinite).
Local Abbreviation sniff_lines' :=
  (sniff_lines date_parses number_isNaN number_isFinite).
Local Abbreviation guessDelimiter' :=
  (guessDelimiter date_parses number_isNaN number_isFinite).

(** The loop over the spaces behind a closing quote, once it has moved:
    it stops on the first code unit that is no space, and leaves the
    index on it. *)
Lemma skip_spaces_on (columnStr : string) (c : ascii) (post : string)
  (sp : string) :
  forall (pre : string) (fuel : nat),
    columnStr = pre +:+ sp +:+ String c post ->
    only_spaces sp = true ->
    Ascii.eqb c " " = false ->
    String.length sp < fuel ->
    skip_spaces columnStr fuel (String.length pre)
      (JS.charAt columnStr (String.length pre))
    = Ok (String.length pre + String.length sp, Some c).
Proof.
  induction sp as [|s sp IH]; intros pre fuel Hs Hsp Hc Hf.
  - destruct fuel as [|fuel]; [simpl in Hf; lia|].
    rewrite str_app_nil in Hs.
    rewrite Hs at 2. rewrite charAt_middle.
    cbn [skip_spaces JS.is_char]. rewrite Hc. cbn [andb].
    now rewrite Nat.add_0_r.
  - destruct fuel as [|fuel]; [simpl in Hf; lia|].
    unfold only_spaces in Hsp. simpl in Hsp.
    apply andb_prop in Hsp as [Hs0 Hsp]. apply Ascii.eqb_eq in Hs0.
    subst s. rewrite str_app_cons in Hs.
    assert (E : JS.charAt columnStr (String.length pre) = Some " "%char)
      by (rewrite Hs; apply charAt_middle).
    rewrite E. cbn [skip_spaces JS.is_char]. rewrite Ascii.eqb_refl.
    cbn [andb].
    assert (Hlt : String.length pre < String.length columnStr)
      by (rewrite Hs; apply length_middle).
    apply Nat.ltb_lt in Hlt. rewrite Hlt.
    assert (Hs' : columnStr
                  = (pre +:+ unit_string " ") +:+ sp +:+ String c post).
    { rewrite Hs. unfold unit_string. now rewrite !str_app_assoc. }
    specialize (IH (pre +:+ unit_string " ") fuel Hs' Hsp Hc
                  ltac:(simpl in Hf; lia)).
    rewrite str_length_app in IH. simpl in IH.
    rewrite Nat.add_1_r in IH. rewrite IH. f_equal. f_equal.
    simpl. lia.
Qed.

(** The same loop as the closing quote at the end of [pre] starts it:
    with no space behind the quote the index stays on the quote, and
    otherwise it ends on the code unit behind the spaces. *)
Lemma skip_spaces_run (columnStr : string) (c : ascii) (post : string)
  (sp : string) (pre : string) (q : ascii) (fuel : nat) :
  columnStr = pre +:+ String q sp +:+ String c post ->
  only_spaces sp = true ->
  Ascii.eqb c " " = false ->
  S (String.length sp) < fuel ->
  skip_spaces columnStr fuel (String.length pre)
    (JS.charAt columnStr (S (String.length pre)))
  = Ok (match sp with
        | EmptyString => String.length pre
        | String _ _ => S (String.length pre + String.length sp)
        end, Some c).
Proof.
  intros Hs Hsp Hc Hf.
  assert (Hs' : columnStr
                = (pre +:+ unit_string q) +:+ sp +:+ String c post).
  { rewrite Hs. unfold unit_string. now rewrite !str_app_assoc. }
  assert (Hn : S (String.length pre)
               = String.length (pre +:+ unit_string q))
    by (rewrite str_length_app; simpl; lia).
  destruct sp as [|s sp].
  - destruct fuel as [|fuel]; [simpl in Hf; lia|].
    rewrite str_app_nil in Hs'. rewrite Hn.
    rewrite Hs' at 2. rewrite charAt_middle.
    cbn [skip_spaces JS.is_char]. now rewrite Hc.
  - destruct fuel as [|fuel]; [simpl in Hf; lia|].
    pose proof Hsp as Hsp'. unfold only_spaces in Hsp'. simpl in Hsp'.
    apply andb_prop in Hsp' as [Hs0 _]. apply Ascii.eqb_eq in Hs0.
    subst s.
    assert (E : JS.charAt columnStr (S (String.length pre))
                = Some " "%char).
    { rewrite Hn, Hs', str_app_cons. apply charAt_middle. }
    rewrite E. cbn [skip_spaces JS.is_char]. rewrite Ascii.eqb_refl.
    cbn [andb].
    assert (Hlt : String.length pre < String.length columnStr)
      by (rewrite Hs; apply length_middle).
    apply Nat.ltb_lt in Hlt. rewrite Hlt.
    rewrite Hn.
    rewrite (skip_spaces_on columnStr c post (String " " sp)
               (pre +:+ unit_string q) fuel Hs' Hsp Hc)
      by (simpl in Hf |- *; lia).
    now rewrite <- Hn.
Qed.

(** A line that opens with a quoted field, then spaces or none, then a
    semicolon: the closing quote counts the semicolon. *)
Lemma sniff_line_quoted_semicolon (x sp rest : string) (g : counters) :
  x <> EmptyString ->
  all_chars sniff_plain x = true ->
  only_spaces sp = true ->
  exists g',
    sniff_line' (quote +:+ x +:+ quote +:+ sp +:+ ";" +:+ rest)
      (S (String.length (quote +:+ x +:+ quote +:+ sp +:+ ";" +:+ rest)))
      0 false EmptyString g
    = Ok g'
    /\ S (semicolon (pot g)) <= semicolon (pot g').
Proof.
  intros Hne Hx Hsp.
  set (line := quote +:+ x +:+ quote +:+ sp +:+ ";" +:+ rest).
  assert (Hl : String.length line
               = S (String.length x + S (String.length sp
                                         + S (String.length rest))))
    by (subst line; rewrite !str_length_app; simpl; lia).
  (* the opening quote *)
  assert (H0 : JS.charAt line 0 = Some JS.DQUOTE) by reflexivity.
  assert (Hlt0 : (0 <? String.length line) = true)
    by (apply Nat.ltb_lt; lia).
  cbn [sniff_line]. rewrite Hlt0, H0.
  change (is_hash (Some JS.DQUOTE)) with false.
  change (is_quote (Some JS.DQUOTE)) with true.
  change (JS.is_char "," (Some JS.DQUOTE)) with false.
  change (JS.is_char "." (Some JS.DQUOTE)) with false.
  cbv iota.
  (* the text between the quotes *)
  destruct (sniff_line_plain date_parses number_isNaN number_isFinite
              line x quote (quote +:+ sp +:+ ";" +:+ rest)
              (S (S (String.length sp + S (String.length rest)))) true
              EmptyString
              (Counters (pot g) (points g) (commas g)) eq_refl Hx)
    as (g1 & Hg1 & E).
  assert (Hfu : String.length line
                = String.length x
                  + S (S (String.length sp + S (String.length rest))))
    by lia.
  rewrite Hfu.
  change (String.length quote) with 1 in E.
  rewrite E, str_app_nil. clear E. cbn [pot] in Hg1.
  set (fu := S (String.length sp + S (String.length rest))).
  (* the closing quote *)
  set (j := 1 + String.length x).
  assert (Hq : all_chars not_quote x = true).
  { clear -Hx. induction x as [|c x IH]; [reflexivity|].
    simpl in Hx |- *. apply andb_prop in Hx as [Hc Hx].
    rewrite (IH Hx), andb_true_r. unfold sniff_plain in Hc.
    apply andb_prop in Hc as [Hc _]. now apply andb_prop in Hc as [_ Hc]. }
  assert (Hline : line = (quote +:+ x) +:+ String JS.DQUOTE sp
                         +:+ String ";" rest).
  { subst line. rewrite !str_app_assoc. reflexivity. }
  assert (Hc : JS.charAt line j = Some JS.DQUOTE).
  { subst j. rewrite Hline, str_app_cons.
    replace (1 + String.length x) with (String.length (quote +:+ x))
      by (rewrite str_length_app; reflexivity).
    apply charAt_middle. }
  assert (Hcl : is_quote (JS.charBefore line j) = false)
    by (apply (last_not_quote quote x _ j Hne Hq); reflexivity).
  assert (Hskip : skip_spaces line (S fu) j (JS.charAt line (S j))
                  = Ok (match sp with
                        | EmptyString => j
                        | String _ _ => S (j + String.length sp)
                        end, Some ";"%char)).
  { replace j with (String.length (quote +:+ x))
      by (rewrite str_length_app; reflexivity).
    apply (skip_spaces_run line ";" rest sp (quote +:+ x) JS.DQUOTE);
      [exact Hline | exact Hsp | reflexivity | subst fu; lia]. }
  assert (Hcn : is_quote (JS.charAt line (S j)) = false).
  { replace (S j) with (String.length ((quote +:+ x) +:+ quote))
      by (rewrite !str_length_app; simpl; subst j; lia).
    rewrite Hline.
    replace ((quote +:+ x) +:+ String JS.DQUOTE sp +:+ String ";" rest)
      with (((quote +:+ x) +:+ quote) +:+ sp +:+ String ";" rest)
      by (now rewrite !str_app_assoc).
    destruct sp as [|s sp'].
    - rewrite str_app_nil, charAt_middle. reflexivity.
    - unfold only_spaces in Hsp. simpl in Hsp.
      apply andb_prop in Hsp as [Hs0 _]. apply Ascii.eqb_eq in Hs0.
      subst s. rewrite str_app_cons, charAt_middle. reflexivity. }
  assert (Hltj : (j <? String.length line) = true)
    by (apply Nat.ltb_lt; subst j; lia).
  cbn [sniff_line]. fold j. rewrite Hltj, Hc.
  change (is_hash (Some JS.DQUOTE)) with false.
  change (is_quote (Some JS.DQUOTE)) with true.
  change (JS.is_char "," (Some JS.DQUOTE)) with false.
  change (JS.is_char "." (Some JS.DQUOTE)) with false.
  cbv iota. rewrite Hcl, Hcn. cbn [negb andb]. rewrite Hskip.
  assert (Hjj : j <= match sp with
                     | EmptyString => j
                     | String _ _ => S (j + String.length sp)
                     end) by (destruct sp; lia).
  revert Hjj. generalize (match sp with
                          | EmptyString => j
                          | String _ _ => S (j + String.length sp)
                          end). intros jj Hjj.
  change (pot_has (Some ";"%char)) with true. cbv iota.
  match goal with
  | |- context [sniff_line' line ?fu ?j' ?i ?t ?g0] =>
      destruct (sniff_line_ok date_parses number_isNaN number_isFinite
                  line fu j' i t g0) as [g' Hg'];
        [subst fu; lia | subst j fu; lia |];
      pose proof (sniff_line_mono date_parses number_isNaN number_isFinite
                    semicolon semicolon_mono line fu j' i t g0 g' Hg')
        as Hm
  end.
  exists g'. split; [exact Hg'|].
  cbn [pot] in Hm. rewrite Hg1 in Hm.
  change (pot_incr (Some ";"%char) (pot g))
    with (Pot (comma (pot g)) (S (semicolon (pot g))) (tab (pot g))) in Hm.
  exact Hm.
Qed.

(** X17. A text whose first line opens with a quoted field, then spaces
    or none, then a semicolon, and whose first 14 lines hold no comma:
    the guess is the semicolon, whatever the host makes of the field. *)
Theorem quoted_semicolon_detected (this : Parser) (x sp rest : string)
  (more : list string) :
  0 < String.length x ->
  all_chars sniff_plain x = true ->
  only_spaces sp = true ->
  forallb (no_char ",")
    (take 14 ((quote +:+ x +:+ quote +:+ sp +:+ ";" +:+ rest) :: more))
  = true ->
  exists this',
    guessDelimiter' this
      ((quote +:+ x +:+ quote +:+ sp +:+ ";" +:+ rest) :: more)
    = Ok (";", this').
Proof.
  intros Hlen Hx Hsp Hl.
  assert (Hne : x <> EmptyString) by (intros ->; simpl in Hlen; lia).
  rewrite guessDelimiter_take.
  set (line := quote +:+ x +:+ quote +:+ sp +:+ ";" +:+ rest) in *.
  destruct (guessDelimiter_ok date_parses number_isNaN number_isFinite
              this (take 14 (line :: more))) as (g & Hg & Hd).
  pose proof (sniff_lines_still date_parses number_isNaN number_isFinite
                comma "," comma_incr _ Hl _ _ _ Hg) as Hcm.
  assert (Hsemi : 1 <= semicolon (pot g)).
  { cbn [take sniff_lines] in Hg.
    change (13 <? 0) with false in Hg. cbv iota in Hg.
    destruct (sniff_line_quoted_semicolon x sp rest counters0 Hne Hx Hsp)
      as (g1 & H1 & Hs1).
    fold line in H1. rewrite H1 in Hg.
    pose proof (sniff_lines_mono date_parses number_isNaN number_isFinite
                  semicolon semicolon_mono _ _ _ _ Hg).
    lia. }
  rewrite Hd. eexists. f_equal. f_equal.
  unfold decide_delimiter. rewrite Hcm. cbn [counters0 pot comma].
  replace (0 <? semicolon (pot g)) with true
    by (symmetry; apply Nat.ltb_lt; lia).
  reflexivity.
Qed.

End SniffQuoted.

Lemma quoted_semicolon_detected_witness :
  exists this',
    guessDelimiter never never always
      (MkParser [] [] None None None (instance_options None))
      ((quote +:+ "1" +:+ quote +:+ "  " +:+ ";" +:+ "2") :: ["3;4"])
    = Ok (";", this').
Proof.
  apply (quoted_semicolon_detected never never always
           (MkParser [] [] None None None (instance_options None))
           "1" "  " "2" ["3;4"]); [simpl; lia | reflexivity..].
Defined.


(** ** What the sniffer counts *)

Section SniffCounts.

Variable date_parses : string -> bool.
Variable number_isNaN : string -> bool.
Variable number_isFinite : string -> bool.

Local Abbreviation sniff_line' :=
  (sniff_line date_parses number_isNaN number_isFinite).
Local Abbreviation sniff_lines' :=
  (sniff_lines date_parses number_isNaN number_isFinite).
Local Abbreviation guessDelimiter' :=
  (guessDelimiter date_parses number_isNaN number_isFinite).

(** One round of the scan of a line, at a code unit that is no hash and,
    if it is a quote, has no space behind it: the scan goes on at the
    next index, with the periods and commas counted at this one. *)
Lemma sniff_line_round (columnStr pre rest : string) (c : ascii)
  (fuel : nat) (inStr : bool) (tok : string) (g : counters) :
  columnStr = pre +:+ String c rest ->
  Ascii.eqb c JS.HASH = false ->
  Ascii.eqb c JS.DQUOTE && JS.is_char " " (String.get 0 rest) = false ->
  exists inStr' tok' p,
    sniff_line' columnStr (S fuel) (String.length pre) inStr tok g
    = sniff_line' columnStr fuel (S (String.length pre)) inStr' tok'
        (Counters p
           ((if Ascii.eqb c "." then 1 else 0) + points g)
           ((if Ascii.eqb c "," then 1 else 0) + commas g)).
Proof.
  intros Hs Hh Hq. cbn [sniff_line].
  assert (Hlt : String.length pre < String.length columnStr)
    by (rewrite Hs; apply length_middle).
  apply Nat.ltb_lt in Hlt. rewrite Hlt.
  assert (Hc : JS.charAt columnStr (String.length pre) = Some c)
    by (rewrite Hs; apply charAt_middle).
  rewrite Hc. unfold is_hash, is_quote. cbn [JS.is_char]. rewrite Hh.
  assert (Hn : JS.charAt columnStr (S (String.length pre))
               = String.get 0 rest).
  { rewrite Hs.
    replace (pre +:+ String c rest) with ((pre +:+ unit_string c) +:+ rest)
      by (unfold unit_string; now rewrite str_app_assoc).
    replace (S (String.length pre))
      with (String.length (pre +:+ unit_string c) + 0)
      by (rewrite str_length_app; simpl; lia).
    apply charAt_app_r. }
  assert (Hp : forall b : bool, (if b then S (points g) else points g)
                                = (if b then 1 else 0) + points g)
    by (intros []; reflexivity).
  assert (Hcm : forall b : bool, (if b then S (commas g) else commas g)
                                 = (if b then 1 else 0) + commas g)
    by (intros []; reflexivity).
  rewrite Hp, Hcm.
  destruct (Ascii.eqb c JS.DQUOTE) eqn:Hdq.
  - cbn [andb] in Hq. destruct inStr.
    + destruct (negb _ && negb _).
      * rewrite Hn. cbn [skip_spaces]. rewrite Hq. cbn [andb]. eauto.
      * eauto.
    + eauto.
  - destruct (pot_has (Some c)); eauto.
Qed.

(** The scan of a line from any index on counts the periods and the
    commas in front of the first hash. *)
Lemma sniff_line_counts (columnStr : string) (rest : string) :
  forall (pre : string) (fuel : nat) (inStr : bool) (tok : string)
    (g : counters),
    columnStr = pre +:+ rest ->
    no_quote_space rest = true ->
    String.length rest < fuel ->
    exists g',
      sniff_line' columnStr fuel (String.length pre) inStr tok g = Ok g'
      /\ points g' = count_char "." (before_hash rest) + points g
      /\ commas g' = count_char "," (before_hash rest) + commas g.
Proof.
  induction rest as [|c rest IH]; intros pre fuel inStr tok g Hs Hq Hf.
  - destruct fuel as [|fuel]; [simpl in Hf; lia|].
    rewrite str_app_empty_r in Hs. subst pre.
    cbn [sniff_line]. rewrite Nat.ltb_irrefl. now exists g.
  - destruct fuel as [|fuel]; [simpl in Hf; lia|].
    cbn [no_quote_space] in Hq. apply andb_prop in Hq as [Hq Hr].
    apply negb_true_iff in Hq.
    destruct (Ascii.eqb c JS.HASH) eqn:Hh.
    + exists g. cbn [before_hash]. rewrite Hh. split; [|now split].
      cbn [sniff_line].
      assert (Hlt : String.length pre < String.length columnStr)
        by (rewrite Hs; apply length_middle).
      apply Nat.ltb_lt in Hlt. rewrite Hlt.
      rewrite Hs, charAt_middle. unfold is_hash. cbn [JS.is_char].
      now rewrite Hh.
    + destruct (sniff_line_round columnStr pre rest c fuel inStr tok g
                  Hs Hh Hq) as (inStr' & tok' & p & ->).
      destruct (IH (pre +:+ unit_string c) fuel inStr' tok'
                  (Counters p
                     ((if Ascii.eqb c "." then 1 else 0) + points g)
                     ((if Ascii.eqb c "," then 1 else 0) + commas g)))
        as (g' & Hg' & Hp & Hc);
        [rewrite Hs; unfold unit_string; now rewrite str_app_assoc
        | exact Hr | simpl in Hf; lia |].
      rewrite str_length_app in Hg'. simpl in Hg'.
      rewrite Nat.add_1_r in Hg'.
      exists g'. split; [exact Hg'|].
      cbn [before_hash]. rewrite Hh. cbn [count_char points commas] in *.
      split; lia.
Qed.

Lemma sniff_lines_counts (lines : list string) :
  forall (i : nat) (g : counters),
    forallb no_quote_space (take (14 - i) lines) = true ->
    exists g',
      sniff_lines' i lines g = Ok g'
      /\ points g'
         = list_sum (map (fun l => count_char "." (before_hash l))
                       (take (14 - i) lines)) + points g
      /\ commas g'
         = list_sum (map (fun l => count_char "," (before_hash l))
                       (take (14 - i) lines)) + commas g.
Proof.
  induction lines as [|l lines IH]; intros i g Hq.
  - exists g. rewrite take_nil. now repeat split.
  - cbn [sniff_lines]. destruct (Nat.ltb_spec 13 i) as [Hi|Hi].
    + exists g. replace (14 - i) with 0 by lia. now repeat split.
    + replace (14 - i) with (S (14 - S i)) in * by lia.
      cbn [take forallb map] in *.
      change (list_sum (?x :: ?xs)) with (x + list_sum xs).
      apply andb_prop in Hq as [Hl Hq].
      destruct (sniff_line_counts l l EmptyString (S (String.length l))
                  false EmptyString g eq_refl Hl ltac:(lia))
        as (g1 & H1 & Hp1 & Hc1).
      change (String.length EmptyString) with 0 in H1. rewrite H1.
      destruct (IH (S i) g1 Hq) as (g' & -> & Hp & Hc).
      exists g'. split; [reflexivity|]. split; lia.
Qed.

(** X20. The decimal point guessed. For an instance whose own
    [decimalPoint] option is falsy and a text in whose first 14 lines no
    quote has a space right behind it, the guessed decimal point is the
    period if the periods in front of the first hash of these lines,
    all lines together, are more than the commas there, and the comma
    otherwise; the pattern is built from the option, not from the
    guess. *)
Theorem decimal_guess_counts (this : Parser) (lines : list string) :
  JS.truthy_string (decimalPoint (options this)) = false ->
  forallb no_quote_space (take 14 lines) = true ->
  exists d this',
    guessDelimiter' this lines = Ok (d, this')
    /\ guessedDecimalPoint this'
       = Some (if counted "," lines <? counted "." lines then "." else ",")
    /\ decimalRegex this'
       = Some ("^(-?[0-9]+)" +:+ JS.string_of (decimalPoint (options this))
               +:+ "([0-9]+)$")
    /\ decimalRegex this'
       <> Some ("^(-?[0-9]+)" +:+ JS.string_of (guessedDecimalPoint this')
                +:+ "([0-9]+)$").
Proof.
  intros Hd Hq.
  destruct (guessDelimiter_ok date_parses number_isNaN number_isFinite
              this lines) as (g & Hg & Hr).
  destruct (sniff_lines_counts lines 0 counters0 Hq)
    as (g' & Hg' & Hp & Hc).
  rewrite Hg in Hg'. injection Hg' as <-.
  rewrite Hd in Hr. cbn [negb] in Hr.
  eexists _, _. split; [exact Hr|].
  cbn [set_decimal guessedDecimalPoint decimalRegex].
  rewrite Hp, Hc. cbn [counters0 points commas]. rewrite !Nat.add_0_r.
  change (14 - 0) with 14. fold (counted "." lines) (counted "," lines).
  repeat split.
  unfold decimal_pattern.
  destruct (decimalPoint (options this)) as [[|c s]|]; simpl in Hd;
    try discriminate;
    destruct (counted "," lines <? counted "." lines); vm_compute;
    discriminate.
Qed.

End SniffCounts.

Lemma decimal_guess_counts_witness :
  exists d this',
    guessDelimiter never always never
      (MkParser [] [] None None None
         (MkOptions None None None None None None (Some EmptyString) None
            None None))
      ["1.5,2.5"; quote +:+ "x.y" +:+ quote +:+ ",3.5 # 4,5,6,7"]
    = Ok (d, this')
    /\ guessedDecimalPoint this'
       = Some (if counted ","
                    ["1.5,2.5"; quote +:+ "x.y" +:+ quote +:+ ",3.5 # 4,5,6,7"]
                  <? counted "."
                       ["1.5,2.5";
                        quote +:+ "x.y" +:+ quote +:+ ",3.5 # 4,5,6,7"]
               then "." else ",")
    /\ decimalRegex this'
       = Some ("^(-?[0-9]+)" +:+ JS.string_of (Some EmptyString)
               +:+ "([0-9]+)$")
    /\ decimalRegex this'
       <> Some ("^(-?[0-9]+)" +:+ JS.string_of (guessedDecimalPoint this')
                +:+ "([0-9]+)$").
Proof.
  apply (decimal_guess_counts never always never
           (MkParser [] [] None None None
              (MkOptions None None None None None None (Some EmptyString)
                 None None None))
           ["1.5,2.5"; quote +:+ "x.y" +:+ quote +:+ ",3.5 # 4,5,6,7"]);
    reflexivity.
Defined.

(** ** Line endings *)

Lemma replace_crlf_line (l X : string) :
  no_char JS.CR l = true ->
  JS.replace_crlf (l +:+ X) = l +:+ JS.replace_crlf X.
Proof.
  induction l as [|c l IH]; intros Hl; [reflexivity|].
  simpl in Hl. apply andb_prop in Hl as [Hc Hl].
  apply negb_true_iff in Hc.
  rewrite !str_app_cons. cbn [JS.replace_crlf]. rewrite Hc.
  now rewrite IH.
Qed.

Lemma replace_cr_app (a b : string) :
  JS.replace_cr (a +:+ b) = JS.replace_cr a +:+ JS.replace_cr b.
Proof.
  induction a as [|c a IH]; [reflexivity|].
  rewrite str_app_cons. cbn [JS.replace_cr].
  now rewrite IH, str_app_cons.
Qed.

Lemma replace_cr_line (l : string) :
  no_char JS.CR l = true -> JS.replace_cr l = l.
Proof.
  induction l as [|c l IH]; intros Hl; [reflexivity|].
  simpl in Hl. apply andb_prop in Hl as [Hc Hl].
  apply negb_true_iff in Hc. cbn [JS.replace_cr]. rewrite Hc.
  now rewrite IH.
Qed.

Lemma replace_crlf_cr (X : string) :
  JS.is_char JS.LF (String.get 0 X) = false ->
  JS.replace_crlf (String JS.CR X) = String JS.CR (JS.replace_crlf X).
Proof.
  intros H. cbn [JS.replace_crlf].
  change (Ascii.eqb JS.CR JS.CR) with true. cbv iota.
  destruct X as [|d X]; [reflexivity|].
  simpl in H. now rewrite H.
Qed.

Lemma line_then_LF (l : string) (rest : list (ending * string)) :
  line_ok l = true ->
  JS.is_char JS.LF (String.get 0 (l +:+ more_lines rest))
  = String.eqb l EmptyString && next_is_LF rest.
Proof.
  intros Hl. unfold line_ok in Hl. apply andb_prop in Hl as [_ Hl].
  destruct l as [|c l].
  - rewrite str_app_nil. destruct rest as [|[[| |] l2] rest]; reflexivity.
  - simpl in Hl. apply andb_prop in Hl as [Hc _].
    apply negb_true_iff in Hc. rewrite str_app_cons. simpl. exact Hc.
Qed.

(** Normalising the line endings of a text leaves a line feed in front
    of every line behind the first. *)
Lemma normalize_more_lines (rest : list (ending * string)) :
  forallb line_ok (map snd rest) = true ->
  clear_endings rest = true ->
  JS.replace_cr (JS.replace_crlf (more_lines rest))
  = more_lines (with_LF rest).
Proof.
  induction rest as [|[e l] rest IH]; intros Hl Hc; [reflexivity|].
  cbn [map snd forallb] in Hl. apply andb_prop in Hl as [Hl0 Hl].
  cbn [clear_endings] in Hc. apply andb_prop in Hc as [Hc0 Hc].
  specialize (IH Hl Hc).
  pose proof Hl0 as Hl0'. unfold line_ok in Hl0'.
  apply andb_prop in Hl0' as [Hcr _].
  cbn [more_lines with_LF map snd]. fold (with_LF rest).
  assert (Hbody : JS.replace_cr (JS.replace_crlf (l +:+ more_lines rest))
                  = l +:+ more_lines (with_LF rest)).
  { rewrite replace_crlf_line, replace_cr_app, replace_cr_line, IH
      by exact Hcr. reflexivity. }
  destruct e; cbn [ending_code].
  - rewrite !str_app_cons, str_app_nil. cbn [JS.replace_crlf].
    change (Ascii.eqb JS.CR JS.CR) with true.
    change (Ascii.eqb JS.LF JS.LF) with true. cbv iota.
    cbn [JS.replace_cr]. change (Ascii.eqb JS.LF JS.CR) with false.
    cbv iota. now rewrite Hbody.
  - rewrite !str_app_cons, str_app_nil.
    rewrite replace_crlf_cr.
    + cbn [JS.replace_cr]. change (Ascii.eqb JS.CR JS.CR) with true.
      cbv iota. now rewrite Hbody.
    + rewrite line_then_LF by exact Hl0.
      simpl in Hc0. now apply negb_true_iff in Hc0.
  - rewrite !str_app_cons, str_app_nil. cbn [JS.replace_crlf].
    change (Ascii.eqb JS.LF JS.CR) with false. cbv iota.
    cbn [JS.replace_cr]. change (Ascii.eqb JS.LF JS.CR) with false.
    cbv iota. now rewrite Hbody.
Qed.

Lemma split_from_line (l X cur : string) :
  no_char JS.LF l = true ->
  JS.split_from LF_string (l +:+ X) 0 cur
  = JS.split_from LF_string X 0 (cur +:+ l).
Proof.
  revert cur; induction l as [|c l IH]; intros cur Hl.
  - now rewrite str_app_nil, str_app_empty_r.
  - simpl in Hl. apply andb_prop in Hl as [Hc Hl].
    apply negb_true_iff, Ascii.eqb_neq in Hc.
    rewrite str_app_cons. cbn [JS.split_from].
    unfold LF_string, unit_string at 1. cbn [String.prefix].
    destruct (ascii_dec JS.LF c) as [E|_]; [congruence|].
    fold (unit_string JS.LF). fold LF_string.
    rewrite IH by exact Hl. f_equal. now rewrite str_app_assoc.
Qed.

Lemma split_from_LF (X cur : string) :
  JS.split_from LF_string (String JS.LF X) 0 cur
  = cur :: JS.split_from LF_string X 0 EmptyString.
Proof.
  cbn [JS.split_from]. unfold LF_string, unit_string at 1.
  cbn [String.prefix].
  destruct (ascii_dec JS.LF JS.LF) as [_|E]; [|congruence].
  destruct X; reflexivity.
Qed.

Lemma split_lines (rest : list (ending * string)) :
  forall (l0 cur : string),
    forallb (no_char JS.LF) (l0 :: map snd rest) = true ->
    JS.split_from LF_string (l0 +:+ more_lines (with_LF rest)) 0 cur
    = (cur +:+ l0) :: map snd rest.
Proof.
  induction rest as [|[e l] rest IH]; intros l0 cur Hl.
  - simpl in Hl. apply andb_prop in Hl as [Hl _].
    cbn [with_LF map more_lines]. rewrite split_from_line by exact Hl.
    reflexivity.
  - cbn [forallb map snd] in Hl. apply andb_prop in Hl as [Hl0 Hl].
    cbn [with_LF map more_lines snd ending_code]. fold (with_LF rest).
    rewrite split_from_line by exact Hl0.
    rewrite str_app_cons, str_app_nil, split_from_LF.
    rewrite IH by exact Hl. reflexivity.
Qed.

(** X9. The lines of a text. For lines that hold no carriage return and
    no line feed, written one after the other with any of the three line
    endings between them, normalising the endings and splitting at the
    line feed gives the lines back, provided no bare carriage return is
    followed by an empty line that ends in a bare line feed. *)
Theorem lines_of_text (l0 : string) (rest : list (ending * string)) :
  forallb line_ok (l0 :: map snd rest) = true ->
  clear_endings rest = true ->
  JS.split (JS.replace_cr (JS.replace_crlf (l0 +:+ more_lines rest)))
    (Some LF_string)
  = l0 :: map snd rest.
Proof.
  intros Hl Hc. cbn [forallb] in Hl. apply andb_prop in Hl as [Hl0 Hl].
  pose proof Hl0 as Hl0'. unfold line_ok in Hl0'.
  apply andb_prop in Hl0' as [Hcr Hlf].
  rewrite replace_crlf_line, replace_cr_app, replace_cr_line by exact Hcr.
  rewrite normalize_more_lines by assumption.
  change (JS.split ?s (Some LF_string))
    with (JS.split_from LF_string s 0 EmptyString).
  rewrite split_lines; [reflexivity|].
  cbn [forallb]. rewrite Hlf. cbn [andb].
  rewrite forallb_forall in Hl. apply forallb_forall. intros l Hin.
  specialize (Hl l Hin). unfold line_ok in Hl.
  now apply andb_prop in Hl as [_ Hl].
Qed.

Lemma lines_of_text_witness :
  JS.split
    (JS.replace_cr
       (JS.replace_crlf
          ("a,b" +:+ more_lines [(CRLF, "c"); (CR, EmptyString);
                                 (CR, "d"); (LF, EmptyString)])))
    (Some LF_string)
  = "a,b" :: map snd [(CRLF, "c"); (CR, EmptyString);
                      (CR, "d"); (LF, EmptyString)].
Proof.
  apply (lines_of_text "a,b"
           [(CRLF, "c"); (CR, EmptyString); (CR, "d"); (LF, EmptyString)]);
    reflexivity.
Defined.

(** ** [parse] as a whole *)

Section ParseFacts.

Variable date_parses : string -> bool.
Variable number_isNaN : string -> bool.
Variable number_isFinite : string -> bool.

Local Abbreviation parse' :=
  (parse date_parses number_isNaN number_isFinite).
Local Abbreviation parse_csv' :=
  (parse_csv date_parses number_isNaN number_isFinite).
Local Abbreviation sniff' :=
  (sniff date_parses number_isNaN number_isFinite).
Local Abbreviation guessDelimiter' :=
  (guessDelimiter date_parses number_isNaN number_isFinite).

(** What the sniffing step does to the instance: the three guessed
    fields, told from the lines, the options and the old fields. *)
Lemma sniff_fields (po : Options) (lines : list string) (this : Parser) :
  exists gid gdp re,
    sniff' po lines this
    = Ok (MkParser (columns this) (headers this) gid gdp re (options this))
    /\ forall cols hs,
         sniff' po lines (MkParser cols hs gid gdp re (options this))
         = Ok (MkParser cols hs gid gdp re (options this)).
Proof.
  unfold sniff. destruct this as [c h gid gdp re o]. cbn [options].
  destruct (negb (JS.truthy_string (itemDelimiter po))).
  - destruct (guessDelimiter_ok date_parses number_isNaN number_isFinite
                (MkParser c h gid gdp re o) lines) as (g & Hg & Hd).
    rewrite Hd. cbn [options] in *.
    destruct (negb (JS.truthy_string (decimalPoint o))) eqn:Hdp.
    + exists (Some (decide_delimiter (pot g))),
        (Some (if commas g <? points g then "." else ",")),
        (Some (decimal_pattern (decimalPoint o))).
      split; [reflexivity|]. intros cols hs.
      destruct (guessDelimiter_ok date_parses number_isNaN number_isFinite
                  (MkParser cols hs
                     (Some (decide_delimiter (pot g)))
                     (Some (if commas g <? points g then "." else ","))
                     (Some (decimal_pattern (decimalPoint o))) o) lines)
        as (g' & Hg' & Hd').
      rewrite Hg in Hg'. injection Hg' as <-.
      rewrite Hd'. cbn [options]. rewrite Hdp. reflexivity.
    + exists (Some (decide_delimiter (pot g))), gdp, re.
      split; [reflexivity|]. intros cols hs.
      destruct (guessDelimiter_ok date_parses number_isNaN number_isFinite
                  (MkParser cols hs (Some (decide_delimiter (pot g)))
                     gdp re o) lines) as (g' & Hg' & Hd').
      rewrite Hg in Hg'. injection Hg' as <-.
      rewrite Hd'. cbn [options]. rewrite Hdp. reflexivity.
  - exists gid, gdp, re. split; reflexivity.
Qed.

Lemma parse_rows_ext (p q : Parser) (lines : list string) (s : Z) :
  options p = options q ->
  guessedItemDelimiter p = guessedItemDelimiter q ->
  forall n rowIt offset cols,
    parse_rows p lines s n rowIt offset cols
    = parse_rows q lines s n rowIt offset cols.
Proof.
  intros Ho Hg. induction n as [|n IH]; intros rowIt offset cols;
    [reflexivity|].
  cbn [parse_rows]. unfold row_delimiter. rewrite Ho, Hg.
  destruct (line_at lines rowIt); [|reflexivity].
  destruct (is_hash _); [apply IH|].
  destruct (parseCSVRow _ _ _ _ _ _); [apply IH | reflexivity].
Qed.

Lemma rows_loop_ext (p q : Parser) (lines : list string)
  (s e : JS.number) (cols : Columns) :
  options p = options q ->
  guessedItemDelimiter p = guessedItemDelimiter q ->
  rows_loop p lines s e cols = rows_loop q lines s e cols.
Proof.
  intros Ho Hg. unfold rows_loop.
  destruct (JS.index_of s); [now apply parse_rows_ext | reflexivity].
Qed.

(** The block [if (csv)], when it returns, keeps the headers and the
    options, and run again on its own result, with any buffer emptied and
    any headers, it gives the same buffer and guesses. *)
Lemma parse_csv_fields (po : Options) (csv' : option string)
  (this this1 : Parser) :
  columns this = [] ->
  parse_csv' po csv' this = Ok this1 ->
  exists cols gid gdp re,
    this1 = MkParser cols (headers this) gid gdp re (options this)
    /\ forall hs,
         parse_csv' po csv' (MkParser [] hs gid gdp re (options this))
         = Ok (MkParser cols hs gid gdp re (options this)).
Proof.
  intros Hc. unfold parse_csv.
  destruct this as [c h gid gdp re o]. cbn [columns] in Hc. subst c.
  destruct csv' as [text|].
  2:{ intros [= <-]. exists [], gid, gdp, re. split; reflexivity. }
  destruct (JS.truthy_string (Some text)).
  2:{ intros [= <-]. exists [], gid, gdp, re. split; reflexivity. }
  set (lines := JS.split _ _).
  destruct (sniff_fields po lines (MkParser [] h gid gdp re o))
    as (gid' & gdp' & re' & Hs & Hs').
  cbn [columns headers options] in *. rewrite Hs. cbn [columns].
  destruct (rows_loop (MkParser [] h gid' gdp' re' o) lines _ _ [])
    as [cols|e cols] eqn:Hrows; [|discriminate].
  intros [= <-]. exists cols, gid', gdp', re'. split; [reflexivity|].
  intros hs. rewrite Hs'. cbn [columns].
  rewrite (rows_loop_ext _ (MkParser [] h gid' gdp' re' o))
    by reflexivity.
  rewrite Hrows. reflexivity.
Qed.


Lemma arr_set_same {A} (a : JS.array A) (r : Z) (v : A) :
  JS.arr_get a r = Some v -> JS.arr_set a r v = a.
Proof.
  unfold JS.arr_get, JS.arr_set. destruct (r <? 0)%Z; [discriminate|].
  intros H. destruct (a !! Z.to_nat r) as [[x|]|] eqn:Hk;
    try discriminate.
  simpl in H. injection H as ->.
  pose proof (lookup_lt_Some _ _ _ Hk) as Hlt.
  apply Nat.ltb_lt in Hlt. rewrite Hlt. now apply list_insert_id.
Qed.

(** What header promotion writes: the names of the columns it goes
    through, and nothing else. *)
Lemma promote_spec (cols : Columns) (n : nat) :
  forall (i : nat) (hs hs' : JS.array string),
    promote n i cols hs = Ok hs' ->
    (forall j, i <= j < i + n ->
               JS.arr_get hs' (Z.of_nat j)
               = Some (JS.string_of (cell cols j 0%Z)))
    /\ (forall j, j < i \/ i + n <= j ->
                  JS.arr_get hs' (Z.of_nat j) = JS.arr_get hs (Z.of_nat j)).
Proof.
  induction n as [|n IH]; intros i hs hs' H.
  - injection H as <-. split; [intros j Hj; lia | reflexivity].
  - cbn [promote] in H. destruct (cols !! i) as [col|] eqn:Hcol;
      [|discriminate].
    destruct (IH _ _ _ H) as [Hin Hout]. split.
    + intros j Hj. destruct (Nat.eq_dec j i) as [->|Hne].
      * rewrite Hout by lia. rewrite arr_get_set_eq by lia.
        unfold cell. now rewrite Hcol.
      * apply Hin. lia.
    + intros j Hj. rewrite Hout by lia. apply arr_get_set_ne. lia.
Qed.

Lemma promote_idem (cols : Columns) (n : nat) :
  forall (i : nat) (hs hs' : JS.array string),
    promote n i cols hs = Ok hs' -> promote n i cols hs' = Ok hs'.
Proof.
  induction n as [|n IH]; intros i hs hs' H; [reflexivity|].
  cbn [promote] in *. destruct (cols !! i) as [col|] eqn:Hcol;
    [|discriminate].
  destruct (promote_spec _ _ _ _ _ H) as [_ Hout].
  rewrite arr_set_same; [exact (IH _ _ _ H)|].
  rewrite Hout by lia. apply arr_get_set_eq. lia.
Qed.

(** The shape of what [parse] returns. *)
Lemma parse_returned (opts : Options) (this this1 : Parser) :
  parse' opts this = Returned this1 ->
  exists csv' cols gid gdp re hs,
    run_beforeParse (merge (options this) opts) = Ok csv'
    /\ (forall hs0,
          parse_csv' (merge (options this) opts) csv'
            (MkParser [] hs0 gid gdp re (options this))
          = Ok (MkParser cols hs0 gid gdp re (options this)))
    /\ this1 = MkParser cols hs gid gdp re (options this)
    /\ (if JS.truthy_bool (firstRowAsNames (merge (options this) opts))
        then promote (length cols) 0 cols (headers this) = Ok hs
        else hs = headers this).
Proof.
  unfold parse. intros H. set (po := merge (options this) opts) in *.
  destruct (run_beforeParse po) as [csv'|e x]; [|discriminate].
  destruct (parse_csv _ _ _ po csv' (set_columns [] this))
    as [this0|e0 this0] eqn:Hcsv; [|discriminate].
  destruct (parse_csv_fields po csv' (set_columns [] this) this0 eq_refl
              Hcsv)
    as (cols & gid & gdp & re & -> & E2).
  cbn [set_columns headers options] in E2.
  unfold promote_headers in H. cbn [set_columns columns headers] in H.
  exists csv', cols, gid, gdp, re.
  destruct (JS.truthy_bool (firstRowAsNames po)).
  - destruct (promote _ _ _ _) as [hs|e hs] eqn:Hp; [|discriminate].
    injection H as <-. exists hs. repeat split; assumption.
  - injection H as <-. exists (headers this). repeat split; assumption.
Qed.

End ParseFacts.

Lemma merge_idem (a b : Options) : merge a (merge a b) = merge a b.
Proof.
  unfold merge. cbn.
  f_equal;
    match goal with
    | |- context [match ?f b with _ => _ end] =>
        destruct (f b); [reflexivity|]
    end;
    match goal with
    | |- context [match ?x with _ => _ end] => destruct x; reflexivity
    end.
Qed.

Section ParseTheorems.

Variable date_parses : string -> bool.
Variable number_isNaN : string -> bool.
Variable number_isFinite : string -> bool.

Local Abbreviation parse' :=
  (parse date_parses number_isNaN number_isFinite).

(** X13. A call of [parse] that returned, made again with the same
    options (the hook being a function of the text) on the instance it
    left, returns that instance: buffer, headers and guesses come out
    the same. *)
Theorem parse_idempotent (opts : Options) (this this1 : Parser) :
  parse' opts this = Returned this1 ->
  parse' opts this1 = Returned this1.
Proof.
  intros H.
  destruct (parse_returned _ _ _ _ _ _ H)
    as (csv' & cols & gid & gdp & re & hs & Hrun & Hcsv & -> & Hp).
  unfold parse. cbv zeta. unfold set_columns.
  cbn [options headers guessedItemDelimiter guessedDecimalPoint
         decimalRegex].
  rewrite Hrun, Hcsv. unfold promote_headers. cbn [columns headers].
  destruct (JS.truthy_bool _).
  - now rewrite (promote_idem _ _ _ _ _ Hp).
  - reflexivity.
Qed.

(** [parse] leaves the options of the instance as they are, however it
    ends. *)
Lemma parse_options_kept (opts : Options) (this : Parser) :
  options (instance_after (parse' opts this)) = options this.
Proof.
  destruct (parse' opts this) as [this1|e this1] eqn:H; cbn [instance_after].
  - destruct (parse_returned _ _ _ _ _ _ H)
      as (csv' & cols & gid & gdp & re & hs & _ & _ & -> & _).
    reflexivity.
  - destruct (parse_raised _ _ _ _ _ _ _ H)
      as [(hook & text & x & _ & _ & _ & _ & ->) | (_ & _ & _ & _ & Ho)];
      [reflexivity | exact Ho].
Qed.

(** X12. Options survive: a call of [parse] leaves the options of the
    instance as they are, however it ends, and an instance made by the
    constructor, before or after a call of [parse], gives through
    [toJSON] and [fromJSON] an instance with the same options. *)
Theorem json_round_trip (D o opts : Options) (this : Parser) :
  options (instance_after (parse' opts this)) = options this
  /\ options (fromJSON D (toJSON (new D o))) = options (new D o)
  /\ options (fromJSON D (toJSON (instance_after (parse' opts (new D o)))))
     = options (instance_after (parse' opts (new D o))).
Proof.
  assert (E : options (fromJSON D (toJSON (new D o))) = options (new D o))
    by apply merge_idem.
  split; [apply parse_options_kept|]. split; [exact E|].
  unfold fromJSON, toJSON. cbn [json_options].
  rewrite parse_options_kept. exact E.
Qed.

(** X10. No text, or the empty text: the hook is not called, nothing is
    split, sniffed or promoted, and [parse] returns the instance with
    the buffer emptied and everything else as it was. *)
Theorem parse_without_text (opts : Options) (this : Parser) :
  JS.truthy_string (csv (merge (options this) opts)) = false ->
  parse' opts this = Returned (set_columns [] this).
Proof.
  intros H. unfold parse, run_beforeParse.
  destruct (csv (merge (options this) opts)) as [[|c text]|];
    try discriminate.
  - assert (E : forall po, promote_headers po (set_columns [] this)
                           = Ok (set_columns [] this)).
    { intros po. unfold promote_headers.
      destruct (JS.truthy_bool _); [|reflexivity].
      destruct this; reflexivity. }
    destruct (beforeParse _); cbn; now rewrite E.
  - assert (E : forall po, promote_headers po (set_columns [] this)
                           = Ok (set_columns [] this)).
    { intros po. unfold promote_headers.
      destruct (JS.truthy_bool _); [|reflexivity].
      destruct this; reflexivity. }
    cbn. now rewrite E.
Qed.

(** X11. Header promotion. When [parse] returns and promotion is asked
    for, the header of every column of the buffer is its cell at row 0
    as a text (the text undefined when that cell is unset), the headers
    at and beyond the number of columns are those the instance had
    before the call; when promotion is not asked for the headers are
    those of before. *)
Theorem promoted_headers (opts : Options) (this this1 : Parser) :
  parse' opts this = Returned this1 ->
  if JS.truthy_bool (firstRowAsNames (merge (options this) opts))
  then
    (forall j, j < length (columns this1) ->
               JS.arr_get (headers this1) (Z.of_nat j)
               = Some (JS.string_of (cell (columns this1) j 0%Z)))
    /\ (forall j, length (columns this1) <= j ->
                  JS.arr_get (headers this1) (Z.of_nat j)
                  = JS.arr_get (headers this) (Z.of_nat j))
  else headers this1 = headers this.
Proof.
  intros H.
  destruct (parse_returned _ _ _ _ _ _ H)
    as (csv' & cols & gid & gdp & re & hs & _ & _ & -> & Hp).
  cbn [columns headers]. destruct (JS.truthy_bool _); [|exact Hp].
  destruct (promote_spec _ _ _ _ _ Hp) as [Hin Hout].
  split; intros j Hj; [apply Hin | apply Hout]; lia.
Qed.

End ParseTheorems.

(** X14. The row window by itself: the rows loop from a start row to
    an end row inside the text fills the buffer as the loop over the
    lines of the window alone does, from row 0; the lines outside the
    window count for nothing. *)
Theorem parse_rows_window_alone (this : Parser) (lines : list string)
  (s e : Z) :
  (0 <= s)%Z -> (e < Z.of_nat (length lines))%Z ->
  parse_rows this lines s (rounds s e) s 0%Z []
  = parse_rows this (take (rounds s e) (drop (Z.to_nat s) lines)) 0%Z
      (length (take (rounds s e) (drop (Z.to_nat s) lines))) 0%Z 0%Z [].
Proof.
  intros Hs He. rewrite parse_rows_window by assumption.
  rewrite tokenize_window_rows_from.
  set (W := take _ _).
  rewrite <- (tokenize_window_rows_from this [] W []).
  unfold tokenize_window. cbn [app length]. now rewrite app_nil_r.
Qed.

Lemma parse_idempotent_witness :
  parse never always never (call_options "a;b" None None (Some true))
    (MkParser [[Some "a"]; [Some "b"]] [Some "a"; Some "b"] (Some ";")
       None None (instance_options None))
  = Returned
      (MkParser [[Some "a"]; [Some "b"]] [Some "a"; Some "b"] (Some ";")
         None None (instance_options None)).
Proof.
  apply (parse_idempotent never always never
           (call_options "a;b" None None (Some true))
           (MkParser [] [Some "old"; Some "b"] None None None
              (instance_options None))).
  reflexivity.
Defined.

Lemma parse_without_text_witness :
  parse never always never (hooked_call (Some EmptyString))
    (MkParser [[Some "old"]] [Some "h"] None None None
       (instance_options None))
  = Returned
      (set_columns []
         (MkParser [[Some "old"]] [Some "h"] None None None
            (instance_options None))).
Proof.
  apply (parse_without_text never always never
           (hooked_call (Some EmptyString))
           (MkParser [[Some "old"]] [Some "h"] None None None
              (instance_options None))).
  reflexivity.
Defined.

Lemma promoted_headers_witness :
  (forall j, j < 2 ->
             JS.arr_get [Some "a"; Some "undefined"; Some "old"] (Z.of_nat j)
             = Some (JS.string_of
                       (cell [[Some "a"; Some "1"]; [None; Some "2"]] j 0%Z)))
  /\ (forall j, 2 <= j ->
                JS.arr_get [Some "a"; Some "undefined"; Some "old"]
                  (Z.of_nat j)
                = JS.arr_get [Some "x"; Some "y"; Some "old"] (Z.of_nat j)).
Proof.
  exact (promoted_headers never always never
           (call_options ("a" +:+ LF_string +:+ "1,2") None None (Some true))
           (MkParser [] [Some "x"; Some "y"; Some "old"] None None None
              (instance_options (Some ",")))
           (MkParser [[Some "a"; Some "1"]; [None; Some "2"]]
              [Some "a"; Some "undefined"; Some "old"] None None None
              (instance_options (Some ",")))
           eq_refl).
Defined.

Lemma parse_rows_window_alone_witness :
  parse_rows (MkParser [] [] None None None (instance_options (Some ",")))
    ["h"; "a,b"; "c,d"; "t"] 1%Z (rounds 1%Z 2%Z) 1%Z 0%Z []
  = parse_rows (MkParser [] [] None None None (instance_options (Some ",")))
      ["a,b"; "c,d"] 0%Z 2 0%Z 0%Z [].
Proof.
  apply (parse_rows_window_alone
           (MkParser [] [] None None None (instance_options (Some ",")))
           ["h"; "a,b"; "c,d"; "t"] 1%Z 2%Z); simpl; lia.
Defined.

(** ** What a call of [parse] sets *)

Section ParseGuess.

Variable date_parses : string -> bool.
Variable number_isNaN : string -> bool.
Variable number_isFinite : string -> bool.

Local Abbreviation parse' :=
  (parse date_parses number_isNaN number_isFinite).
Local Abbreviation parse_csv' :=
  (parse_csv date_parses number_isNaN number_isFinite).
Local Abbreviation sniff' :=
  (sniff date_parses number_isNaN number_isFinite).

(** What the sniffing step leaves of the instance. *)
Lemma sniff_guess (po : Options) (lines : list string) (this : Parser) :
  exists this',
    sniff' po lines this = Ok this'
    /\ columns this' = columns this
    /\ headers this' = headers this
    /\ options this' = options this
    /\ (JS.truthy_string (itemDelimiter po) = true -> this' = this)
    /\ (JS.truthy_string (decimalPoint (options this)) = true ->
        guessedDecimalPoint this' = guessedDecimalPoint this
        /\ decimalRegex this' = decimalRegex this).
Proof.
  unfold sniff.
  destruct (JS.truthy_string (itemDelimiter po)); cbn [negb].
  - exists this. repeat split; reflexivity.
  - destruct (guessDelimiter_ok date_parses number_isNaN number_isFinite
                this lines) as (g & _ & ->).
    eexists. split; [reflexivity|].
    destruct (negb (JS.truthy_string (decimalPoint (options this))))
      eqn:Hdp; cbn; repeat split; try discriminate;
      apply negb_true_iff in Hdp + apply negb_false_iff in Hdp;
      congruence.
Qed.

Lemma parse_csv_guess (po : Options) (csv' : option string)
  (this this' : Parser) :
  parse_csv' po csv' this = Ok this'
  \/ (exists e, parse_csv' po csv' this = Fail e this') ->
  headers this' = headers this
  /\ options this' = options this
  /\ (JS.truthy_string (itemDelimiter po) = true ->
      guessedItemDelimiter this' = guessedItemDelimiter this
      /\ guessedDecimalPoint this' = guessedDecimalPoint this
      /\ decimalRegex this' = decimalRegex this)
  /\ (JS.truthy_string (decimalPoint (options this)) = true ->
      guessedDecimalPoint this' = guessedDecimalPoint this
      /\ decimalRegex this' = decimalRegex this).
Proof.
  unfold parse_csv. destruct csv' as [text|].
  2:{ intros [[= <-] | [e [=]]]. repeat split; reflexivity. }
  destruct (JS.truthy_string (Some text)).
  2:{ intros [[= <-] | [e [=]]]. repeat split; reflexivity. }
  set (lines := JS.split _ _).
  destruct (sniff_guess po lines this)
    as (this1 & -> & Hc & Hh & Ho & Hd & Hp).
  assert (E : forall cols,
             this' = set_columns cols this1 ->
             headers this' = headers this
             /\ options this' = options this
             /\ (JS.truthy_string (itemDelimiter po) = true ->
                 guessedItemDelimiter this' = guessedItemDelimiter this
                 /\ guessedDecimalPoint this' = guessedDecimalPoint this
                 /\ decimalRegex this' = decimalRegex this)
             /\ (JS.truthy_string (decimalPoint (options this)) = true ->
                 guessedDecimalPoint this' = guessedDecimalPoint this
                 /\ decimalRegex this' = decimalRegex this)).
  { intros cols ->. cbn. repeat split; try assumption.
    - now rewrite (Hd H).
    - now rewrite (Hd H).
    - now rewrite (Hd H).
    - now apply Hp.
    - now apply Hp. }
  destruct (rows_loop _ _ _ _ _) as [cols|e0 cols].
  - intros [[= <-] | [e [=]]]. now apply (E cols).
  - intros [[=] | [e [= _ <-]]]. now apply (E cols).
Qed.

Lemma promote_headers_fields (po : Options) (this this' : Parser) :
  promote_headers po this = Ok this' ->
  columns this' = columns this
  /\ guessedItemDelimiter this' = guessedItemDelimiter this
  /\ guessedDecimalPoint this' = guessedDecimalPoint this
  /\ decimalRegex this' = decimalRegex this.
Proof.
  unfold promote_headers. destruct (JS.truthy_bool _).
  - destruct (promote _ _ _ _); [|discriminate].
    intros [= <-]. repeat split.
  - intros [= <-]. repeat split.
Qed.

(** The instance [parse] leaves, whatever the outcome: the hook raised
    and only the buffer was emptied, or the block behind the hook ran on
    the instance with the buffer emptied, and the instance has the
    guesses this block left. *)
Lemma parse_steps (opts : Options) (this : Parser) :
  instance_after (parse' opts this) = set_columns [] this
  \/ exists csv' this1,
       (parse_csv' (merge (options this) opts) csv' (set_columns [] this)
        = Ok this1
        \/ exists e,
             parse_csv' (merge (options this) opts) csv'
               (set_columns [] this) = Fail e this1)
       /\ guessedItemDelimiter (instance_after (parse' opts this))
          = guessedItemDelimiter this1
       /\ guessedDecimalPoint (instance_after (parse' opts this))
          = guessedDecimalPoint this1
       /\ decimalRegex (instance_after (parse' opts this))
          = decimalRegex this1.
Proof.
  unfold parse. cbv zeta.
  destruct (run_beforeParse _) as [csv'|e x]; [|now left].
  right.
  destruct (parse_csv _ _ _ (merge (options this) opts) csv'
              (set_columns [] this)) as [this1|e1 this1] eqn:H1.
  - destruct (promote_headers_ok (merge (options this) opts) this1)
      as [this2 H2].
    exists csv', this1. rewrite H2. cbn [instance_after].
    destruct (promote_headers_fields _ _ _ H2) as (_ & -> & -> & ->).
    split; [now left | repeat split].
  - exists csv', this1. cbn [instance_after].
    split; [right; now exists e1 | repeat split].
Qed.

(** X15. The decimal point is guessed only for an instance whose own
    [decimalPoint] option is falsy: on any other instance, and so on
    every instance made without that option, a call of [parse] leaves
    [guessedDecimalPoint] and [decimalRegex] as they were, whatever the
    options of the call, a [decimalPoint] among them, and however the
    call ends. *)
Theorem decimal_guess_needs_instance_option (opts : Options)
  (this : Parser) :
  JS.truthy_string (decimalPoint (options this)) = true ->
  guessedDecimalPoint (instance_after (parse' opts this))
  = guessedDecimalPoint this
  /\ decimalRegex (instance_after (parse' opts this)) = decimalRegex this.
Proof.
  intros Hd.
  destruct (parse_steps opts this)
    as [-> | (csv' & this1 & H1 & _ & -> & ->)]; [now split|].
  destruct (parse_csv_guess _ _ _ _ H1) as (_ & _ & _ & Hp).
  now apply Hp.
Qed.

(** X16. With an item delimiter in the merged options the sniffer is
    not run: [guessedItemDelimiter], [guessedDecimalPoint] and
    [decimalRegex] are after the call what they were before it, however
    the call ends. *)
Theorem explicit_delimiter_skips_sniffing (opts : Options)
  (this : Parser) :
  JS.truthy_string (itemDelimiter (merge (options this) opts)) = true ->
  guessedItemDelimiter (instance_after (parse' opts this))
  = guessedItemDelimiter this
  /\ guessedDecimalPoint (instance_after (parse' opts this))
     = guessedDecimalPoint this
  /\ decimalRegex (instance_after (parse' opts this)) = decimalRegex this.
Proof.
  intros Hd.
  destruct (parse_steps opts this)
    as [-> | (csv' & this1 & H1 & -> & -> & ->)]; [now repeat split|].
  destruct (parse_csv_guess _ _ _ _ H1) as (_ & _ & Hs & _).
  now apply Hs.
Qed.

(** X18. [parse] from the text to the buffer. For an instance with a
    one-unit item delimiter of its own, no hook and no row window, and a
    text whose lines are rows of plain or quoted fields, each with or
    without a trailing comment: [parse] returns, and the buffer is the
    table of the fields in the column window, cell by cell. *)
Theorem parse_table (opts : Options) (this : Parser) (d : ascii)
  (text : string) (rows : list (list field * string)) :
  delimiter_char d = true ->
  itemDelimiter (options this) = Some (unit_string d) ->
  csv (merge (options this) opts) = Some text ->
  JS.truthy_string (Some text) = true ->
  beforeParse (merge (options this) opts) = None ->
  startRow (merge (options this) opts) = None ->
  endRow (merge (options this) opts) = None ->
  JS.split (JS.replace_cr (JS.replace_crlf text))
    (lineDelimiter (merge (options this) opts))
  = map (fun row => row_code d (fst row) +:+ snd row) rows ->
  forallb (fun row =>
             good_row d (snd row) (fst row) && row_tail (snd row)) rows
  = true ->
  exists this1,
    parse' opts this = Returned this1
    /\ forall c r,
         cell (columns this1) c (Z.of_nat r)
         = match rows !! r with
           | Some row =>
               field_text
               <$> window_fields (startColumn (options this))
                     (endColumn (options this)) (fst row) !! c
           | None => None
           end.
Proof.
  intros Hd Hid Hcsv Ht Hhook Hs He Hlines Hrows.
  unfold parse. cbv zeta. set (po := merge (options this) opts) in *.
  assert (Hrun : run_beforeParse po = Ok (Some text)).
  { unfold run_beforeParse. now rewrite Hcsv, Hhook. }
  rewrite Hrun. unfold parse_csv.
  rewrite Ht, Hlines, Hs, He.
  set (lines := map _ rows).
  destruct (sniff_guess po lines (set_columns [] this))
    as (this' & -> & Hc & _ & Ho & _).
  cbn [set_columns columns options] in Hc, Ho. rewrite Hc.
  rewrite rounds_whole_text.
  assert (Hdel : row_delimiter this' = Some (unit_string d)).
  { unfold row_delimiter. now rewrite Ho, Hid. }
  assert (Hw : parse_rows this' lines 0 (length lines) 0 0 []
               = tokenize_window this' [] lines []).
  { unfold tokenize_window. cbn [app length]. now rewrite app_nil_r. }
  rewrite Hw, tokenize_window_rows_from.
  destruct (rows_from_table this' d Hd Hdel rows 0%Z [] ltac:(lia) Hrows)
    as (cols & H & _ & Hcells).
  { intros c r' _. unfold cell. now rewrite lookup_nil. }
  fold lines in H. rewrite H.
  destruct (promote_headers_ok po (set_columns cols this'))
    as [this2 H2].
  rewrite H2. exists this2. split; [reflexivity|].
  destruct (promote_headers_fields _ _ _ H2) as (-> & _).
  cbn [set_columns columns]. intros c r.
  rewrite <- Ho. apply (Hcells c r).
Qed.

End ParseGuess.

Lemma decimal_guess_needs_instance_option_witness :
  guessedDecimalPoint
    (instance_after
       (parse never always never
          (MkOptions (Some "1,5;2,5") None None None None None
             (Some EmptyString) None None None)
          (new no_options no_options)))
  = guessedDecimalPoint (new no_options no_options)
  /\ decimalRegex
       (instance_after
          (parse never always never
             (MkOptions (Some "1,5;2,5") None None None None None
                (Some EmptyString) None None None)
             (new no_options no_options)))
     = decimalRegex (new no_options no_options).
Proof.
  apply (decimal_guess_needs_instance_option never always never
           (MkOptions (Some "1,5;2,5") None None None None None
              (Some EmptyString) None None None)
           (new no_options no_options)).
  reflexivity.
Defined.

Lemma explicit_delimiter_skips_sniffing_witness :
  guessedItemDelimiter
    (instance_after
       (parse never always never
          (call_options "a;b" None (Some "|") None)
          (MkParser [] [] (Some ";") None None (instance_options None))))
  = Some ";"
  /\ guessedDecimalPoint
       (instance_after
          (parse never always never
             (call_options "a;b" None (Some "|") None)
             (MkParser [] [] (Some ";") None None (instance_options None))))
     = None
  /\ decimalRegex
       (instance_after
          (parse never always never
             (call_options "a;b" None (Some "|") None)
             (MkParser [] [] (Some ";") None None (instance_options None))))
     = None.
Proof.
  apply (explicit_delimiter_skips_sniffing never always never
           (call_options "a;b" None (Some "|") None)
           (MkParser [] [] (Some ";") None None (instance_options None))).
  reflexivity.
Defined.

Lemma parse_table_witness :
  exists this1,
    parse never always never
      (call_options
         ("a,b,c" +:+ String JS.CR LF_string +:+ "0," +:+ quote +:+ "1,5"
          +:+ quote +:+ "#c")
         None None None)
      (MkParser [[Some "old"]] [] None None None
         (MkOptions None None None (Some 1%Z) None (Some ",") None
            (Some LF_string) None None))
    = Returned this1
    /\ forall c r,
         cell (columns this1) c (Z.of_nat r)
         = match [([Plain "a"; Plain "b"; Plain "c"], EmptyString);
                  ([Plain "0"; Quoted ["1,5"]], "#c")] !! r with
           | Some row =>
               field_text <$> window_fields (Some 1%Z) None (fst row) !! c
           | None => None
           end.
Proof.
  apply (parse_table never always never
           (call_options
              ("a,b,c" +:+ String JS.CR LF_string +:+ "0," +:+ quote
               +:+ "1,5" +:+ quote +:+ "#c")
              None None None)
           (MkParser [[Some "old"]] [] None None None
              (MkOptions None None None (Some 1%Z) None (Some ",") None
                 (Some LF_string) None None))
           ","
           ("a,b,c" +:+ String JS.CR LF_string +:+ "0," +:+ quote +:+ "1,5"
            +:+ quote +:+ "#c")
           [([Plain "a"; Plain "b"; Plain "c"], EmptyString);
            ([Plain "0"; Quoted ["1,5"]], "#c")]);
    reflexivity.
Defined.
